(** * intel_idle: native hardware idle loop for Intel processors

    A shallow embedding of [drivers/idle/intel_idle.c] and the properties
    its design document states about it.

    The driver's file-scope statics become the record [globals]; the kernel
    services it calls (per-cpu allocator, cpuidle core, clock, scheduler
    flag, interrupt flag, log) become the record [kernel] together with a
    trace of the calls made.  Every C function is a computation in the
    monad [M], which threads the [world] and can crash on an invalid
    memory access. *)

From Stdlib Require Import ZArith Lia Sorted.
From stdpp Require Import base numbers option list strings gmap.

Local Open Scope Z_scope.

(** ** Machine integers *)

(** [unsigned int] and [int] are 32 bits wide; [unsigned long] is taken at
    64 bits (x86_64). *)
Definition u32 (z : Z) : Z := z mod 2 ^ 32.
Definition s32 (z : Z) : Z := (z + 2 ^ 31) mod 2 ^ 32 - 2 ^ 31.
Definition u64 (z : Z) : Z := z mod 2 ^ 64.

(** ** Constants *)

Definition MWAIT_SUBSTATE_MASK : Z := 0xf.
Definition MWAIT_CSTATE_MASK : Z := 0xf.
Definition MWAIT_SUBSTATE_SIZE : Z := 4.
Definition MWAIT_MAX_NUM_CSTATES : Z := 8.
Definition CPUID_MWAIT_LEAF : Z := 5.
Definition CPUID5_ECX_EXTENSIONS_SUPPORTED : Z := 0x1.
Definition CPUID5_ECX_INTERRUPT_BREAK : Z := 0x2.

(** Values of the kernel headers the driver includes. *)
Definition EPERM : Z := 1.
Definition EIO : Z := 5.
Definition ENOMEM : Z := 12.
Definition ENODEV : Z := 19.
Definition X86_VENDOR_INTEL : Z := 0.
Definition CPUIDLE_FLAG_TIME_VALID : Z := 0x01.
Definition CPUIDLE_STATE_MAX : nat := 8.

(** ** Data model *)

(** The only function ever stored in a state's [enter] slot. *)
Inductive enter_fn := intel_idle_fn.

(** [struct cpuidle_state]; a [NULL] [enter] is [None]. *)
Record cpuidle_state := {
  name : string;
  desc : string;
  driver_data : Z;
  flags : Z;
  exit_latency : Z;
  power_usage : Z;
  target_residency : Z;
  enter : option enter_fn;
}.

(** The zero-initialised row, [{ }]. *)
Definition empty_state : cpuidle_state :=
  {| name := ""; desc := ""; driver_data := 0; flags := 0;
     exit_latency := 0; power_usage := 0; target_residency := 0;
     enter := None |}.

(** [struct cpuidle_device], the fields the driver touches and the
    [registered] bit the cpuidle core keeps in it. *)
Record cpuidle_device := {
  registered : bool;
  cpu : nat;
  state_count : nat;
  states : list cpuidle_state;
}.

(** A device as [alloc_percpu] hands it out: all zero. *)
Definition zero_device : cpuidle_device :=
  {| registered := false; cpu := 0%nat; state_count := 0%nat;
     states := replicate CPUIDLE_STATE_MAX empty_state |}.

(** Values of the function pointer [choose_substate]. *)
Inductive policy_ptr := NoPolicy | TunablePolicy | ZeroPolicy.

(** Values of the pointer [cpuidle_state_table]. *)
Inductive table_ptr := NoTable | NehalemTable | AtomTable.

(** Values of a per-cpu pointer. *)
Inductive percpu_ptr := PNull | PAddr (a : nat).

(** The file-scope statics of the driver. *)
Record globals := {
  max_cstate : Z;
  power_policy : Z;
  substates : Z;
  choose_substate : policy_ptr;
  lapic_timer_reliable_states : Z;
  intel_idle_cpuidle_devices : percpu_ptr;
  cpuidle_state_table : table_ptr;
}.

(** The statics as the C initialisers leave them. *)
Definition initial_globals : globals :=
  {| max_cstate := MWAIT_MAX_NUM_CSTATES - 1;
     power_policy := 7;
     substates := 0;
     choose_substate := NoPolicy;
     lapic_timer_reliable_states := 0;
     intel_idle_cpuidle_devices := PNull;
     cpuidle_state_table := NoTable |}.

(** Diagnostics written with [pr_debug] and [printk]. *)
Inductive diag :=
| LogDisabled
| LogSubstates (v : Z)
| LogDoesNotRun (family model : Z)
| LogVersion (model : Z)
| LogReliableStates (v : Z)
| LogMaxCstateReached (v : Z)
| LogUnaware (model cstate : Z)
| LogRegisterFailed (c : nat)
| LogYielding.

(** Calls into the rest of the kernel, in the order they are made. *)
Inductive event :=
| EvLog (d : diag)
| EvCpuid (leaf : Z)
| EvAllocPercpu (p : percpu_ptr)
| EvFreePercpu (p : percpu_ptr)
| EvRegisterDevice (c : nat) (ret : Z)
| EvUnregisterDevice (c : nat)
| EvRegisterDriver (ret : Z)
| EvUnregisterDriver
| EvMarkTscUnstable
| EvIrqDisable
| EvIrqEnable
| EvBroadcastEnter (c : nat)
| EvBroadcastExit (c : nat)
| EvKtimeGet (t : Z)
| EvStopCriticalTimings
| EvStartCriticalTimings
| EvTracePowerStart (v : Z)
| EvNeedResched (b : bool)
| EvMonitor
| EvMb
| EvMwait (eax ecx : Z).

(** A per-cpu allocation: one device per cpu while live. *)
Inductive percpu_block :=
| Live (devs : gmap nat cpuidle_device)
| Freed.

(** The state of the kernel services the driver uses. *)
Record kernel := {
  heap : gmap nat percpu_block;
  cpuidle_registered : gset nat;
  driver_registered : bool;
  irqs_enabled : bool;
  resched_reads : nat;
  clock_reads : nat;
  trace : list event;
}.

Definition initial_kernel : kernel :=
  {| heap := ∅; cpuidle_registered := ∅; driver_registered := false;
     irqs_enabled := true; resched_reads := 0%nat; clock_reads := 0%nat;
     trace := [] |}.

Record world := { drv : globals; krn : kernel }.

Definition initial_world : world :=
  {| drv := initial_globals; krn := initial_kernel |}.

(** [struct cpuinfo_x86], the fields and feature bits the driver reads. *)
Record cpuinfo_x86 := {
  x86_vendor : Z;
  x86 : Z;
  x86_model : Z;
  cpuid_level : Z;
  has_mwait : bool;
  has_arat : bool;
  has_nonstop_tsc : bool;
}.

(** What the machine and the rest of the kernel answer. *)
Record platform := {
  boot_cpu_data : cpuinfo_x86;
  cpuid_regs : Z → Z * Z * Z * Z;
  online_cpus : list nat;
  smp_processor_id : nat;
  built_as_module : bool;
  alloc_percpu_ok : bool;
  register_driver_result : Z;
  register_device_result : nat → Z;
  need_resched_sample : nat → bool;
  ktime_sample : nat → Z;
}.

(** ** The monad of driver code *)

Inductive fault := NullDeref | UseAfterFree | DoubleFree | OutOfBounds.

Inductive outcome (A : Type) :=
| Done (a : A) (w : world)
| Crash (f : fault) (w : world).
Arguments Done {A} a w.
Arguments Crash {A} f w.

Definition M (A : Type) : Type := world → outcome A.

#[export] Instance M_ret : MRet M := λ A a w, Done a w.
#[export] Instance M_bind : MBind M := λ A B k m w,
  match m w with
  | Done a w' => k a w'
  | Crash f w' => Crash f w'
  end.

Definition crash {A} (f : fault) : M A := λ w, Crash f w.
Definition get_drv : M globals := λ w, Done (drv w) w.
Definition get_krn : M kernel := λ w, Done (krn w) w.
Definition when (b : bool) (m : M unit) : M unit :=
  if b then m else mret tt.

(** Field updates. *)
Definition with_max_cstate (v : Z) (g : globals) : globals :=
  {| max_cstate := v; power_policy := power_policy g; substates := substates g;
     choose_substate := choose_substate g;
     lapic_timer_reliable_states := lapic_timer_reliable_states g;
     intel_idle_cpuidle_devices := intel_idle_cpuidle_devices g;
     cpuidle_state_table := cpuidle_state_table g |}.
Definition with_power_policy (v : Z) (g : globals) : globals :=
  {| max_cstate := max_cstate g; power_policy := v; substates := substates g;
     choose_substate := choose_substate g;
     lapic_timer_reliable_states := lapic_timer_reliable_states g;
     intel_idle_cpuidle_devices := intel_idle_cpuidle_devices g;
     cpuidle_state_table := cpuidle_state_table g |}.
Definition with_substates (v : Z) (g : globals) : globals :=
  {| max_cstate := max_cstate g; power_policy := power_policy g; substates := v;
     choose_substate := choose_substate g;
     lapic_timer_reliable_states := lapic_timer_reliable_states g;
     intel_idle_cpuidle_devices := intel_idle_cpuidle_devices g;
     cpuidle_state_table := cpuidle_state_table g |}.
Definition with_choose_substate (v : policy_ptr) (g : globals) : globals :=
  {| max_cstate := max_cstate g; power_policy := power_policy g;
     substates := substates g; choose_substate := v;
     lapic_timer_reliable_states := lapic_timer_reliable_states g;
     intel_idle_cpuidle_devices := intel_idle_cpuidle_devices g;
     cpuidle_state_table := cpuidle_state_table g |}.
Definition with_lapic_timer_reliable_states (v : Z) (g : globals) : globals :=
  {| max_cstate := max_cstate g; power_policy := power_policy g;
     substates := substates g; choose_substate := choose_substate g;
     lapic_timer_reliable_states := v;
     intel_idle_cpuidle_devices := intel_idle_cpuidle_devices g;
     cpuidle_state_table := cpuidle_state_table g |}.
Definition with_devices (v : percpu_ptr) (g : globals) : globals :=
  {| max_cstate := max_cstate g; power_policy := power_policy g;
     substates := substates g; choose_substate := choose_substate g;
     lapic_timer_reliable_states := lapic_timer_reliable_states g;
     intel_idle_cpuidle_devices := v;
     cpuidle_state_table := cpuidle_state_table g |}.
Definition with_state_table (v : table_ptr) (g : globals) : globals :=
  {| max_cstate := max_cstate g; power_policy := power_policy g;
     substates := substates g; choose_substate := choose_substate g;
     lapic_timer_reliable_states := lapic_timer_reliable_states g;
     intel_idle_cpuidle_devices := intel_idle_cpuidle_devices g;
     cpuidle_state_table := v |}.

Definition with_heap (v : gmap nat percpu_block) (k : kernel) : kernel :=
  {| heap := v; cpuidle_registered := cpuidle_registered k;
     driver_registered := driver_registered k;
     irqs_enabled := irqs_enabled k; resched_reads := resched_reads k;
     clock_reads := clock_reads k; trace := trace k |}.
Definition with_cpuidle_registered (v : gset nat) (k : kernel) : kernel :=
  {| heap := heap k; cpuidle_registered := v;
     driver_registered := driver_registered k;
     irqs_enabled := irqs_enabled k; resched_reads := resched_reads k;
     clock_reads := clock_reads k; trace := trace k |}.
Definition with_driver_registered (v : bool) (k : kernel) : kernel :=
  {| heap := heap k; cpuidle_registered := cpuidle_registered k;
     driver_registered := v;
     irqs_enabled := irqs_enabled k; resched_reads := resched_reads k;
     clock_reads := clock_reads k; trace := trace k |}.
Definition with_irqs_enabled (v : bool) (k : kernel) : kernel :=
  {| heap := heap k; cpuidle_registered := cpuidle_registered k;
     driver_registered := driver_registered k;
     irqs_enabled := v; resched_reads := resched_reads k;
     clock_reads := clock_reads k; trace := trace k |}.
Definition with_resched_reads (v : nat) (k : kernel) : kernel :=
  {| heap := heap k; cpuidle_registered := cpuidle_registered k;
     driver_registered := driver_registered k;
     irqs_enabled := irqs_enabled k; resched_reads := v;
     clock_reads := clock_reads k; trace := trace k |}.
Definition with_clock_reads (v : nat) (k : kernel) : kernel :=
  {| heap := heap k; cpuidle_registered := cpuidle_registered k;
     driver_registered := driver_registered k;
     irqs_enabled := irqs_enabled k; resched_reads := resched_reads k;
     clock_reads := v; trace := trace k |}.
Definition with_trace (v : list event) (k : kernel) : kernel :=
  {| heap := heap k; cpuidle_registered := cpuidle_registered k;
     driver_registered := driver_registered k;
     irqs_enabled := irqs_enabled k; resched_reads := resched_reads k;
     clock_reads := clock_reads k; trace := v |}.

Definition modify_drv (f : globals → globals) : M unit :=
  λ w, Done tt {| drv := f (drv w); krn := krn w |}.
Definition modify_krn (f : kernel → kernel) : M unit :=
  λ w, Done tt {| drv := drv w; krn := f (krn w) |}.

(** Append one call to the trace. *)
Definition emit (e : event) : M unit :=
  modify_krn (λ k, with_trace (trace k ++ [e]) k).

Definition pr_debug (d : diag) : M unit := emit (EvLog d).
Definition printk (d : diag) : M unit := emit (EvLog d).

(** ** The idle state catalog *)

Definition mk_state (n d : string) (data lat pow res : Z)
    (e : option enter_fn) : cpuidle_state :=
  {| name := n; desc := d; driver_data := data;
     flags := CPUIDLE_FLAG_TIME_VALID; exit_latency := lat;
     power_usage := pow; target_residency := res; enter := e |}.

Definition nehalem_cstates : list cpuidle_state :=
  [ empty_state;
    mk_state "NHM-C1" "MWAIT 0x00" 0x00 3 1000 6 (Some intel_idle_fn);
    mk_state "NHM-C3" "MWAIT 0x10" 0x10 20 500 80 (Some intel_idle_fn);
    mk_state "NHM-C6" "MWAIT 0x20" 0x20 200 350 800 (Some intel_idle_fn);
    empty_state; empty_state; empty_state; empty_state ].

Definition atom_cstates : list cpuidle_state :=
  [ empty_state;
    mk_state "ATM-C1" "MWAIT 0x00" 0x00 1 1000 4 (Some intel_idle_fn);
    mk_state "ATM-C2" "MWAIT 0x10" 0x10 20 500 80 (Some intel_idle_fn);
    empty_state;
    mk_state "ATM-C4" "MWAIT 0x30" 0x30 100 250 400 (Some intel_idle_fn);
    empty_state;
    mk_state "ATM-C6" "MWAIT 0x40" 0x40 200 150 800 None;
    empty_state ].

(** ** Substate selection *)

(** choose_tunable_substate() *)
Definition choose_tunable_substate (cstate : Z) : M Z :=
  g ← get_drv;
  let pp := Z.land (power_policy g) 0xF in
  modify_drv (with_power_policy pp);;
  let cstate := Z.land cstate 7 in
  let num_substates :=
    Z.land (Z.shiftr (substates g) (cstate * 4)) MWAIT_SUBSTATE_MASK in
  if num_substates <=? 1 then mret 0
  else
    let substate_choice :=
      u32 (u32 pp + u32 (u32 (pp + 1) * u32 (num_substates - 1))) / 16 in
    mret (s32 substate_choice).

(** choose_zero_substate() *)
Definition choose_zero_substate (cstate : Z) : M Z := mret 0.

(** A call through the pointer [choose_substate]. *)
Definition call_choose_substate (cstate : Z) : M Z :=
  g ← get_drv;
  match choose_substate g with
  | NoPolicy => crash NullDeref
  | TunablePolicy => choose_tunable_substate cstate
  | ZeroPolicy => choose_zero_substate cstate
  end.

(** ** Kernel services *)

Definition with_registered (v : bool) (d : cpuidle_device) : cpuidle_device :=
  {| registered := v; cpu := cpu d; state_count := state_count d;
     states := states d |}.
Definition with_cpu (v : nat) (d : cpuidle_device) : cpuidle_device :=
  {| registered := registered d; cpu := v; state_count := state_count d;
     states := states d |}.
Definition with_state_count (v : nat) (d : cpuidle_device) : cpuidle_device :=
  {| registered := registered d; cpu := cpu d; state_count := v;
     states := states d |}.
Definition with_states (v : list cpuidle_state) (d : cpuidle_device)
    : cpuidle_device :=
  {| registered := registered d; cpu := cpu d; state_count := state_count d;
     states := v |}.

Definition dev_of (devs : gmap nat cpuidle_device) (i : nat) : cpuidle_device :=
  default zero_device (devs !! i).

(** Reading through [per_cpu_ptr(p, i)]. *)
Definition load_dev (p : percpu_ptr) (i : nat) : M cpuidle_device :=
  k ← get_krn;
  match p with
  | PNull => crash NullDeref
  | PAddr a =>
    match heap k !! a with
    | Some (Live devs) => mret (dev_of devs i)
    | _ => crash UseAfterFree
    end
  end.

(** Writing through [per_cpu_ptr(p, i)]. *)
Definition store_dev (p : percpu_ptr) (i : nat) (d : cpuidle_device) : M unit :=
  k ← get_krn;
  match p with
  | PNull => crash NullDeref
  | PAddr a =>
    match heap k !! a with
    | Some (Live devs) =>
      modify_krn (with_heap (<[a := Live (<[i := d]> devs)]> (heap k)))
    | _ => crash UseAfterFree
    end
  end.

(** Modelled from the spec: the allocator of the per-core records
    ("manual allocate/free"), which is not part of this file.
    alloc_percpu() gives zeroed storage at an address not used before, or
    [NULL] when the platform has none. *)
Definition alloc_percpu (pf : platform) : M percpu_ptr :=
  k ← get_krn;
  let p := if alloc_percpu_ok pf then PAddr (fresh (dom (heap k))) else PNull in
  match p with
  | PAddr a => modify_krn (with_heap (<[a := Live ∅]> (heap k)))
  | PNull => mret tt
  end;;
  emit (EvAllocPercpu p);;
  mret p.

(** Modelled from the spec: the release of the per-core records, which
    is not part of this file.  free_percpu() does nothing for [NULL] and
    releases a live block; releasing a block twice is an error. *)
Definition free_percpu (p : percpu_ptr) : M unit :=
  emit (EvFreePercpu p);;
  k ← get_krn;
  match p with
  | PNull => mret tt
  | PAddr a =>
    match heap k !! a with
    | Some (Live _) => modify_krn (with_heap (<[a := Freed]> (heap k)))
    | _ => crash DoubleFree
    end
  end.

(** Modelled from the spec: the idle framework's registration call,
    "register(coreId, record) -> Result", which is not part of this file.
    The result is the platform's answer for the device's core; on success
    the core is recorded as registered and the device is marked. *)
Definition cpuidle_register_device (pf : platform) (p : percpu_ptr) (i : nat)
    : M Z :=
  d ← load_dev p i;
  let r := register_device_result pf (cpu d) in
  emit (EvRegisterDevice (cpu d) r);;
  if r =? 0 then
    store_dev p i (with_registered true d);;
    modify_krn (λ k, with_cpuidle_registered ({[cpu d]} ∪ cpuidle_registered k) k);;
    mret r
  else mret r.

(** Modelled from the spec: the idle framework's "unregister(coreId)",
    which is not part of this file.  It reads the device it is given and
    does nothing for one that is not registered. *)
Definition cpuidle_unregister_device (p : percpu_ptr) (i : nat) : M unit :=
  emit (EvUnregisterDevice i);;
  d ← load_dev p i;
  if registered d then
    store_dev p i (with_registered false d);;
    modify_krn (λ k, with_cpuidle_registered (cpuidle_registered k ∖ {[cpu d]}) k)
  else mret tt.

Definition cpuidle_register_driver (pf : platform) : M Z :=
  let r := register_driver_result pf in
  emit (EvRegisterDriver r);;
  when (r =? 0) (modify_krn (with_driver_registered true));;
  mret r.

Definition cpuidle_unregister_driver : M unit :=
  emit EvUnregisterDriver;;
  modify_krn (with_driver_registered false).

Definition cpuid (pf : platform) (leaf : Z) : M (Z * Z * Z * Z) :=
  emit (EvCpuid leaf);;
  mret (cpuid_regs pf leaf).

Definition mark_tsc_unstable : M unit := emit EvMarkTscUnstable.

Definition local_irq_disable : M unit :=
  modify_krn (with_irqs_enabled false);; emit EvIrqDisable.

Definition local_irq_enable : M unit :=
  modify_krn (with_irqs_enabled true);; emit EvIrqEnable.

(** need_resched(): one sample of the flag, which other cores may set at
    any moment. *)
Definition need_resched (pf : platform) : M bool :=
  k ← get_krn;
  let b := need_resched_sample pf (resched_reads k) in
  modify_krn (with_resched_reads (S (resched_reads k)));;
  emit (EvNeedResched b);;
  mret b.

(** ktime_get_real(): one reading of the clock, in nanoseconds. *)
Definition ktime_get_real (pf : platform) : M Z :=
  k ← get_krn;
  let t := ktime_sample pf (clock_reads k) in
  modify_krn (with_clock_reads (S (clock_reads k)));;
  emit (EvKtimeGet t);;
  mret t.

Definition s64 (z : Z) : Z := (z + 2 ^ 63) mod 2 ^ 64 - 2 ^ 63.
Definition ktime_sub (a b : Z) : Z := s64 (a - b).

(** Modelled from the spec: "compute elapsed microseconds".  ktime_to_us()
    is not part of this file; it gives the whole microseconds of a time
    in nanoseconds, rounded down. *)
Definition ktime_to_us (kt : Z) : Z := kt / 1000.

(** for_each_online_cpu *)
Fixpoint for_each {A} (l : list A) (body : A → M unit) : M unit :=
  match l with
  | [] => mret tt
  | x :: rest => body x;; for_each rest body
  end.

(** ** The idle entry routine *)

(** intel_idle(); [state] is the catalog row the caller selected. *)
Definition intel_idle (pf : platform) (state : cpuidle_state) : M Z :=
  let ecx := 1 in
  let eax := u64 (driver_data state) in
  let cpu := smp_processor_id pf in
  let cstate :=
    u32 (Z.land (Z.shiftr eax MWAIT_SUBSTATE_SIZE) MWAIT_CSTATE_MASK + 1) in
  sub ← call_choose_substate (s32 cstate);
  let eax := u64 (eax + sub) in
  local_irq_disable;;
  g ← get_drv;
  when (Z.land (lapic_timer_reliable_states g) (Z.shiftl 1 cstate) =? 0)
    (emit (EvBroadcastEnter cpu));;
  kt_before ← ktime_get_real pf;
  emit EvStopCriticalTimings;;
  when (negb (built_as_module pf))
    (emit (EvTracePowerStart (Z.shiftr eax 4 + 1)));;
  pending ← need_resched pf;
  when (negb pending)
    (emit EvMonitor;;
     emit EvMb;;
     pending ← need_resched pf;
     when (negb pending) (emit (EvMwait eax ecx)));;
  emit EvStartCriticalTimings;;
  kt_after ← ktime_get_real pf;
  let usec_delta := ktime_to_us (ktime_sub kt_after kt_before) in
  local_irq_enable;;
  g ← get_drv;
  when (Z.land (lapic_timer_reliable_states g) (Z.shiftl 1 cstate) =? 0)
    (emit (EvBroadcastExit cpu));;
  mret (s32 usec_delta).

(** ** The capability probe *)

Definition is_nehalem (model : Z) : bool :=
  (model =? 0x1A) || (model =? 0x1E) || (model =? 0x1F) || (model =? 0x2E).
Definition is_westmere (model : Z) : bool :=
  (model =? 0x25) || (model =? 0x2C).
Definition is_atom (model : Z) : bool :=
  (model =? 0x1C) || (model =? 0x26).

(** intel_idle_probe() *)
Definition intel_idle_probe (pf : platform) : M Z :=
  let c := boot_cpu_data pf in
  g ← get_drv;
  if max_cstate g =? 0 then
    pr_debug LogDisabled;;
    mret (- EPERM)
  else if negb (x86_vendor c =? X86_VENDOR_INTEL) then mret (- ENODEV)
  else if negb (has_mwait c) then mret (- ENODEV)
  else if cpuid_level c <? CPUID_MWAIT_LEAF then mret (- ENODEV)
  else
    '(eax, ebx, ecx, edx) ← cpuid pf CPUID_MWAIT_LEAF;
    if (Z.land ecx CPUID5_ECX_EXTENSIONS_SUPPORTED =? 0)
       || (Z.land ecx CPUID5_ECX_INTERRUPT_BREAK =? 0)
    then mret (- ENODEV)
    else
      when (substates g =? 0) (modify_drv (with_substates edx));;
      g ← get_drv;
      pr_debug (LogSubstates (substates g));;
      when (has_arat c)
        (modify_drv (with_lapic_timer_reliable_states 0xFFFFFFFF));;
      if negb (x86 c =? 6) then mret (- ENODEV)
      else
        let model := x86_model c in
        if is_nehalem model || is_westmere model then
          when (is_nehalem model)
            (modify_drv (with_lapic_timer_reliable_states (Z.shiftl 1 1)));;
          modify_drv (with_state_table NehalemTable);;
          modify_drv (with_choose_substate TunablePolicy);;
          pr_debug (LogVersion model);;
          g ← get_drv;
          pr_debug (LogReliableStates (lapic_timer_reliable_states g));;
          mret 0
        else if is_atom model then
          modify_drv (with_lapic_timer_reliable_states
                        (Z.lor (Z.shiftl 1 2) (Z.shiftl 1 1)));;
          modify_drv (with_state_table AtomTable);;
          modify_drv (with_choose_substate ZeroPolicy);;
          pr_debug (LogVersion model);;
          g ← get_drv;
          pr_debug (LogReliableStates (lapic_timer_reliable_states g));;
          mret 0
        else
          pr_debug (LogDoesNotRun (x86 c) model);;
          mret (- ENODEV).

(** ** Per-core devices *)

(** intel_idle_cpuidle_devices_uninit() *)
Definition intel_idle_cpuidle_devices_uninit (pf : platform) : M unit :=
  for_each (online_cpus pf) (λ i,
    g ← get_drv;
    cpuidle_unregister_device (intel_idle_cpuidle_devices g) i);;
  g ← get_drv;
  free_percpu (intel_idle_cpuidle_devices g).

(** The array [cpuidle_state_table] points to. *)
Definition catalog (t : table_ptr) : option (list cpuidle_state) :=
  match t with
  | NoTable => None
  | NehalemTable => Some nehalem_cstates
  | AtomTable => Some atom_cstates
  end.

(** [cpuidle_state_table[cstate]] *)
Definition table_row (t : table_ptr) (cstate : Z) : M cpuidle_state :=
  match catalog t with
  | None => crash NullDeref
  | Some rows =>
    match rows !! Z.to_nat cstate with
    | Some row => mret row
    | None => crash OutOfBounds
    end
  end.

(** The catalog depths the inner loop visits, [1 .. MWAIT_MAX_NUM_CSTATES-1]. *)
Definition cstate_range : list Z := seqZ 1 (MWAIT_MAX_NUM_CSTATES - 1).

(** The inner loop of intel_idle_cpuidle_devices_init(), from depth
    [hd cstates] on; [dev] is [per_cpu_ptr(p, i)]. *)
Fixpoint fill_states (pf : platform) (p : percpu_ptr) (i : nat)
    (cstates : list Z) : M unit :=
  match cstates with
  | [] => mret tt
  | cstate :: rest =>
    g ← get_drv;
    if max_cstate g <? cstate then
      printk (LogMaxCstateReached (max_cstate g))
    else
      let num_substates :=
        Z.land (Z.shiftr (substates g) (cstate * 4)) MWAIT_SUBSTATE_MASK in
      if num_substates =? 0 then fill_states pf p i rest
      else
        row ← table_row (cpuidle_state_table g) cstate;
        match enter row with
        | None =>
          when (bool_decide (name row = ""))
            (pr_debug (LogUnaware (x86_model (boot_cpu_data pf)) cstate));;
          fill_states pf p i rest
        | Some _ =>
          when ((2 <? cstate) && negb (has_nonstop_tsc (boot_cpu_data pf)))
            mark_tsc_unstable;;
          d ← load_dev p i;
          (if bool_decide (state_count d < CPUIDLE_STATE_MAX)%nat then
             store_dev p i (with_states (<[state_count d := row]> (states d)) d)
           else crash OutOfBounds);;
          d ← load_dev p i;
          store_dev p i (with_state_count (state_count d + 1)%nat d);;
          fill_states pf p i rest
        end
  end.

(** The outer loop of intel_idle_cpuidle_devices_init(). *)
Fixpoint init_cpus (pf : platform) (cpus : list nat) : M Z :=
  match cpus with
  | [] => mret 0
  | i :: rest =>
    g ← get_drv;
    let p := intel_idle_cpuidle_devices g in
    d ← load_dev p i;
    store_dev p i (with_state_count 1%nat d);;
    fill_states pf p i cstate_range;;
    d ← load_dev p i;
    store_dev p i (with_cpu i d);;
    r ← cpuidle_register_device pf p i;
    if negb (r =? 0) then
      pr_debug (LogRegisterFailed i);;
      intel_idle_cpuidle_devices_uninit pf;;
      mret (- EIO)
    else init_cpus pf rest
  end.

(** intel_idle_cpuidle_devices_init() *)
Definition intel_idle_cpuidle_devices_init (pf : platform) : M Z :=
  p ← alloc_percpu pf;
  modify_drv (with_devices p);;
  match p with
  | PNull => mret (- ENOMEM)
  | PAddr _ => init_cpus pf (online_cpus pf)
  end.

(** ** Module entry points *)

(** intel_idle_init() *)
Definition intel_idle_init (pf : platform) : M Z :=
  retval ← intel_idle_probe pf;
  if negb (retval =? 0) then mret retval
  else
    retval ← cpuidle_register_driver pf;
    if negb (retval =? 0) then
      printk LogYielding;;
      mret retval
    else
      retval ← intel_idle_cpuidle_devices_init pf;
      if negb (retval =? 0) then
        cpuidle_unregister_driver;;
        mret retval
      else mret 0.

(** intel_idle_exit() *)
Definition intel_idle_exit (pf : platform) : M unit :=
  intel_idle_cpuidle_devices_uninit pf;;
  cpuidle_unregister_driver.

(** * kgdb support for ARM ([arch/arm/kernel/kgdb.c]) *)

(** [struct pt_regs]: the eighteen words of [uregs], by the names the code
    uses for them. *)
Record pt_regs := {
  ARM_r0 : Z; ARM_r1 : Z; ARM_r2 : Z; ARM_r3 : Z; ARM_r4 : Z; ARM_r5 : Z;
  ARM_r6 : Z; ARM_r7 : Z; ARM_r8 : Z; ARM_r9 : Z; ARM_r10 : Z;
  ARM_fp : Z; ARM_ip : Z; ARM_sp : Z; ARM_lr : Z; ARM_pc : Z;
  ARM_cpsr : Z; ARM_ORIG_r0 : Z;
}.

(** The names of the slots of the debugger's register buffer. *)
Inductive gdb_reg :=
| _R0 | _R1 | _R2 | _R3 | _R4 | _R5 | _R6 | _R7 | _R8 | _R9 | _R10
| _FP | _IP | _SPT | _LR | _PC | _CPSR.

#[export] Instance gdb_reg_eq_dec : EqDecision gdb_reg.
Proof. solve_decision. Defined.

(** The constants of [asm/kgdb.h], kept as parameters: the buffer's size,
    the number of slots the newer interface covers, and the slot of each
    name. *)
Record gdb_layout := {
  GDB_MAX_REGS : nat;
  DBG_MAX_REG_NUM : nat;
  gdb_index : gdb_reg → nat;
}.

(** [gdb_regs[i] = v]; a store outside the buffer is an error. *)
Definition write_reg (i : nat) (v : Z) (gdb_regs : list Z)
    : option (list Z) :=
  if decide (i < length gdb_regs)%nat then Some (<[i := v]> gdb_regs)
  else None.

(** [for (regno = from; regno < from + count; regno++) gdb_regs[regno] = 0] *)
Fixpoint zero_regs (from count : nat) (gdb_regs : list Z)
    : option (list Z) :=
  match count with
  | O => Some gdb_regs
  | S count' =>
    gdb_regs ← write_reg from 0 gdb_regs;
    zero_regs (S from) count' gdb_regs
  end.

(** The seventeen assignments [gdb_regs[_Rn] = regs->ARM_rn], in the order
    of the source. *)
Definition reg_values (regs : pt_regs) : list (gdb_reg * Z) :=
  [ (_R0, ARM_r0 regs); (_R1, ARM_r1 regs); (_R2, ARM_r2 regs);
    (_R3, ARM_r3 regs); (_R4, ARM_r4 regs); (_R5, ARM_r5 regs);
    (_R6, ARM_r6 regs); (_R7, ARM_r7 regs); (_R8, ARM_r8 regs);
    (_R9, ARM_r9 regs); (_R10, ARM_r10 regs); (_FP, ARM_fp regs);
    (_IP, ARM_ip regs); (_SPT, ARM_sp regs); (_LR, ARM_lr regs);
    (_PC, ARM_pc regs); (_CPSR, ARM_cpsr regs) ].

Fixpoint write_regs (lay : gdb_layout) (l : list (gdb_reg * Z))
    (gdb_regs : list Z) : option (list Z) :=
  match l with
  | [] => Some gdb_regs
  | (r, v) :: l' =>
    gdb_regs ← write_reg (gdb_index lay r) v gdb_regs;
    write_regs lay l' gdb_regs
  end.

(** pt_regs_to_gdb_regs() *)
Definition pt_regs_to_gdb_regs (lay : gdb_layout) (gdb_regs : list Z)
    (kernel_regs : pt_regs) : option (list Z) :=
  gdb_regs ← zero_regs 0 (GDB_MAX_REGS lay) gdb_regs;
  write_regs lay (reg_values kernel_regs) gdb_regs.

(** gdb_regs_to_pt_regs(); [ARM_ORIG_r0] is not assigned. *)
Definition gdb_regs_to_pt_regs (lay : gdb_layout) (gdb_regs : list Z)
    (kernel_regs : pt_regs) : option pt_regs :=
  r0 ← gdb_regs !! gdb_index lay _R0;
  r1 ← gdb_regs !! gdb_index lay _R1;
  r2 ← gdb_regs !! gdb_index lay _R2;
  r3 ← gdb_regs !! gdb_index lay _R3;
  r4 ← gdb_regs !! gdb_index lay _R4;
  r5 ← gdb_regs !! gdb_index lay _R5;
  r6 ← gdb_regs !! gdb_index lay _R6;
  r7 ← gdb_regs !! gdb_index lay _R7;
  r8 ← gdb_regs !! gdb_index lay _R8;
  r9 ← gdb_regs !! gdb_index lay _R9;
  r10 ← gdb_regs !! gdb_index lay _R10;
  fp ← gdb_regs !! gdb_index lay _FP;
  ip ← gdb_regs !! gdb_index lay _IP;
  sp ← gdb_regs !! gdb_index lay _SPT;
  lr ← gdb_regs !! gdb_index lay _LR;
  pc ← gdb_regs !! gdb_index lay _PC;
  cpsr ← gdb_regs !! gdb_index lay _CPSR;
  Some {| ARM_r0 := r0; ARM_r1 := r1; ARM_r2 := r2; ARM_r3 := r3;
          ARM_r4 := r4; ARM_r5 := r5; ARM_r6 := r6; ARM_r7 := r7;
          ARM_r8 := r8; ARM_r9 := r9; ARM_r10 := r10; ARM_fp := fp;
          ARM_ip := ip; ARM_sp := sp; ARM_lr := lr; ARM_pc := pc;
          ARM_cpsr := cpsr; ARM_ORIG_r0 := ARM_ORIG_r0 kernel_regs |}.

(** sleeping_thread_to_gdb_regs(); [task] is [None] for a null pointer and
    otherwise the registers [task_pt_regs] finds. *)
Definition sleeping_thread_to_gdb_regs (lay : gdb_layout)
    (gdb_regs : list Z) (task : option pt_regs) : option (list Z) :=
  match task with
  | None => Some gdb_regs
  | Some thread_regs =>
    gdb_regs ← zero_regs 0 (DBG_MAX_REG_NUM lay) gdb_regs;
    write_regs lay (reg_values thread_regs) gdb_regs
  end.

(** [regs->ARM_pc = pc] *)
Definition with_ARM_pc (pc : Z) (regs : pt_regs) : pt_regs :=
  {| ARM_r0 := ARM_r0 regs; ARM_r1 := ARM_r1 regs; ARM_r2 := ARM_r2 regs;
     ARM_r3 := ARM_r3 regs; ARM_r4 := ARM_r4 regs; ARM_r5 := ARM_r5 regs;
     ARM_r6 := ARM_r6 regs; ARM_r7 := ARM_r7 regs; ARM_r8 := ARM_r8 regs;
     ARM_r9 := ARM_r9 regs; ARM_r10 := ARM_r10 regs; ARM_fp := ARM_fp regs;
     ARM_ip := ARM_ip regs; ARM_sp := ARM_sp regs; ARM_lr := ARM_lr regs;
     ARM_pc := pc; ARM_cpsr := ARM_cpsr regs;
     ARM_ORIG_r0 := ARM_ORIG_r0 regs |}.

(** kgdb_arch_set_pc() *)
Definition kgdb_arch_set_pc (regs : pt_regs) (pc : Z) : pt_regs :=
  with_ARM_pc pc regs.

(** The static [compiled_break] and the registers the handler is given. *)
Record kgdb_state := {
  compiled_break : Z;
  linux_regs : pt_regs;
}.

(** kgdb_arch_handle_exception(); the packet is the list of its character
    codes, [hex2long] is [kgdb_hex2long] of the debugger core: the number
    of hexadecimal digits it read and their value. On a 32-bit ARM
    [unsigned long] has 32 bits. *)
Definition kgdb_arch_handle_exception (hex2long : list Z → Z * Z)
    (remcom_in_buffer : list Z) (st : kgdb_state) : Z * kgdb_state :=
  let c := hd 0 remcom_in_buffer in
  if (c =? 68) || (c =? 107) || (c =? 99) then
    let ptr := tl remcom_in_buffer in
    let '(digits, addr) := hex2long ptr in
    let regs :=
      if negb (digits =? 0) then with_ARM_pc (u32 addr) (linux_regs st)
      else if compiled_break st =? 1 then
        with_ARM_pc (u32 (ARM_pc (linux_regs st) + 4)) (linux_regs st)
      else linux_regs st in
    (0, {| compiled_break := 0; linux_regs := regs |})
  else (-1, st).

(** kgdb_brk_fn() and kgdb_compiled_brk_fn(); [handle] is
    [kgdb_handle_exception] of the debugger core. *)
Definition kgdb_brk_fn (handle : kgdb_state → kgdb_state) (st : kgdb_state)
    : Z * kgdb_state :=
  (0, handle st).

Definition kgdb_compiled_brk_fn (handle : kgdb_state → kgdb_state)
    (st : kgdb_state) : Z * kgdb_state :=
  (0, handle {| compiled_break := 1; linux_regs := linux_regs st |}).


(** * Vocabulary of the properties, and concrete machines *)

(** The packed substate count the Tunable policy reads for a depth:
    [(substates >> (cstate & 7) * 4) & MWAIT_SUBSTATE_MASK]. *)
Definition substate_count (g : globals) (cstate : Z) : Z :=
  Z.land (Z.shiftr (substates g) (Z.land cstate 7 * 4)) MWAIT_SUBSTATE_MASK.

(** The design document's scenario: counts 2, 1, 4 at depths 1 to 3. *)
Definition scenario_world : world :=
  {| drv := with_substates 0x4120 initial_globals; krn := initial_kernel |}.

(** The world after the in-place clamp [power_policy &= 0xF]. *)
Definition clamp_power_policy (w : world) : world :=
  {| drv := with_power_policy (Z.land (power_policy (drv w)) 0xF) (drv w);
     krn := krn w |}.

(** A world whose [power_policy] was set outside [0,15] through the module
    parameter. *)
Definition out_of_range_world : world :=
  {| drv := with_power_policy 16 initial_globals; krn := initial_kernel |}.

(** The world with one more call on its trace. *)
Definition log_event (e : event) (w : world) : world :=
  {| drv := drv w; krn := with_trace (trace (krn w) ++ [e]) (krn w) |}.

Definition cpuid5_ecx (pf : platform) : Z :=
  let '(_, _, ecx, _) := cpuid_regs pf CPUID_MWAIT_LEAF in ecx.
Definition cpuid5_edx (pf : platform) : Z :=
  let '(_, _, _, edx) := cpuid_regs pf CPUID_MWAIT_LEAF in edx.

(** Concrete machines. *)
Definition intel_cpu (family model : Z) (arat : bool) : cpuinfo_x86 :=
  {| x86_vendor := X86_VENDOR_INTEL; x86 := family; x86_model := model;
     cpuid_level := 11; has_mwait := true; has_arat := arat;
     has_nonstop_tsc := true |}.

(** A processor of another vendor (vendor id 2). *)
Definition other_vendor_cpu : cpuinfo_x86 :=
  {| x86_vendor := 2; x86 := 16; x86_model := 4; cpuid_level := 5;
     has_mwait := true; has_arat := false; has_nonstop_tsc := true |}.

(** A machine around a processor: CPUID leaf 5 answers [ecx] and [edx],
    the cores [cpus] are online, registering a device answers [reg]. *)
Definition machine (c : cpuinfo_x86) (ecx edx : Z) (cpus : list nat)
    (reg : nat → Z) : platform :=
  {| boot_cpu_data := c;
     cpuid_regs := λ _, (0x40, 0x40, ecx, edx);
     online_cpus := cpus;
     smp_processor_id := 0%nat;
     built_as_module := false;
     alloc_percpu_ok := true;
     register_driver_result := 0;
     register_device_result := reg;
     need_resched_sample := λ _, false;
     ktime_sample := λ n, 5000 * Z.of_nat n |}.

Definition disabled_world : world :=
  {| drv := with_max_cstate 0 initial_globals; krn := initial_kernel |}.

(** The probe once the five admission checks have passed. *)
Definition admitted (pf : platform) (w : world) : Prop :=
  let c := boot_cpu_data pf in
  max_cstate (drv w) ≠ 0
  ∧ x86_vendor c = X86_VENDOR_INTEL
  ∧ has_mwait c = true
  ∧ CPUID_MWAIT_LEAF ≤ cpuid_level c
  ∧ Z.land (cpuid5_ecx pf) CPUID5_ECX_EXTENSIONS_SUPPORTED ≠ 0
  ∧ Z.land (cpuid5_ecx pf) CPUID5_ECX_INTERRUPT_BREAK ≠ 0.

(** The statics after lines 283 to 291: [substates] taken from CPUID
    unless already set, the mask set to all ones with ARAT. *)
Definition after_feature_writes (pf : platform) (g : globals) : globals :=
  with_lapic_timer_reliable_states
    (if has_arat (boot_cpu_data pf) then 0xFFFFFFFF
     else lapic_timer_reliable_states g)
    (with_substates
       (if substates g =? 0 then cpuid5_edx pf else substates g) g).

(** The calls of one [intel_idle], in three stretches: up to the first
    look at the reschedule flag, the guarded wait, and the way out. *)
Definition idle_entry_events (pf : platform) (unreliable : bool) (t0 eax : Z)
    : list event :=
  [EvIrqDisable]
  ++ (if unreliable then [EvBroadcastEnter (smp_processor_id pf)] else [])
  ++ [EvKtimeGet t0; EvStopCriticalTimings]
  ++ (if built_as_module pf then []
      else [EvTracePowerStart (Z.shiftr eax 4 + 1)]).

Definition idle_wait_events (b1 b2 : bool) (eax : Z) : list event :=
  EvNeedResched b1
  :: (if b1 then []
      else [EvMonitor; EvMb; EvNeedResched b2]
           ++ (if b2 then [] else [EvMwait eax 1])).

Definition idle_exit_events (pf : platform) (unreliable : bool) (t1 : Z)
    : list event :=
  [EvStartCriticalTimings; EvKtimeGet t1; EvIrqEnable]
  ++ (if unreliable then [EvBroadcastExit (smp_processor_id pf)] else []).

(** The depth [intel_idle] derives from a catalog row. *)
Definition idle_cstate (state : cpuidle_state) : Z :=
  u32 (Z.land (Z.shiftr (u64 (driver_data state)) MWAIT_SUBSTATE_SIZE)
         MWAIT_CSTATE_MASK + 1).

(** A world given field by field. *)
Definition World (g : globals) (h : gmap nat percpu_block) (reg : gset nat)
    (dr irq : bool) (rr cr : nat) (tr : list event) : world :=
  {| drv := g;
     krn := {| heap := h; cpuidle_registered := reg; driver_registered := dr;
               irqs_enabled := irq; resched_reads := rr; clock_reads := cr;
               trace := tr |} |}.

(** The statics a successful probe leaves on a Westmere with ARAT. *)
Definition westmere_world : world :=
  {| drv := with_choose_substate TunablePolicy
              (with_state_table NehalemTable
                 (with_lapic_timer_reliable_states 0xFFFFFFFF
                    (with_substates 0x1120 initial_globals)));
     krn := initial_kernel |}.

(** The same machine at a moment when a reschedule is pending. *)
Definition with_pending (pf : platform) : platform :=
  {| boot_cpu_data := boot_cpu_data pf;
     cpuid_regs := cpuid_regs pf;
     online_cpus := online_cpus pf;
     smp_processor_id := smp_processor_id pf;
     built_as_module := built_as_module pf;
     alloc_percpu_ok := alloc_percpu_ok pf;
     register_driver_result := register_driver_result pf;
     register_device_result := register_device_result pf;
     need_resched_sample := λ _, true;
     ktime_sample := ktime_sample pf |}.

(** What the inner loop of device initialisation leaves: the device [d]
    of core [i] in block [a] became [d'], with the catalog rows of the
    depths [idxs], taken from [cstates], appended. *)
Definition states_filled (rows : list cpuidle_state) (cstates : list Z)
    (a i : nat) (devs : gmap nat cpuidle_device) (d : cpuidle_device)
    (g : globals) (h : gmap nat percpu_block) (reg : gset nat)
    (dr irq : bool) (rr cr : nat) (o : outcome unit) : Prop :=
  ∃ d' tr' idxs,
    o = Done tt (World g (<[a := Live (<[i := d']> devs)]> h)
                   reg dr irq rr cr tr')
    ∧ registered d' = registered d ∧ cpu d' = cpu d
    ∧ length (states d') = CPUIDLE_STATE_MAX
    ∧ state_count d' = (state_count d + length idxs)%nat
    ∧ (∀ m, (m < state_count d)%nat → states d' !! m = states d !! m)
    ∧ (∀ k idx, idxs !! k = Some idx →
         ∃ row, rows !! Z.to_nat idx = Some row ∧ enter row ≠ None
           ∧ states d' !! (state_count d + k)%nat = Some row)
    ∧ Forall (λ idx, idx ∈ cstates) idxs
    ∧ StronglySorted Z.lt idxs.

(** Every device of a block has a full [states] array. *)
Definition block_wf (devs : gmap nat cpuidle_device) : Prop :=
  ∀ j d, devs !! j = Some d → length (states d) = CPUIDLE_STATE_MAX.

(** The devices of the cores [cpus] agree with the framework's registry:
    a device marked registered carries its own core's number, and a
    registered core has its device marked. *)
Definition devices_consistent (cpus : list nat)
    (devs : gmap nat cpuidle_device) (reg : gset nat) : Prop :=
  ∀ j, j ∈ cpus →
    (registered (dev_of devs j) = true → cpu (dev_of devs j) = j)
    ∧ (j ∈ reg → registered (dev_of devs j) = true).

(** The catalog depths whose rows a device holds from slot 1 on. *)
Definition rows_copied (rows : list cpuidle_state) (d : cpuidle_device)
    (idxs : list Z) : Prop :=
  state_count d = (1 + length idxs)%nat
  ∧ ∀ k idx, idxs !! k = Some idx →
      ∃ row, rows !! Z.to_nat idx = Some row ∧ enter row ≠ None
        ∧ states d !! (1 + k)%nat = Some row.

(** A device as initialisation leaves it for core [i]. *)
Definition device_built (rows : list cpuidle_state) (d : cpuidle_device)
    (i : nat) : Prop :=
  registered d = true ∧ cpu d = i
  ∧ ∃ idxs, StronglySorted Z.lt idxs
      ∧ Forall (λ idx, idx ∈ cstate_range) idxs
      ∧ rows_copied rows d idxs.

(** What the outer loop of device initialisation leaves, started on the
    cores [cpus] with the devices [devs] and the registry [reg]. *)
Definition init_cpus_post (pf : platform) (a : nat)
    (rows : list cpuidle_state) (cpus : list nat)
    (devs : gmap nat cpuidle_device) (g : globals)
    (h : gmap nat percpu_block) (reg : gset nat) (dr irq : bool)
    (rr cr : nat) (o : outcome Z) : Prop :=
  ∃ r h' reg' tr',
    o = Done r (World g h' reg' dr irq rr cr tr')
    ∧ ((r = 0
        ∧ Forall (λ j, register_device_result pf j = 0) cpus
        ∧ ∃ devs', h' = <[a := Live devs']> h
            ∧ block_wf devs'
            ∧ devices_consistent (online_cpus pf) devs' reg'
            ∧ reg' = list_to_set cpus ∪ reg
            ∧ (∀ j, j ∈ cpus → device_built rows (dev_of devs' j) j)
            ∧ (∀ j, j ∉ cpus → devs' !! j = devs !! j))
       ∨ (r = - EIO
          ∧ Exists (λ j, register_device_result pf j ≠ 0) cpus
          ∧ h' !! a = Some Freed
          ∧ (∀ b, b ≠ a → h' !! b = h !! b)
          ∧ ∀ x, x ∈ reg' ↔ x ∈ reg ∧ x ∉ online_cpus pf)).

(** Four cores, of which core 2 cannot be registered. *)
Definition four_cores_one_failing : platform :=
  machine (intel_cpu 6 0x25 true) 3 0x1120 [0; 1; 2; 3]%nat
    (λ c, if (c =? 2)%nat then - 16 else 0).

(** The world a computation ends in. *)
Definition world_of {A} (o : outcome A) : world :=
  match o with Done _ w | Crash _ w => w end.

Definition four_cores : platform :=
  machine (intel_cpu 6 0x25 true) 3 0x1120 [0; 1; 2; 3]%nat (λ _, 0).

Definition one_core : platform :=
  machine (intel_cpu 6 0x25 true) 3 0x1120 [0%nat] (λ _, 0).

(** The world after a successful [intel_idle_init] on one core. *)
Definition installed_world : world :=
  world_of (intel_idle_init one_core initial_world).

Definition installed_devs : gmap nat cpuidle_device :=
  match heap (krn installed_world) !! 0%nat with
  | Some (Live devs) => devs
  | _ => ∅
  end.

(** The models the probe has a catalog for. *)
Definition known_model (model : Z) : bool :=
  is_nehalem model || is_westmere model || is_atom model.

(** A machine the driver supports. *)
Definition supported (pf : platform) (w : world) : Prop :=
  admitted pf w
  ∧ x86 (boot_cpu_data pf) = 6
  ∧ known_model (x86_model (boot_cpu_data pf)) = true.

(** The same machine when the per-cpu allocator has no memory left. *)
Definition without_memory (pf : platform) : platform :=
  {| boot_cpu_data := boot_cpu_data pf;
     cpuid_regs := cpuid_regs pf;
     online_cpus := online_cpus pf;
     smp_processor_id := smp_processor_id pf;
     built_as_module := built_as_module pf;
     alloc_percpu_ok := false;
     register_driver_result := register_driver_result pf;
     register_device_result := register_device_result pf;
     need_resched_sample := need_resched_sample pf;
     ktime_sample := ktime_sample pf |}.

(** The same machine when the cpuidle core answers [r] to the
    registration of the driver. *)
Definition with_driver_result (r : Z) (pf : platform) : platform :=
  {| boot_cpu_data := boot_cpu_data pf;
     cpuid_regs := cpuid_regs pf;
     online_cpus := online_cpus pf;
     smp_processor_id := smp_processor_id pf;
     built_as_module := built_as_module pf;
     alloc_percpu_ok := alloc_percpu_ok pf;
     register_driver_result := r;
     register_device_result := register_device_result pf;
     need_resched_sample := need_resched_sample pf;
     ktime_sample := ktime_sample pf |}.

(** The row of the Nehalem catalog at depth [idx]. *)
Definition nehalem_row (idx : nat) : cpuidle_state :=
  default empty_state (nehalem_cstates !! idx).

(** A world that differs in [power_policy] only. *)
Definition with_policy_value (v : Z) (w : world) : world :=
  {| drv := with_power_policy v (drv w); krn := krn w |}.

(** A depth the inner loop of device initialisation copies: within
    [max_cstate], listed by the hardware, and enabled in the catalog. *)
Definition usable (g : globals) (rows : list cpuidle_state) (c : Z) : bool :=
  (c <=? max_cstate g)
  && negb (Z.land (Z.shiftr (substates g) (c * 4)) MWAIT_SUBSTATE_MASK =? 0)
  && match rows !! Z.to_nat c with
     | Some row => bool_decide (enter row ≠ None)
     | None => false
     end.

Definition usable_cstates (g : globals) (rows : list cpuidle_state)
    : list Z :=
  List.filter (usable g rows) cstate_range.

(** What the inner loop leaves when the depths it copies are named. *)
Definition states_filled_exact (rows : list cpuidle_state) (idxs : list Z)
    (a i : nat) (devs : gmap nat cpuidle_device) (d : cpuidle_device)
    (g : globals) (h : gmap nat percpu_block) (reg : gset nat)
    (dr irq : bool) (rr cr : nat) (o : outcome unit) : Prop :=
  ∃ d' tr',
    o = Done tt (World g (<[a := Live (<[i := d']> devs)]> h)
                   reg dr irq rr cr tr')
    ∧ registered d' = registered d ∧ cpu d' = cpu d
    ∧ length (states d') = CPUIDLE_STATE_MAX
    ∧ state_count d' = (state_count d + length idxs)%nat
    ∧ (∀ m, (m < state_count d)%nat → states d' !! m = states d !! m)
    ∧ (∀ k idx, idxs !! k = Some idx →
         ∃ row, rows !! Z.to_nat idx = Some row ∧ enter row ≠ None
           ∧ states d' !! (state_count d + k)%nat = Some row).

(** Slot 0 of every device of a block is the zeroed placeholder. *)
Definition block_placeholders (devs : gmap nat cpuidle_device) : Prop :=
  ∀ j d, devs !! j = Some d → states d !! 0%nat = Some empty_state.

(** A registered device of core [i] holding the placeholder and then
    exactly the usable catalog rows. *)
Definition device_exact (g : globals) (rows : list cpuidle_state)
    (d : cpuidle_device) (i : nat) : Prop :=
  registered d = true ∧ cpu d = i
  ∧ states d !! 0%nat = Some empty_state
  ∧ rows_copied rows d (usable_cstates g rows).

(** A world whose [max_cstate] parameter was given as -1. *)
Definition negative_depth_world : world :=
  {| drv := with_max_cstate (-1) (drv westmere_world);
     krn := krn westmere_world |}.

(** The statics a successful probe leaves on a Nehalem: only depth 1
    keeps the local timer running. *)
Definition nehalem_world : world :=
  {| drv := with_choose_substate TunablePolicy
              (with_state_table NehalemTable
                 (with_lapic_timer_reliable_states 2
                    (with_substates 0x1120 initial_globals)));
     krn := initial_kernel |}.

(** A machine whose core sleeps for an hour between the two clock
    readings of [intel_idle]. *)
Definition long_sleep : platform :=
  {| boot_cpu_data := intel_cpu 6 0x25 true;
     cpuid_regs := λ _, (0x40, 0x40, 3, 0x1120);
     online_cpus := [0%nat];
     smp_processor_id := 0%nat;
     built_as_module := false;
     alloc_percpu_ok := true;
     register_driver_result := 0;
     register_device_result := λ _, 0;
     need_resched_sample := λ _, false;
     ktime_sample := λ n, 3600000000000 * Z.of_nat n |}.

(** ** Vocabulary for kgdb *)

(** A usable layout: distinct names have distinct slots, all inside the
    buffer, and the newer interface covers no more than the buffer. *)
Definition layout_ok (lay : gdb_layout) : Prop :=
  (∀ r r', gdb_index lay r = gdb_index lay r' → r = r')
  ∧ (∀ r, (gdb_index lay r < GDB_MAX_REGS lay)%nat)
  ∧ (DBG_MAX_REG_NUM lay ≤ GDB_MAX_REGS lay)%nat.

(** A layout to try things on: sixteen core registers first, the status
    register in the last of 42 slots, 26 slots in the newer interface. *)
Definition arm_layout : gdb_layout :=
  {| GDB_MAX_REGS := 42; DBG_MAX_REG_NUM := 26;
     gdb_index := λ r,
       match r with
       | _R0 => 0 | _R1 => 1 | _R2 => 2 | _R3 => 3 | _R4 => 4 | _R5 => 5
       | _R6 => 6 | _R7 => 7 | _R8 => 8 | _R9 => 9 | _R10 => 10
       | _FP => 11 | _IP => 12 | _SPT => 13 | _LR => 14 | _PC => 15
       | _CPSR => 41
       end%nat |}.

Definition with_ORIG_r0 (v : Z) (regs : pt_regs) : pt_regs :=
  {| ARM_r0 := ARM_r0 regs; ARM_r1 := ARM_r1 regs; ARM_r2 := ARM_r2 regs;
     ARM_r3 := ARM_r3 regs; ARM_r4 := ARM_r4 regs; ARM_r5 := ARM_r5 regs;
     ARM_r6 := ARM_r6 regs; ARM_r7 := ARM_r7 regs; ARM_r8 := ARM_r8 regs;
     ARM_r9 := ARM_r9 regs; ARM_r10 := ARM_r10 regs; ARM_fp := ARM_fp regs;
     ARM_ip := ARM_ip regs; ARM_sp := ARM_sp regs; ARM_lr := ARM_lr regs;
     ARM_pc := ARM_pc regs; ARM_cpsr := ARM_cpsr regs;
     ARM_ORIG_r0 := v |}.

(** The kernel register a slot name stands for. *)
Definition kernel_reg (regs : pt_regs) (r : gdb_reg) : Z :=
  match r with
  | _R0 => ARM_r0 regs | _R1 => ARM_r1 regs | _R2 => ARM_r2 regs
  | _R3 => ARM_r3 regs | _R4 => ARM_r4 regs | _R5 => ARM_r5 regs
  | _R6 => ARM_r6 regs | _R7 => ARM_r7 regs | _R8 => ARM_r8 regs
  | _R9 => ARM_r9 regs | _R10 => ARM_r10 regs | _FP => ARM_fp regs
  | _IP => ARM_ip regs | _SPT => ARM_sp regs | _LR => ARM_lr regs
  | _PC => ARM_pc regs | _CPSR => ARM_cpsr regs
  end.

(** Registers, a buffer and a debugger state to try things on. *)
Definition sample_regs : pt_regs :=
  {| ARM_r0 := 10; ARM_r1 := 11; ARM_r2 := 12; ARM_r3 := 13; ARM_r4 := 14;
     ARM_r5 := 15; ARM_r6 := 16; ARM_r7 := 17; ARM_r8 := 18; ARM_r9 := 19;
     ARM_r10 := 20; ARM_fp := 21; ARM_ip := 22; ARM_sp := 23; ARM_lr := 24;
     ARM_pc := 0xC0008000; ARM_cpsr := 0x13; ARM_ORIG_r0 := 99 |}.

Definition stale_buffer : list Z := replicate 42 0xDEAD.

Definition at_breakpoint : kgdb_state :=
  {| compiled_break := 0; linux_regs := sample_regs |}.

(** [kgdb_hex2long] on a packet that carries no address. *)
Definition no_address (ptr : list Z) : Z * Z := (0, 0).

(** * Properties

    ** Substate selection *)

Lemma land_0xF_range (z : Z) : 0 ≤ Z.land z 0xF ≤ 15.
Proof.
  change (Z.land z 0xF) with (Z.land z (Z.ones 4)).
  rewrite Z.land_ones by lia.
  change (2 ^ 4) with 16. pose proof (Z.mod_pos_bound z 16). lia.
Qed.

Lemma land_0xF_id (z : Z) : 0 ≤ z ≤ 15 → Z.land z 0xF = z.
Proof.
  intros H. change (Z.land z 0xF) with (Z.land z (Z.ones 4)).
  rewrite Z.land_ones by lia.
  change (2 ^ 4) with 16. apply Z.mod_small. lia.
Qed.

Lemma substate_count_range g cstate : 0 ≤ substate_count g cstate ≤ 15.
Proof. apply land_0xF_range. Qed.

Lemma u32_small z : 0 ≤ z < 2 ^ 32 → u32 z = z.
Proof. intros H. apply Z.mod_small. exact H. Qed.

Lemma two_pow_values : 2 ^ 31 = 2147483648 ∧ 2 ^ 32 = 4294967296.
Proof. split; reflexivity. Qed.

Lemma s32_small z : 0 ≤ z < 2 ^ 31 → s32 z = z.
Proof.
  intros H. unfold s32. destruct two_pow_values as [E31 E32].
  rewrite E31, E32 in *. rewrite Z.mod_small; lia.
Qed.

Lemma tunable_formula_unwrapped pp c :
  0 ≤ pp ≤ 15 → 1 ≤ c ≤ 16 →
  s32 (u32 (u32 pp + u32 (u32 (pp + 1) * u32 (c - 1))) / 16)
  = (pp + (pp + 1) * (c - 1)) / 16.
Proof.
  intros Hpp Hc. destruct two_pow_values as [E31 E32].
  assert (0 ≤ (pp + 1) * (c - 1) ≤ 240) by nia.
  rewrite (u32_small pp), (u32_small (pp + 1)), (u32_small (c - 1)) by lia.
  rewrite (u32_small ((pp + 1) * (c - 1))) by lia.
  rewrite u32_small by lia.
  apply s32_small.
  split; [apply Z.div_pos; lia|].
  apply Z.div_lt_upper_bound; lia.
Qed.

Lemma tunable_formula_range pp c :
  0 ≤ pp ≤ 15 → 1 ≤ c ≤ 16 → 0 ≤ (pp + (pp + 1) * (c - 1)) / 16 ≤ c - 1.
Proof.
  intros Hpp Hc. split.
  - apply Z.div_pos; nia.
  - assert ((pp + (pp + 1) * (c - 1)) / 16 < c); [|lia].
    apply Z.div_lt_upper_bound; nia.
Qed.

(** Unfold the monad's plumbing. *)
Ltac mrun :=
  unfold mbind, M_bind, mret, M_ret, get_drv, get_krn, modify_drv,
    modify_krn, crash; simpl.

(** C4: with [power_policy] in [0,15] and a substate count [c] in [1,16]
    for the requested depth, [choose_tunable_substate] returns a value in
    [0, c-1]: [(power_policy + (power_policy+1)*(c-1)) / 16] when [c > 1]
    and [0] when [c <= 1]. *)
Theorem choose_tunable_substate_in_range (w : world) (cstate : Z) :
  let pp := power_policy (drv w) in
  let c := substate_count (drv w) cstate in
  0 ≤ pp ≤ 15 → 1 ≤ c ≤ 16 →
  ∃ r w', choose_tunable_substate cstate w = Done r w'
    ∧ 0 ≤ r ≤ c - 1
    ∧ r = (if 1 <? c then (pp + (pp + 1) * (c - 1)) / 16 else 0).
Proof.
  intros pp c Hpp Hc. unfold choose_tunable_substate. mrun.
  fold pp. rewrite (land_0xF_id pp Hpp).
  change (Z.land (Z.shiftr (substates (drv w)) (Z.land cstate 7 * 4))
            MWAIT_SUBSTATE_MASK) with c.
  destruct (Z.leb_spec c 1) as [Hle|Hgt].
  - eexists _, _. split; [reflexivity|].
    destruct (Z.ltb_spec 1 c); lia.
  - eexists _, _. split; [reflexivity|].
    rewrite tunable_formula_unwrapped by lia.
    destruct (Z.ltb_spec 1 c); [|lia].
    split; [apply tunable_formula_range; lia | reflexivity].
Qed.

Lemma choose_tunable_substate_in_range_witness :
  ∃ r w', choose_tunable_substate 3 scenario_world = Done r w'
    ∧ 0 ≤ r ≤ 4 - 1
    ∧ r = (if 1 <? 4 then (7 + (7 + 1) * (4 - 1)) / 16 else 0).
Proof.
  apply (choose_tunable_substate_in_range scenario_world 3).
  - simpl. lia.
  - change (1 ≤ 4 ≤ 16). lia.
Defined.

Lemma clamp_power_policy_id (w : world) :
  0 ≤ power_policy (drv w) ≤ 15 → clamp_power_policy w = w.
Proof.
  intros H. unfold clamp_power_policy. rewrite (land_0xF_id _ H).
  destruct w as [[] ?]; reflexivity.
Qed.

(** C8, as the code has it: [choose_tunable_substate] returns a value that
    depends only on the depth, [power_policy] and [substates]; the only
    state it writes is [power_policy], which it replaces by its low four
    bits, so a [power_policy] already in [0,15] leaves the state as it
    was. *)
Theorem choose_tunable_substate_effect (w1 w2 : world) (cstate : Z) :
  power_policy (drv w1) = power_policy (drv w2) →
  substates (drv w1) = substates (drv w2) →
  ∃ r, choose_tunable_substate cstate w1 = Done r (clamp_power_policy w1)
     ∧ choose_tunable_substate cstate w2 = Done r (clamp_power_policy w2)
     ∧ (0 ≤ power_policy (drv w1) ≤ 15 → clamp_power_policy w1 = w1).
Proof.
  intros Hpp Hsub.
  assert (Hid := clamp_power_policy_id w1).
  destruct w1 as [[] ?], w2 as [[] ?]. simpl in Hpp, Hsub. subst.
  unfold choose_tunable_substate. mrun.
  destruct (_ <=? 1); eexists; (split; [reflexivity|]);
    (split; [reflexivity|]); exact Hid.
Qed.

Lemma choose_tunable_substate_effect_witness :
  let w2 := log_event EvMb scenario_world in
  ∃ r, choose_tunable_substate 3 scenario_world
         = Done r (clamp_power_policy scenario_world)
     ∧ choose_tunable_substate 3 w2 = Done r (clamp_power_policy w2)
     ∧ (0 ≤ power_policy (drv scenario_world) ≤ 15 →
        clamp_power_policy scenario_world = scenario_world).
Proof.
  apply (choose_tunable_substate_effect scenario_world
           (log_event EvMb scenario_world) 3); reflexivity.
Defined.

(** C8 as stated fails: the call overwrites [power_policy]. *)
Lemma choose_tunable_substate_writes_power_policy :
  ∃ r w', choose_tunable_substate 1 out_of_range_world = Done r w'
    ∧ power_policy (drv out_of_range_world) = 16
    ∧ power_policy (drv w') = 0
    ∧ w' ≠ out_of_range_world.
Proof.
  exists 0, (clamp_power_policy out_of_range_world).
  split; [reflexivity|].
  split; [reflexivity|]. split; [reflexivity|].
  intros E. apply (f_equal (λ w, power_policy (drv w))) in E. discriminate E.
Qed.

(** ** The capability probe *)

(** The admission checks of the probe, one by one. *)
Lemma intel_idle_probe_disabled (pf : platform) (w : world) :
  max_cstate (drv w) = 0 →
  intel_idle_probe pf w = Done (- EPERM) (log_event (EvLog LogDisabled) w).
Proof.
  intros Hmax. unfold intel_idle_probe. mrun. rewrite Hmax. reflexivity.
Qed.

Lemma intel_idle_probe_other_vendor (pf : platform) (w : world) :
  max_cstate (drv w) ≠ 0 →
  x86_vendor (boot_cpu_data pf) ≠ X86_VENDOR_INTEL →
  intel_idle_probe pf w = Done (- ENODEV) w.
Proof.
  intros Hmax Hv. unfold intel_idle_probe. mrun.
  apply Z.eqb_neq in Hmax, Hv. rewrite Hmax, Hv. reflexivity.
Qed.

Lemma intel_idle_probe_no_mwait (pf : platform) (w : world) :
  max_cstate (drv w) ≠ 0 →
  x86_vendor (boot_cpu_data pf) = X86_VENDOR_INTEL →
  has_mwait (boot_cpu_data pf) = false →
  intel_idle_probe pf w = Done (- ENODEV) w.
Proof.
  intros Hmax Hv Hm. unfold intel_idle_probe. mrun.
  apply Z.eqb_neq in Hmax. apply Z.eqb_eq in Hv.
  rewrite Hmax, Hv, Hm. reflexivity.
Qed.

Lemma intel_idle_probe_no_leaf (pf : platform) (w : world) :
  max_cstate (drv w) ≠ 0 →
  x86_vendor (boot_cpu_data pf) = X86_VENDOR_INTEL →
  has_mwait (boot_cpu_data pf) = true →
  cpuid_level (boot_cpu_data pf) < CPUID_MWAIT_LEAF →
  intel_idle_probe pf w = Done (- ENODEV) w.
Proof.
  intros Hmax Hv Hm Hl. unfold intel_idle_probe. mrun.
  apply Z.eqb_neq in Hmax. apply Z.eqb_eq in Hv. apply Z.ltb_lt in Hl.
  rewrite Hmax, Hv, Hm, Hl. reflexivity.
Qed.

Lemma intel_idle_probe_no_extensions (pf : platform) (w : world) :
  max_cstate (drv w) ≠ 0 →
  x86_vendor (boot_cpu_data pf) = X86_VENDOR_INTEL →
  has_mwait (boot_cpu_data pf) = true →
  CPUID_MWAIT_LEAF ≤ cpuid_level (boot_cpu_data pf) →
  Z.land (cpuid5_ecx pf) CPUID5_ECX_EXTENSIONS_SUPPORTED = 0
    ∨ Z.land (cpuid5_ecx pf) CPUID5_ECX_INTERRUPT_BREAK = 0 →
  intel_idle_probe pf w
  = Done (- ENODEV) (log_event (EvCpuid CPUID_MWAIT_LEAF) w).
Proof.
  intros Hmax Hv Hm Hl He. unfold intel_idle_probe. mrun.
  apply Z.eqb_neq in Hmax. apply Z.eqb_eq in Hv. apply Z.ltb_ge in Hl.
  rewrite Hmax, Hv, Hm, Hl. simpl.
  unfold cpuid, cpuid5_ecx in *. mrun.
  destruct (cpuid_regs pf CPUID_MWAIT_LEAF) as [[[eax ebx] ecx] edx].
  destruct He as [He|He]; rewrite He; simpl; [reflexivity|].
  rewrite orb_true_r. reflexivity.
Qed.

(** C7: the probe's admission checks run in the stated order and stop at
    the first that fails: a zero [max_cstate] gives [-EPERM] whatever the
    hardware is; then a vendor mismatch, missing MWAIT, a missing CPUID
    leaf 5 and missing extension bits give [-ENODEV], each only when the
    earlier checks passed.  CPUID is queried only for the last check. *)
Theorem intel_idle_probe_admission_order (pf : platform) (w : world) :
  let c := boot_cpu_data pf in
  (max_cstate (drv w) = 0 →
     intel_idle_probe pf w = Done (- EPERM) (log_event (EvLog LogDisabled) w))
  ∧ (max_cstate (drv w) ≠ 0 → x86_vendor c ≠ X86_VENDOR_INTEL →
     intel_idle_probe pf w = Done (- ENODEV) w)
  ∧ (max_cstate (drv w) ≠ 0 → x86_vendor c = X86_VENDOR_INTEL →
     has_mwait c = false →
     intel_idle_probe pf w = Done (- ENODEV) w)
  ∧ (max_cstate (drv w) ≠ 0 → x86_vendor c = X86_VENDOR_INTEL →
     has_mwait c = true → cpuid_level c < CPUID_MWAIT_LEAF →
     intel_idle_probe pf w = Done (- ENODEV) w)
  ∧ (max_cstate (drv w) ≠ 0 → x86_vendor c = X86_VENDOR_INTEL →
     has_mwait c = true → CPUID_MWAIT_LEAF ≤ cpuid_level c →
     Z.land (cpuid5_ecx pf) CPUID5_ECX_EXTENSIONS_SUPPORTED = 0
       ∨ Z.land (cpuid5_ecx pf) CPUID5_ECX_INTERRUPT_BREAK = 0 →
     intel_idle_probe pf w
       = Done (- ENODEV) (log_event (EvCpuid CPUID_MWAIT_LEAF) w)).
Proof.
  intros c. split_and!.
  - apply intel_idle_probe_disabled.
  - apply intel_idle_probe_other_vendor.
  - apply intel_idle_probe_no_mwait.
  - apply intel_idle_probe_no_leaf.
  - apply intel_idle_probe_no_extensions.
Qed.

Lemma intel_idle_probe_admission_order_witness :
  intel_idle_probe (machine (intel_cpu 6 0x25 true) 3 0x1120 [0%nat] (λ _, 0))
      disabled_world
    = Done (- EPERM) (log_event (EvLog LogDisabled) disabled_world)
  ∧ intel_idle_probe (machine other_vendor_cpu 3 0x1120 [0%nat] (λ _, 0))
      initial_world
    = Done (- ENODEV) initial_world
  ∧ intel_idle_probe (machine (intel_cpu 6 0x25 true) 1 0x1120 [0%nat] (λ _, 0))
      initial_world
    = Done (- ENODEV) (log_event (EvCpuid CPUID_MWAIT_LEAF) initial_world).
Proof.
  split; [|split].
  - destruct (intel_idle_probe_admission_order
                (machine (intel_cpu 6 0x25 true) 3 0x1120 [0%nat] (λ _, 0))
                disabled_world) as (H & _).
    apply H. reflexivity.
  - destruct (intel_idle_probe_admission_order
                (machine other_vendor_cpu 3 0x1120 [0%nat] (λ _, 0))
                initial_world) as (_ & H & _).
    apply H; discriminate.
  - destruct (intel_idle_probe_admission_order
                (machine (intel_cpu 6 0x25 true) 1 0x1120 [0%nat] (λ _, 0))
                initial_world) as (_ & _ & _ & _ & H).
    apply H; [discriminate | reflexivity | reflexivity | | right; reflexivity].
    simpl. unfold CPUID_MWAIT_LEAF. lia.
Defined.

(** C9: on a processor of another vendor the probe of an enabled driver
    fails with [-ENODEV] and changes nothing: no table and no policy is
    selected.  [intel_idle_init] returns the same error in the same world,
    so device initialisation is not invoked: nothing is allocated,
    nothing is registered and no call is traced. *)
Theorem intel_idle_probe_vendor_mismatch (pf : platform) (w : world) :
  max_cstate (drv w) ≠ 0 →
  x86_vendor (boot_cpu_data pf) ≠ X86_VENDOR_INTEL →
  intel_idle_probe pf w = Done (- ENODEV) w
  ∧ intel_idle_init pf w = Done (- ENODEV) w
  ∧ ∀ r w',
      intel_idle_init pf w = Done r w' →
      cpuidle_state_table (drv w') = cpuidle_state_table (drv w)
      ∧ choose_substate (drv w') = choose_substate (drv w)
      ∧ intel_idle_cpuidle_devices (drv w')
        = intel_idle_cpuidle_devices (drv w)
      ∧ heap (krn w') = heap (krn w)
      ∧ cpuidle_registered (krn w') = cpuidle_registered (krn w)
      ∧ driver_registered (krn w') = driver_registered (krn w)
      ∧ trace (krn w') = trace (krn w).
Proof.
  intros Hmax Hv.
  pose proof (intel_idle_probe_other_vendor pf w Hmax Hv) as Hp.
  assert (Hi : intel_idle_init pf w = Done (- ENODEV) w).
  { unfold intel_idle_init. mrun. rewrite Hp. reflexivity. }
  split; [exact Hp|]. split; [exact Hi|].
  intros r w' Hrun. rewrite Hi in Hrun. injection Hrun as _ <-.
  repeat split.
Qed.

Lemma intel_idle_probe_vendor_mismatch_witness :
  let pf := machine other_vendor_cpu 3 0x1120 [0%nat] (λ _, 0) in
  intel_idle_probe pf initial_world = Done (- ENODEV) initial_world
  ∧ intel_idle_init pf initial_world = Done (- ENODEV) initial_world
  ∧ ∀ r w',
      intel_idle_init pf initial_world = Done r w' →
      cpuidle_state_table (drv w') = cpuidle_state_table (drv initial_world)
      ∧ choose_substate (drv w') = choose_substate (drv initial_world)
      ∧ intel_idle_cpuidle_devices (drv w')
        = intel_idle_cpuidle_devices (drv initial_world)
      ∧ heap (krn w') = heap (krn initial_world)
      ∧ cpuidle_registered (krn w') = cpuidle_registered (krn initial_world)
      ∧ driver_registered (krn w') = driver_registered (krn initial_world)
      ∧ trace (krn w') = trace (krn initial_world).
Proof.
  apply (intel_idle_probe_vendor_mismatch
           (machine other_vendor_cpu 3 0x1120 [0%nat] (λ _, 0)) initial_world).
  - discriminate.
  - discriminate.
Defined.

Lemma with_substates_id g : with_substates (substates g) g = g.
Proof. destruct g; reflexivity. Qed.
Lemma with_lapic_id g :
  with_lapic_timer_reliable_states (lapic_timer_reliable_states g) g = g.
Proof. destruct g; reflexivity. Qed.

(** The probe up to the family test, as one step. *)
Lemma intel_idle_probe_admitted (pf : platform) (w : world) :
  admitted pf w →
  ∃ k1, heap k1 = heap (krn w)
    ∧ cpuidle_registered k1 = cpuidle_registered (krn w)
    ∧ intel_idle_probe pf w
      = (let c := boot_cpu_data pf in
         let model := x86_model c in
         if negb (x86 c =? 6) then mret (- ENODEV)
         else if is_nehalem model || is_westmere model then
           when (is_nehalem model)
             (modify_drv (with_lapic_timer_reliable_states (Z.shiftl 1 1)));;
           modify_drv (with_state_table NehalemTable);;
           modify_drv (with_choose_substate TunablePolicy);;
           pr_debug (LogVersion model);;
           g ← get_drv;
           pr_debug (LogReliableStates (lapic_timer_reliable_states g));;
           mret 0
         else if is_atom model then
           modify_drv (with_lapic_timer_reliable_states
                         (Z.lor (Z.shiftl 1 2) (Z.shiftl 1 1)));;
           modify_drv (with_state_table AtomTable);;
           modify_drv (with_choose_substate ZeroPolicy);;
           pr_debug (LogVersion model);;
           g ← get_drv;
           pr_debug (LogReliableStates (lapic_timer_reliable_states g));;
           mret 0
         else
           pr_debug (LogDoesNotRun (x86 c) model);;
           mret (- ENODEV))
        {| drv := after_feature_writes pf (drv w); krn := k1 |}.
Proof.
  intros (Hmax & Hv & Hm & Hl & He1 & He2).
  apply Z.eqb_neq in Hmax, He1, He2. apply Z.eqb_eq in Hv.
  apply Z.ltb_ge in Hl.
  unfold intel_idle_probe, after_feature_writes, cpuid5_ecx, cpuid5_edx in *.
  mrun. rewrite Hmax, Hv, Hm, Hl. simpl. unfold cpuid. mrun.
  destruct (cpuid_regs pf CPUID_MWAIT_LEAF) as [[[eax ebx] ecx] edx].
  rewrite He1, He2. simpl.
  destruct w as [g k]. simpl.
  destruct (substates g =? 0) eqn:Hs, (has_arat (boot_cpu_data pf)) eqn:Ha;
    simpl; rewrite ?with_substates_id, ?with_lapic_id;
    eexists; (split; [|split; [|reflexivity]]); reflexivity.
Qed.

(** C10: when the probe passes its admission checks and then fails with
    [-ENODEV] at the family test or for an unknown model, the writes made
    before that test stay: [substates] holds the CPUID value (unless it
    was set beforehand, which is kept) and the reliable-timer mask holds
    all ones when ARAT is advertised.  Nothing is rolled back. *)
Theorem intel_idle_probe_late_failure (pf : platform) (w : world) :
  let c := boot_cpu_data pf in
  admitted pf w →
  x86 c ≠ 6
    ∨ is_nehalem (x86_model c) || is_westmere (x86_model c)
      || is_atom (x86_model c) = false →
  ∃ w', intel_idle_probe pf w = Done (- ENODEV) w'
    ∧ drv w' = after_feature_writes pf (drv w)
    ∧ substates (drv w')
      = (if substates (drv w) =? 0 then cpuid5_edx pf else substates (drv w))
    ∧ lapic_timer_reliable_states (drv w')
      = (if has_arat c then 0xFFFFFFFF
         else lapic_timer_reliable_states (drv w)).
Proof.
  intros c Hadm Hfail.
  destruct (intel_idle_probe_admitted pf w Hadm) as (k1 & _ & _ & ->).
  fold c. simpl.
  destruct Hfail as [Hfam|Hmodel].
  - apply Z.eqb_neq in Hfam. rewrite Hfam. simpl.
    eexists. split; [reflexivity|]. simpl. auto.
  - apply orb_false_iff in Hmodel as [Hnw Hat].
    rewrite Hnw, Hat.
    destruct (negb (x86 c =? 6)); simpl;
      (eexists; split; [reflexivity|]; simpl; auto).
Qed.

Lemma intel_idle_probe_late_failure_witness :
  let pf := machine (intel_cpu 15 6 true) 3 0x1120 [0%nat] (λ _, 0) in
  ∃ w', intel_idle_probe pf initial_world = Done (- ENODEV) w'
    ∧ drv w' = after_feature_writes pf (drv initial_world)
    ∧ substates (drv w') = 0x1120
    ∧ lapic_timer_reliable_states (drv w') = 0xFFFFFFFF.
Proof.
  apply (intel_idle_probe_late_failure
           (machine (intel_cpu 15 6 true) 3 0x1120 [0%nat] (λ _, 0))
           initial_world).
  - unfold admitted. simpl. unfold CPUID_MWAIT_LEAF.
    repeat split; (discriminate || lia).
  - left. discriminate.
Defined.

(** C1, the code at the failing input: a Nehalem-class model that
    advertises ARAT passes the probe, and the mask the probe leaves has
    only the C1 bit, since the per-model assignment runs after the ARAT
    one and overwrites it. *)
Theorem intel_idle_probe_arat_mask_overwritten :
  let pf := machine (intel_cpu 6 0x1A true) 3 0x1120 [0%nat] (λ _, 0) in
  has_arat (boot_cpu_data pf) = true
  ∧ ∃ w', intel_idle_probe pf initial_world = Done 0 w'
      ∧ lapic_timer_reliable_states (drv w') = 0x2
      ∧ Z.testbit (lapic_timer_reliable_states (drv w')) 2 = false.
Proof.
  split; [reflexivity|]. eexists. split; [vm_compute; reflexivity|].
  split; reflexivity.
Qed.

(** What a successful probe leaves in the mask, model by model: only the
    two Westmere models keep the all-ones value ARAT asks for. *)
Lemma intel_idle_probe_success_mask (pf : platform) (w w' : world) :
  admitted pf w →
  intel_idle_probe pf w = Done 0 w' →
  let model := x86_model (boot_cpu_data pf) in
  lapic_timer_reliable_states (drv w')
  = (if is_nehalem model then 0x2
     else if is_westmere model then
       (if has_arat (boot_cpu_data pf) then 0xFFFFFFFF
        else lapic_timer_reliable_states (drv w))
     else 0x6)
  ∧ cpuidle_state_table (drv w') ≠ NoTable
  ∧ choose_substate (drv w') ≠ NoPolicy.
Proof.
  intros Hadm Hp model.
  destruct (intel_idle_probe_admitted pf w Hadm) as (k1 & _ & _ & E).
  rewrite E in Hp. clear E. simpl in Hp. fold model in Hp.
  destruct (negb (x86 (boot_cpu_data pf) =? 6)); [discriminate Hp|].
  destruct (is_nehalem model) eqn:Hn; simpl in Hp.
  - inversion Hp; subst; simpl. done.
  - destruct (is_westmere model) eqn:Hw; simpl in Hp.
    + inversion Hp; subst; simpl. done.
    + destruct (is_atom model); [|discriminate Hp].
      inversion Hp; subst; simpl. done.
Qed.

(** ** The idle entry routine *)

Lemma bind_done {A B} (m : M A) (k : A → M B) w a w1 o :
  m w = Done a w1 → k a w1 = o → (m ≫= k) w = o.
Proof. intros H1 H2. unfold mbind, M_bind. rewrite H1. exact H2. Qed.

Section runs.
Context (g : globals) (h : gmap nat percpu_block) (reg : gset nat)
  (dr irq : bool) (rr cr : nat) (tr : list event).

Lemma mret_run {A} (a : A) (w : world) : @mret M _ A a w = Done a w.
Proof. reflexivity. Qed.

Lemma get_drv_run :
  get_drv (World g h reg dr irq rr cr tr)
  = Done g (World g h reg dr irq rr cr tr).
Proof. reflexivity. Qed.

Lemma modify_drv_run f :
  modify_drv f (World g h reg dr irq rr cr tr)
  = Done tt (World (f g) h reg dr irq rr cr tr).
Proof. reflexivity. Qed.

Lemma emit_run e :
  emit e (World g h reg dr irq rr cr tr)
  = Done tt (World g h reg dr irq rr cr (tr ++ [e])).
Proof. reflexivity. Qed.

Lemma local_irq_disable_run :
  local_irq_disable (World g h reg dr irq rr cr tr)
  = Done tt (World g h reg dr false rr cr (tr ++ [EvIrqDisable])).
Proof. reflexivity. Qed.

Lemma local_irq_enable_run :
  local_irq_enable (World g h reg dr irq rr cr tr)
  = Done tt (World g h reg dr true rr cr (tr ++ [EvIrqEnable])).
Proof. reflexivity. Qed.

Lemma need_resched_run pf :
  need_resched pf (World g h reg dr irq rr cr tr)
  = Done (need_resched_sample pf rr)
      (World g h reg dr irq (S rr) cr
         (tr ++ [EvNeedResched (need_resched_sample pf rr)])).
Proof. reflexivity. Qed.

Lemma ktime_get_real_run pf :
  ktime_get_real pf (World g h reg dr irq rr cr tr)
  = Done (ktime_sample pf cr)
      (World g h reg dr irq rr (S cr)
         (tr ++ [EvKtimeGet (ktime_sample pf cr)])).
Proof. reflexivity. Qed.

Lemma when_true_run (m : M unit) w : when true m w = m w.
Proof. reflexivity. Qed.

Lemma when_false_run (m : M unit) w : when false m w = Done tt w.
Proof. reflexivity. Qed.
End runs.

(** Run a straight-line computation whose tests are decided by
    hypotheses. *)
Ltac run :=
  lazymatch goal with
  | |- mbind _ _ _ = _ =>
    eapply bind_done;
    [run | cbv beta; cbn [lapic_timer_reliable_states with_power_policy]; run]
  | |- mret _ _ = _ => apply mret_run
  | |- get_drv _ = _ => apply get_drv_run
  | |- modify_drv _ _ = _ => apply modify_drv_run
  | |- emit _ _ = _ => apply emit_run
  | |- local_irq_disable _ = _ => apply local_irq_disable_run
  | |- local_irq_enable _ = _ => apply local_irq_enable_run
  | |- need_resched _ _ = _ => apply need_resched_run
  | |- ktime_get_real _ _ = _ => apply ktime_get_real_run
  | |- when true _ _ = _ => rewrite when_true_run; run
  | |- when false _ _ = _ => apply when_false_run
  | |- when (negb true) _ _ = _ => apply when_false_run
  | |- when (negb false) _ _ = _ => rewrite when_true_run; run
  | H : ?c = _ |- when ?c _ _ = _ => rewrite H; run
  | H : ?c = _ |- when (negb ?c) _ _ = _ => rewrite H; run
  | |- _ => idtac
  end.

(** A call through [choose_substate] with a policy selected returns and
    writes at most [power_policy]. *)
Lemma call_choose_substate_run (cstate : Z) g h reg dr irq rr cr tr :
  choose_substate g ≠ NoPolicy →
  ∃ sub pp,
    call_choose_substate cstate (World g h reg dr irq rr cr tr)
    = Done sub (World (with_power_policy pp g) h reg dr irq rr cr tr).
Proof.
  intros Hpol. unfold call_choose_substate.
  destruct (choose_substate g) eqn:Epol; [done| |].
  - unfold choose_tunable_substate.
    destruct (Z.land (Z.shiftr (substates g) (Z.land cstate 7 * 4))
                MWAIT_SUBSTATE_MASK <=? 1) eqn:Hc.
    + exists 0, (Z.land (power_policy g) 0xF).
      eapply bind_done; [apply get_drv_run|]. cbv beta. rewrite Epol.
      eapply bind_done; [apply get_drv_run|]. cbv beta zeta.
      eapply bind_done; [apply modify_drv_run|]. cbv beta.
      rewrite Hc. reflexivity.
    + eexists _, (Z.land (power_policy g) 0xF).
      eapply bind_done; [apply get_drv_run|]. cbv beta. rewrite Epol.
      eapply bind_done; [apply get_drv_run|]. cbv beta zeta.
      eapply bind_done; [apply modify_drv_run|]. cbv beta.
      rewrite Hc. reflexivity.
  - exists 0, (power_policy g).
    eapply bind_done; [apply get_drv_run|]. cbv beta. rewrite Epol.
    destruct g; reflexivity.
Qed.

(** One call of [intel_idle], with a policy selected, in full. *)
Lemma intel_idle_runs (pf : platform) (state : cpuidle_state) (w : world) :
  choose_substate (drv w) ≠ NoPolicy →
  let k := krn w in
  let unreliable :=
    Z.land (lapic_timer_reliable_states (drv w))
      (Z.shiftl 1 (idle_cstate state)) =? 0 in
  let b1 := need_resched_sample pf (resched_reads k) in
  let b2 := need_resched_sample pf (S (resched_reads k)) in
  let t0 := ktime_sample pf (clock_reads k) in
  let t1 := ktime_sample pf (S (clock_reads k)) in
  ∃ eax w',
    intel_idle pf state w = Done (s32 (ktime_to_us (ktime_sub t1 t0))) w'
    ∧ irqs_enabled (krn w') = true
    ∧ trace (krn w')
      = trace k ++ idle_entry_events pf unreliable t0 eax
          ++ idle_wait_events b1 b2 eax ++ idle_exit_events pf unreliable t1.
Proof.
  intros Hpol. cbv zeta.
  destruct w as [g [h reg dr irq rr cr tr]].
  cbn [drv krn heap cpuidle_registered driver_registered irqs_enabled
       resched_reads clock_reads trace] in *.
  destruct (call_choose_substate_run (s32 (idle_cstate state))
              g h reg dr irq rr cr tr Hpol)
    as (sub & pp & Hsub).
  unfold idle_entry_events, idle_wait_events, idle_exit_events.
  exists (u64 (u64 (driver_data state) + sub)).
  destruct (Z.land (lapic_timer_reliable_states g)
              (Z.shiftl 1 (idle_cstate state)) =? 0) eqn:Hu,
    (built_as_module pf) eqn:Hm,
    (need_resched_sample pf rr) eqn:H1,
    (need_resched_sample pf (S rr)) eqn:H2.
  all: eexists; split; [unfold intel_idle; cbv zeta; fold (idle_cstate state);
    eapply bind_done; [exact Hsub|]; cbv beta; run|].
  all: split; [reflexivity|]; cbn [trace krn World];
    rewrite <- ?app_assoc; reflexivity.
Qed.

(** Membership in an explicit list of calls, case by case. *)
Ltac in_events H :=
  repeat (apply elem_of_cons in H as [H|H];
          [try discriminate H; injection H as -> ->; auto|]);
  apply elem_of_nil in H; destruct H.

Lemma mwait_not_in_entry pf u t0 eax a c :
  EvMwait a c ∉ idle_entry_events pf u t0 eax.
Proof.
  unfold idle_entry_events. intros H.
  destruct u, (built_as_module pf); simpl in H; in_events H.
Qed.

Lemma mwait_not_in_exit pf u t1 a c :
  EvMwait a c ∉ idle_exit_events pf u t1.
Proof.
  unfold idle_exit_events. intros H. destruct u; simpl in H; in_events H.
Qed.

Lemma mwait_in_wait b1 b2 eax a c :
  EvMwait a c ∈ idle_wait_events b1 b2 eax →
  b1 = false ∧ b2 = false ∧ a = eax ∧ c = 1.
Proof.
  unfold idle_wait_events. intros H.
  destruct b1, b2; simpl in H; in_events H.
Qed.

(** Give the calls before and after the one that enables interrupts. *)
Ltac split_at_irq_enable l acc :=
  lazymatch l with
  | EvIrqEnable :: ?post => exists acc, post
  | ?x :: ?rest => split_at_irq_enable rest (acc ++ [x])
  end.

Lemma cons_eq_app_cons {A} (x y : A) (l pre post : list A) :
  x :: l = pre ++ y :: post →
  (pre = [] ∧ x = y ∧ post = l)
  ∨ (∃ pre', pre = x :: pre' ∧ l = pre' ++ y :: post).
Proof.
  destruct pre as [|z pre]; simpl; intros E; injection E as -> ->.
  - by left.
  - right. by eexists.
Qed.

(** Find every place where an explicit list of calls splits around a
    given call. *)
Ltac walk_events E :=
  lazymatch type of E with
  | [] = _ => exfalso; exact (app_cons_not_nil _ _ _ E)
  | _ :: _ = _ =>
    let pre' := fresh "pre" in
    apply cons_eq_app_cons in E as [(-> & E & ->)|(pre' & -> & E)];
    [try discriminate E | walk_events E]
  end.

(** Give the part of an explicit list before its last three calls. *)
Ltac before_last_three l acc :=
  lazymatch l with
  | [_; _; _] => exists acc
  | ?x :: ?rest => before_last_three rest (acc ++ [x])
  end.

(** C2: a call of [intel_idle] returns with interrupts enabled.  At every
    place of its trace where the wait instruction is issued, the three
    calls right before it are arming the monitor, the barrier and a
    reading of the reschedule flag as clear, and there is no other wait in
    the call; the wait is issued when both readings of the flag are clear.
    When the flag is already set at entry no wait is issued at all,
    interrupts are disabled and then enabled again, and the value returned
    is the time between the two clock readings taken around the skipped
    wait. *)
Theorem intel_idle_wait_guarded (pf : platform) (state : cpuidle_state)
    (w : world) :
  choose_substate (drv w) ≠ NoPolicy →
  let pending := need_resched_sample pf (resched_reads (krn w)) in
  let recheck := need_resched_sample pf (S (resched_reads (krn w))) in
  let t0 := ktime_sample pf (clock_reads (krn w)) in
  let t1 := ktime_sample pf (S (clock_reads (krn w))) in
  ∃ r w' evs,
    intel_idle pf state w = Done r w'
    ∧ trace (krn w') = trace (krn w) ++ evs
    ∧ irqs_enabled (krn w') = true
    ∧ (∀ pre eax ecx post,
         evs = pre ++ EvMwait eax ecx :: post →
         (∃ pre', pre = pre' ++ [EvMonitor; EvMb; EvNeedResched false])
         ∧ (∀ a c, EvMwait a c ∉ pre)
         ∧ (∀ a c, EvMwait a c ∉ post))
    ∧ (pending = false → recheck = false → ∃ eax, EvMwait eax 1 ∈ evs)
    ∧ (pending = true →
         (∀ eax ecx, EvMwait eax ecx ∉ evs)
         ∧ (∃ pre post, evs = EvIrqDisable :: pre ++ EvIrqEnable :: post
                        ∧ EvIrqDisable ∉ post)
         ∧ r = s32 (ktime_to_us (ktime_sub t1 t0))).
Proof.
  intros Hpol pending recheck t0 t1.
  destruct (intel_idle_runs pf state w Hpol) as (eax & w' & Hrun & Hirq & Htr).
  cbv zeta in Hrun, Htr. fold pending recheck t0 t1 in Hrun, Htr.
  eexists _, w', _. split; [exact Hrun|]. split; [exact Htr|].
  split; [exact Hirq|]. split; [|split].
  - intros pre a c post E.
    unfold idle_entry_events, idle_wait_events, idle_exit_events in E.
    destruct (_ =? 0), (built_as_module pf), pending, recheck;
      cbn [app] in E; walk_events E;
      (split;
       [lazymatch goal with
        | |- ∃ pre', ?l = _ => before_last_three l (@nil event)
        end; reflexivity
       |split; intros a' c' H; in_events H]).
  - intros Hp Hr. rewrite Hp, Hr. exists eax.
    apply elem_of_app. right. apply elem_of_app. left.
    unfold idle_wait_events. cbn [app].
    repeat first [apply list_elem_of_here | apply list_elem_of_further].
  - intros Hp. rewrite Hp. split; [|split; [|reflexivity]].
    + intros a c Hin.
      apply elem_of_app in Hin as [Hin|Hin];
        [exact (mwait_not_in_entry _ _ _ _ _ _ Hin)|].
      apply elem_of_app in Hin as [Hin|Hin];
        [|exact (mwait_not_in_exit _ _ _ _ _ Hin)].
      apply mwait_in_wait in Hin as (E1 & _). discriminate E1.
    + unfold idle_entry_events, idle_wait_events, idle_exit_events.
      destruct (_ =? 0), (built_as_module pf); simpl;
        lazymatch goal with
        | |- ∃ pre post, EvIrqDisable :: ?l = _ ∧ _ =>
          split_at_irq_enable l (@nil event)
        end;
        (split; [reflexivity|]); intros H; in_events H.
Qed.

Lemma intel_idle_wait_guarded_witness :
  (∃ r w' evs,
     intel_idle one_core (nehalem_row 2) westmere_world = Done r w'
     ∧ trace (krn w') = trace (krn westmere_world) ++ evs
     ∧ irqs_enabled (krn w') = true
     ∧ (∀ pre eax ecx post,
          evs = pre ++ EvMwait eax ecx :: post →
          (∃ pre', pre = pre' ++ [EvMonitor; EvMb; EvNeedResched false])
          ∧ (∀ a c, EvMwait a c ∉ pre)
          ∧ (∀ a c, EvMwait a c ∉ post))
     ∧ (false = false → false = false → ∃ eax, EvMwait eax 1 ∈ evs)
     ∧ (false = true →
          (∀ eax ecx, EvMwait eax ecx ∉ evs)
          ∧ (∃ pre post, evs = EvIrqDisable :: pre ++ EvIrqEnable :: post
                         ∧ EvIrqDisable ∉ post)
          ∧ r = s32 (ktime_to_us (ktime_sub 5000 0))))
  ∧ (∃ r w' evs,
       intel_idle (with_pending one_core) (nehalem_row 2) westmere_world
       = Done r w'
       ∧ trace (krn w') = trace (krn westmere_world) ++ evs
       ∧ irqs_enabled (krn w') = true
       ∧ (∀ pre eax ecx post,
            evs = pre ++ EvMwait eax ecx :: post →
            (∃ pre', pre = pre' ++ [EvMonitor; EvMb; EvNeedResched false])
            ∧ (∀ a c, EvMwait a c ∉ pre)
            ∧ (∀ a c, EvMwait a c ∉ post))
       ∧ (true = false → true = false → ∃ eax, EvMwait eax 1 ∈ evs)
       ∧ (true = true →
            (∀ eax ecx, EvMwait eax ecx ∉ evs)
            ∧ (∃ pre post, evs = EvIrqDisable :: pre ++ EvIrqEnable :: post
                           ∧ EvIrqDisable ∉ post)
            ∧ r = 5)).
Proof.
  split.
  - apply (intel_idle_wait_guarded one_core (nehalem_row 2) westmere_world).
    discriminate.
  - apply (intel_idle_wait_guarded (with_pending one_core) (nehalem_row 2)
             westmere_world).
    discriminate.
Defined.

(** ** Per-core devices *)

Section device_runs.
Context (g : globals) (reg : gset nat) (dr irq : bool) (rr cr : nat).
Context (a : nat) (devs : gmap nat cpuidle_device).
Implicit Types (h : gmap nat percpu_block) (tr : list event).

Lemma load_dev_run h tr i :
  h !! a = Some (Live devs) →
  load_dev (PAddr a) i (World g h reg dr irq rr cr tr)
  = Done (dev_of devs i) (World g h reg dr irq rr cr tr).
Proof.
  intros Hlive. unfold load_dev, World, mbind, M_bind, get_krn. simpl.
  rewrite Hlive. reflexivity.
Qed.

Lemma store_dev_run h tr i d :
  h !! a = Some (Live devs) →
  store_dev (PAddr a) i d (World g h reg dr irq rr cr tr)
  = Done tt (World g (<[a := Live (<[i := d]> devs)]> h) reg dr irq rr cr tr).
Proof.
  intros Hlive. unfold store_dev, World, mbind, M_bind, get_krn. simpl.
  rewrite Hlive. reflexivity.
Qed.

Lemma free_percpu_run h tr :
  h !! a = Some (Live devs) →
  free_percpu (PAddr a) (World g h reg dr irq rr cr tr)
  = Done tt (World g (<[a := Freed]> h) reg dr irq rr cr
               (tr ++ [EvFreePercpu (PAddr a)])).
Proof.
  intros Hlive. unfold free_percpu, World, mbind, M_bind, get_krn, emit, modify_krn. simpl.
  rewrite Hlive. reflexivity.
Qed.

Lemma cpuidle_unregister_device_run h tr i :
  h !! a = Some (Live devs) →
  let d := dev_of devs i in
  cpuidle_unregister_device (PAddr a) i (World g h reg dr irq rr cr tr)
  = Done tt
      (if registered d then
         World g (<[a := Live (<[i := with_registered false d]> devs)]> h)
           (reg ∖ {[cpu d]}) dr irq rr cr (tr ++ [EvUnregisterDevice i])
       else World g h reg dr irq rr cr (tr ++ [EvUnregisterDevice i])).
Proof.
  intros Hlive d. unfold cpuidle_unregister_device.
  eapply bind_done; [apply emit_run|]. cbv beta.
  eapply bind_done; [apply load_dev_run, Hlive|]. cbv beta. fold d.
  destruct (registered d); [|reflexivity].
  eapply bind_done; [apply store_dev_run, Hlive|]. reflexivity.
Qed.

Lemma cpuidle_register_device_run pf h tr i :
  h !! a = Some (Live devs) →
  let d := dev_of devs i in
  let r := register_device_result pf (cpu d) in
  cpuidle_register_device pf (PAddr a) i (World g h reg dr irq rr cr tr)
  = Done r
      (if r =? 0 then
         World g (<[a := Live (<[i := with_registered true d]> devs)]> h)
           ({[cpu d]} ∪ reg) dr irq rr cr (tr ++ [EvRegisterDevice (cpu d) r])
       else World g h reg dr irq rr cr (tr ++ [EvRegisterDevice (cpu d) r])).
Proof.
  intros Hlive d r. unfold cpuidle_register_device.
  eapply bind_done; [apply load_dev_run, Hlive|]. cbv beta zeta. fold d. fold r.
  eapply bind_done; [apply emit_run|]. cbv beta.
  destruct (r =? 0); [|reflexivity].
  eapply bind_done; [apply store_dev_run, Hlive|]. reflexivity.
Qed.
End device_runs.

Lemma dev_of_lookup (devs : gmap nat cpuidle_device) i d :
  devs !! i = Some d → dev_of devs i = d.
Proof. intros H. unfold dev_of. rewrite H. reflexivity. Qed.

Lemma table_row_run t rows c row w :
  catalog t = Some rows → rows !! Z.to_nat c = Some row →
  table_row t c w = Done row w.
Proof. intros Ht Hr. unfold table_row. rewrite Ht, Hr. reflexivity. Qed.

Lemma heap_insert_live_id (h : gmap nat percpu_block) a devs i d :
  h !! a = Some (Live devs) → devs !! i = Some d →
  <[a := Live (<[i := d]> devs)]> h = h.
Proof. intros Ha Hi. rewrite (insert_id devs i d Hi). apply insert_id, Ha. Qed.

Lemma bind_post {A B} (P : outcome B → Prop) (m : M A) (k : A → M B) w a w1 :
  m w = Done a w1 → P (k a w1) → P ((m ≫= k) w).
Proof. intros H1 H2. unfold mbind, M_bind. rewrite H1. exact H2. Qed.

Lemma states_filled_nothing rows cstates a i devs d g h reg dr irq rr cr tr :
  h !! a = Some (Live devs) → devs !! i = Some d →
  length (states d) = CPUIDLE_STATE_MAX →
  states_filled rows cstates a i devs d g h reg dr irq rr cr
    (Done tt (World g h reg dr irq rr cr tr)).
Proof.
  intros Hlive Hdev Hlen. exists d, tr, [].
  rewrite (heap_insert_live_id h a devs i d Hlive Hdev).
  split; [reflexivity|]. split; [reflexivity|]. split; [reflexivity|].
  split; [assumption|]. split; [cbn [length]; lia|].
  split; [intros; reflexivity|].
  split; [intros k idx Hk; discriminate Hk|]. split; constructor.
Qed.

Lemma states_filled_further rows c rest a i devs d g h reg dr irq rr cr o :
  states_filled rows rest a i devs d g h reg dr irq rr cr o →
  states_filled rows (c :: rest) a i devs d g h reg dr irq rr cr o.
Proof.
  intros (d' & tr' & idxs & Hrun & Hr & Hcpu & Hl & Hsc & Hpre & Hcp & Hin & Hs).
  exists d', tr', idxs. do 7 (split; [assumption|]). split; [|exact Hs].
  eapply Forall_impl; [exact Hin|]. intros x Hx.
  by apply list_elem_of_further.
Qed.

(** The inner loop returns, touches only the device it fills, and appends
    catalog rows at increasing depths. *)
Lemma fill_states_run pf a i rows :
  ∀ cstates g h devs d reg dr irq rr cr tr,
  catalog (cpuidle_state_table g) = Some rows →
  h !! a = Some (Live devs) → devs !! i = Some d →
  length (states d) = CPUIDLE_STATE_MAX →
  (state_count d + length cstates ≤ CPUIDLE_STATE_MAX)%nat →
  Forall (λ c, (Z.to_nat c < length rows)%nat) cstates →
  StronglySorted Z.lt cstates →
  states_filled rows cstates a i devs d g h reg dr irq rr cr
    (fill_states pf (PAddr a) i cstates (World g h reg dr irq rr cr tr)).
Proof.
  induction cstates as [|c rest IH];
    intros g h devs d reg dr irq rr cr tr Hcat Hlive Hdev Hlen Hcount
      Hrows Hsorted.
  - cbn [fill_states]. by apply states_filled_nothing.
  - cbn [fill_states].
    apply Forall_cons in Hrows as [Hc Hrows].
    apply StronglySorted_inv in Hsorted as [Hsorted Hlt].
    cbn [length] in Hcount.
    assert (Hskip : ∀ tr0,
      states_filled rows (c :: rest) a i devs d g h reg dr irq rr cr
        (fill_states pf (PAddr a) i rest (World g h reg dr irq rr cr tr0))).
    { intros tr0. apply states_filled_further.
      apply IH; auto with lia. }
    eapply bind_post; [apply get_drv_run|]. cbv beta zeta.
    destruct (max_cstate g <? c) eqn:Hmax.
    { unfold printk. rewrite emit_run. by apply states_filled_nothing. }
    destruct (Z.land _ MWAIT_SUBSTATE_MASK =? 0) eqn:Hsub; [apply Hskip|].
    destruct (lookup_lt_is_Some_2 rows (Z.to_nat c) Hc) as [row Hrow].
    eapply bind_post; [eapply table_row_run; eassumption|]. cbv beta.
    destruct (enter row) eqn:Henter.
    2: { destruct (bool_decide (name row = "")).
         - eapply bind_post; [apply emit_run|]. apply Hskip.
         - eapply bind_post; [apply when_false_run|]. apply Hskip. }
    set (d1 := with_states (<[state_count d := row]> (states d)) d).
    set (d2 := with_state_count (state_count d + 1)%nat d1).
    set (devs1 := <[i := d1]> devs).
    set (h1 := <[a := Live devs1]> h).
    set (devs2 := <[i := d2]> devs1).
    set (h2 := <[a := Live devs2]> h1).
    assert (Hlive1 : h1 !! a = Some (Live devs1)) by apply lookup_insert_eq.
    assert (Hlive2 : h2 !! a = Some (Live devs2)) by apply lookup_insert_eq.
    assert (Hdev2 : devs2 !! i = Some d2) by apply lookup_insert_eq.
    assert (Hih : ∀ tr1,
      states_filled rows rest a i devs2 d2 g h2 reg dr irq rr cr
        (fill_states pf (PAddr a) i rest (World g h2 reg dr irq rr cr tr1))).
    { intros tr1. apply IH; auto.
      - subst d2 d1. cbn. rewrite length_insert. exact Hlen.
      - subst d2 d1. cbn. lia. }
    destruct ((2 <? c) && negb (has_nonstop_tsc (boot_cpu_data pf)));
      [eapply bind_post; [apply emit_run|]
      |eapply bind_post; [apply when_false_run|]]; cbv beta.
    all: eapply bind_post; [apply load_dev_run, Hlive|]; cbv beta.
    all: rewrite (dev_of_lookup devs i d Hdev).
    all: rewrite bool_decide_eq_true_2
           by (unfold CPUIDLE_STATE_MAX in *; lia).
    all: eapply bind_post; [apply store_dev_run, Hlive|]; cbv beta.
    all: eapply bind_post; [apply load_dev_run, Hlive1|]; cbv beta.
    all: rewrite (dev_of_lookup devs1 i d1) by apply lookup_insert_eq.
    all: eapply bind_post; [apply store_dev_run, Hlive1|]; cbv beta.
    all: fold d2; fold devs2; fold h2.
    all: match goal with
         | |- states_filled _ _ _ _ _ _ _ _ _ _ _ _ _
                (fill_states _ _ _ _ (World _ _ _ _ _ _ _ ?t)) =>
           destruct (Hih t)
             as (d' & tr' & idxs & Hrun & Hr & Hcpu & Hl & Hsc & Hpre & Hcp
                 & Hin & Hs)
         end.
    all: exists d', tr', (c :: idxs).
    all: split;
      [etrans; [exact Hrun|]; subst h2 h1 devs2 devs1;
       rewrite !insert_insert_eq; reflexivity|].
    all: subst d2 d1; cbn in Hr, Hcpu, Hsc, Hpre, Hcp.
    all: split; [exact Hr|]; split; [exact Hcpu|]; split; [exact Hl|].
    all: split; [cbn [length]; lia|].
    all: split;
      [intros m Hm; rewrite Hpre by lia; apply list_lookup_insert_ne; lia|].
    all: split;
      [intros [|k] idx Hk;
       [injection Hk as <-; exists row;
        split; [exact Hrow|]; split; [congruence|];
        rewrite Nat.add_0_r, Hpre by lia;
        apply list_lookup_insert_eq; unfold CPUIDLE_STATE_MAX in *; lia
       |destruct (Hcp k idx Hk) as (row' & ? & ? & Hst);
        exists row'; split; [assumption|]; split; [assumption|];
        rewrite <- Hst; f_equal; lia]|].
    all: split;
      [constructor; [apply list_elem_of_here|];
       eapply Forall_impl; [exact Hin|];
       intros x Hx; by apply list_elem_of_further|].
    all: constructor; [exact Hs|].
    all: eapply Forall_impl; [exact Hin|]; intros x Hx; cbv beta in Hx.
    all: rewrite Forall_forall in Hlt; apply Hlt, Hx.
Qed.

(** The loop of [intel_idle_cpuidle_devices_uninit] over the cores [l]:
    it returns, and a core stays registered exactly when the loop did not
    visit a registered device for it. *)
Lemma unregister_all_run a :
  ∀ l g h devs reg dr irq rr cr tr,
  intel_idle_cpuidle_devices g = PAddr a →
  h !! a = Some (Live devs) →
  (∀ j, j ∈ l → registered (dev_of devs j) = true → cpu (dev_of devs j) = j) →
  ∃ devs' reg' tr',
    for_each l (λ i, g ← get_drv;
                     cpuidle_unregister_device (intel_idle_cpuidle_devices g) i)
      (World g h reg dr irq rr cr tr)
    = Done tt (World g (<[a := Live devs']> h) reg' dr irq rr cr tr')
    ∧ (∀ x, x ∈ reg' ↔
            x ∈ reg ∧ ¬ (x ∈ l ∧ registered (dev_of devs x) = true)).
Proof.
  induction l as [|i l IH]; intros g h devs reg dr irq rr cr tr Hptr Hlive Hcpu.
  - exists devs, reg, tr. split.
    + cbn [for_each]. rewrite (insert_id h a _ Hlive). reflexivity.
    + intros x. rewrite elem_of_nil. tauto.
  - cbn [for_each].
    assert (Hstep := cpuidle_unregister_device_run g reg dr irq rr cr a devs
                       h tr i Hlive).
    cbv zeta in Hstep.
    destruct (registered (dev_of devs i)) eqn:Hflag.
    + set (d := dev_of devs i) in *.
      set (devs1 := <[i := with_registered false d]> devs) in *.
      assert (Hcpui : cpu d = i) by (apply Hcpu; [apply list_elem_of_here|done]).
      destruct (IH g (<[a := Live devs1]> h) devs1 (reg ∖ {[cpu d]})
                  dr irq rr cr (tr ++ [EvUnregisterDevice i]) Hptr)
        as (devs' & reg' & tr' & Hrun & Hreg).
      { apply lookup_insert_eq. }
      { intros j Hj. destruct (decide (j = i)) as [->|Hne].
        - unfold dev_of, devs1. rewrite lookup_insert_eq. discriminate.
        - unfold dev_of, devs1. rewrite lookup_insert_ne by done.
          apply Hcpu. by apply list_elem_of_further. }
      rewrite insert_insert_eq in Hrun.
      exists devs', reg', tr'. split.
      * eapply bind_done; [|exact Hrun]. cbv beta.
        eapply bind_done; [apply get_drv_run|]. cbv beta. rewrite Hptr.
        exact Hstep.
      * intros x. rewrite Hreg, Hcpui, elem_of_difference, elem_of_singleton,
          elem_of_cons.
        destruct (decide (x = i)) as [->|Hne].
        -- split; [tauto|]. intros [_ Hn]. exfalso. apply Hn. auto.
        -- assert (dev_of devs1 x = dev_of devs x) as ->.
           { unfold dev_of, devs1. by rewrite lookup_insert_ne. }
           tauto.
    + destruct (IH g h devs reg dr irq rr cr (tr ++ [EvUnregisterDevice i])
                  Hptr Hlive)
        as (devs' & reg' & tr' & Hrun & Hreg).
      { intros j Hj. apply Hcpu. by apply list_elem_of_further. }
      exists devs', reg', tr'. split.
      * eapply bind_done; [|exact Hrun]. cbv beta.
        eapply bind_done; [apply get_drv_run|]. cbv beta. rewrite Hptr.
        exact Hstep.
      * intros x. rewrite Hreg, elem_of_cons.
        destruct (decide (x = i)) as [->|Hne]; [|tauto].
        rewrite Hflag. split; [|tauto]. intros [? Hn]. split; [done|].
        intros [_ ?]. discriminate.
Qed.

(** [intel_idle_cpuidle_devices_uninit] on installed devices: it returns,
    the block is freed, and the registered devices of the online cores
    are unregistered. *)
Lemma devices_uninit_run pf a g h devs reg dr irq rr cr tr :
  intel_idle_cpuidle_devices g = PAddr a →
  h !! a = Some (Live devs) →
  (∀ j, j ∈ online_cpus pf →
        registered (dev_of devs j) = true → cpu (dev_of devs j) = j) →
  ∃ h' reg' tr',
    intel_idle_cpuidle_devices_uninit pf (World g h reg dr irq rr cr tr)
    = Done tt (World g h' reg' dr irq rr cr tr')
    ∧ h' !! a = Some Freed
    ∧ (∀ b, b ≠ a → h' !! b = h !! b)
    ∧ (∀ x, x ∈ reg' ↔
            x ∈ reg
            ∧ ¬ (x ∈ online_cpus pf ∧ registered (dev_of devs x) = true)).
Proof.
  intros Hptr Hlive Hcpu.
  destruct (unregister_all_run a (online_cpus pf) g h devs reg dr irq rr cr tr
              Hptr Hlive Hcpu) as (devs' & reg' & tr' & Hrun & Hreg).
  eexists _, reg', _. split; [|split; [|split; [|exact Hreg]]].
  - unfold intel_idle_cpuidle_devices_uninit.
    eapply bind_done; [exact Hrun|]. cbv beta.
    eapply bind_done; [apply get_drv_run|]. cbv beta. rewrite Hptr.
    eapply free_percpu_run. apply lookup_insert_eq.
  - apply lookup_insert_eq.
  - intros b Hb. by rewrite !lookup_insert_ne.
Qed.

Lemma dev_of_length devs i :
  block_wf devs → length (states (dev_of devs i)) = CPUIDLE_STATE_MAX.
Proof.
  intros Hwf. unfold dev_of. destruct (devs !! i) as [d|] eqn:Hd.
  - exact (Hwf i d Hd).
  - reflexivity.
Qed.

Lemma dev_of_insert_eq (devs : gmap nat cpuidle_device) i d :
  dev_of (<[i := d]> devs) i = d.
Proof. unfold dev_of. by rewrite lookup_insert_eq. Qed.

Lemma dev_of_insert_ne (devs : gmap nat cpuidle_device) i j d :
  i ≠ j → dev_of (<[i := d]> devs) j = dev_of devs j.
Proof. intros H. unfold dev_of. by rewrite lookup_insert_ne. Qed.

Lemma block_wf_insert devs i d :
  block_wf devs → length (states d) = CPUIDLE_STATE_MAX →
  block_wf (<[i := d]> devs).
Proof.
  intros Hwf Hd j d' Hj. destruct (decide (i = j)) as [->|Hne].
  - rewrite lookup_insert_eq in Hj. by injection Hj as <-.
  - rewrite lookup_insert_ne in Hj by done. exact (Hwf j d' Hj).
Qed.

Lemma catalog_length t (rows : list cpuidle_state) :
  catalog t = Some rows → length rows = 8%nat.
Proof. destruct t; intros H; [discriminate H| |]; by injection H as <-. Qed.

Lemma cstate_range_values : cstate_range = [1; 2; 3; 4; 5; 6; 7].
Proof. reflexivity. Qed.

Lemma cstate_range_sorted : StronglySorted Z.lt cstate_range.
Proof.
  rewrite cstate_range_values.
  repeat (constructor; [|repeat (constructor; [lia|]); constructor]).
  constructor.
Qed.

Lemma cstate_range_in_catalog (rows : list cpuidle_state) :
  length rows = 8%nat →
  Forall (λ c, (Z.to_nat c < length rows)%nat) cstate_range.
Proof.
  intros ->. rewrite cstate_range_values.
  repeat (constructor; [cbn; lia|]). constructor.
Qed.

(** The outer loop of device initialisation returns, and either every
    core it visits ends registered with a built device, or it stops at a
    failed registration with the block freed and no online core left
    registered. *)
Lemma init_cpus_run pf a rows :
  ∀ cpus g h devs reg dr irq rr cr tr,
  intel_idle_cpuidle_devices g = PAddr a →
  catalog (cpuidle_state_table g) = Some rows →
  h !! a = Some (Live devs) →
  block_wf devs →
  devices_consistent (online_cpus pf) devs reg →
  (∀ j, j ∈ cpus → j ∈ online_cpus pf) →
  init_cpus_post pf a rows cpus devs g h reg dr irq rr cr
    (init_cpus pf cpus (World g h reg dr irq rr cr tr)).
Proof.
  induction cpus as [|i rest IH];
    intros g h devs reg dr irq rr cr tr Hptr Hcat Hlive Hwf Hcons Honline.
  - exists 0, h, reg, tr. split; [reflexivity|]. left.
    split; [reflexivity|]. split; [constructor|].
    exists devs. split; [by rewrite insert_id|]. split; [exact Hwf|].
    split; [exact Hcons|].
    split; [by rewrite list_to_set_nil, (left_id_L ∅ (∪))|].
    split; [intros j Hj; by apply elem_of_nil in Hj|done].
  - assert (Hi : i ∈ online_cpus pf) by apply Honline, list_elem_of_here.
    cbn [init_cpus].
    eapply bind_post; [apply get_drv_run|]. cbv beta zeta. rewrite Hptr.
    eapply bind_post; [apply load_dev_run, Hlive|]. cbv beta.
    set (d0 := dev_of devs i).
    set (dA := with_state_count 1 d0).
    eapply bind_post; [apply store_dev_run, Hlive|]. cbv beta.
    destruct (fill_states_run pf a i rows cstate_range g
                (<[a := Live (<[i := dA]> devs)]> h) (<[i := dA]> devs) dA
                reg dr irq rr cr tr Hcat)
      as (d' & tr1 & idxs & Hfill & Hr & Hcpu & Hl & Hsc & Hpre & Hcp
          & Hin & Hs).
    { apply lookup_insert_eq. }
    { apply lookup_insert_eq. }
    { apply (dev_of_length devs i Hwf). }
    { rewrite cstate_range_values. cbn. unfold CPUIDLE_STATE_MAX. lia. }
    { apply cstate_range_in_catalog, (catalog_length _ _ Hcat). }
    { apply cstate_range_sorted. }
    rewrite !insert_insert_eq in Hfill.
    eapply bind_post; [exact Hfill|]. cbv beta.
    eapply bind_post; [apply load_dev_run, lookup_insert_eq|]. cbv beta.
    rewrite dev_of_insert_eq.
    set (dC := with_cpu i d').
    eapply bind_post; [apply store_dev_run, lookup_insert_eq|]. cbv beta.
    rewrite !insert_insert_eq.
    set (devsC := <[i := dC]> devs).
    assert (HliveC : <[a := Live devsC]> h !! a = Some (Live devsC))
      by apply lookup_insert_eq.
    assert (HflagC : registered dC = registered d0).
    { subst dC dA. cbn in *. exact Hr. }
    assert (HwfC : block_wf devsC).
    { apply block_wf_insert; [exact Hwf|]. exact Hl. }
    eapply bind_post;
      [apply (cpuidle_register_device_run g reg dr irq rr cr a devsC pf),
         HliveC|].
    cbv beta zeta.
    assert (HdevC : dev_of devsC i = dC) by apply dev_of_insert_eq.
    rewrite HdevC. change (cpu dC) with i.
    destruct (register_device_result pf i =? 0) eqn:Hres.
    + (* registered: go on with the other cores *)
      apply Z.eqb_eq in Hres. rewrite Hres. cbn [negb Z.eqb].
      unfold devsC. rewrite !insert_insert_eq.
      set (dD := with_registered true dC).
      set (devsD := <[i := dD]> devs).
      destruct (IH g (<[a := Live devsD]> h) devsD ({[i]} ∪ reg) dr irq rr cr
                  (tr1 ++ [EvRegisterDevice i 0]) Hptr Hcat)
        as (r & h' & reg' & tr' & Hrun & Hcases).
      { apply lookup_insert_eq. }
      { apply block_wf_insert; [exact Hwf|]. exact Hl. }
      { intros j Hj. destruct (decide (i = j)) as [<-|Hne].
        - unfold devsD. rewrite dev_of_insert_eq. done.
        - unfold devsD. rewrite dev_of_insert_ne by done.
          destruct (Hcons j Hj) as [H1 H2]. split; [exact H1|].
          intros Hreg. apply H2.
          apply elem_of_union in Hreg as [Hreg|Hreg]; [|exact Hreg].
          apply elem_of_singleton in Hreg. congruence. }
      { intros j Hj. apply Honline. by apply list_elem_of_further. }
      exists r, h', reg', tr'. split; [exact Hrun|].
      destruct Hcases as
        [(-> & Hall & devs' & -> & Hwf' & Hcons' & -> & Hbuilt & Hsame)
        |(-> & Hex & Hfreed & Hother & Hreg)].
      * left. split; [reflexivity|]. split; [by constructor|].
        exists devs'. split; [by rewrite insert_insert_eq|].
        split; [exact Hwf'|]. split; [exact Hcons'|].
        split.
        { rewrite list_to_set_cons. apply set_eq. intros x.
          rewrite !elem_of_union. tauto. }
        split.
        -- intros j Hj. destruct (decide (j ∈ rest)) as [Hjr|Hjr];
             [by apply Hbuilt|].
           apply elem_of_cons in Hj as [->|Hj]; [|done].
           unfold dev_of. rewrite (Hsame i Hjr). unfold devsD.
           rewrite lookup_insert_eq. cbn [default from_option id].
           split; [reflexivity|]. split; [reflexivity|].
           exists idxs. split; [exact Hs|]. split; [exact Hin|].
           split; [exact Hsc|]. exact Hcp.
        -- intros j Hj. apply not_elem_of_cons in Hj as [Hne Hjr].
           rewrite (Hsame j Hjr). unfold devsD. by rewrite lookup_insert_ne.
      * right. split; [reflexivity|]. split; [by apply Exists_cons_tl|].
        split; [exact Hfreed|]. split.
        -- intros b Hb. rewrite (Hother b Hb). by rewrite lookup_insert_ne.
        -- intros x. rewrite Hreg, elem_of_union, elem_of_singleton.
           split; [|tauto]. intros [[->|Hx] Hn]; [contradiction|tauto].
    + (* registration failed: unwind *)
      apply Z.eqb_neq in Hres. cbn [negb].
      eapply bind_post; [apply emit_run|]. cbv beta.
      destruct (devices_uninit_run pf a g (<[a := Live devsC]> h) devsC reg
                  dr irq rr cr
                  ((tr1 ++ [EvRegisterDevice i (register_device_result pf i)])
                   ++ [EvLog (LogRegisterFailed i)]) Hptr HliveC)
        as (h' & reg' & tr' & Hrun & Hfreed & Hother & Hreg).
      { intros j Hj. destruct (decide (i = j)) as [<-|Hne].
        - unfold devsC. rewrite dev_of_insert_eq. done.
        - unfold devsC. rewrite dev_of_insert_ne by done.
          apply (Hcons j Hj). }
      eapply bind_post; [exact Hrun|]. cbv beta.
      exists (- EIO), h', reg', tr'. split; [reflexivity|]. right.
      split; [reflexivity|]. split; [by apply Exists_cons_hd|].
      split; [exact Hfreed|]. split.
      * intros b Hb. rewrite (Hother b Hb). by rewrite lookup_insert_ne.
      * intros x. rewrite Hreg. split; [|tauto].
        intros [Hx Hn]. split; [exact Hx|]. intros Hxo. apply Hn.
        split; [exact Hxo|].
        destruct (decide (i = x)) as [<-|Hne].
        -- unfold devsC. rewrite dev_of_insert_eq, HflagC.
           apply (Hcons i Hi), Hx.
        -- unfold devsC. rewrite dev_of_insert_ne by done.
           apply (Hcons x Hxo), Hx.
Qed.

Lemma alloc_percpu_run pf g h reg dr irq rr cr tr :
  alloc_percpu_ok pf = true →
  let a := fresh (dom h) in
  alloc_percpu pf (World g h reg dr irq rr cr tr)
  = Done (PAddr a)
      (World g (<[a := Live ∅]> h) reg dr irq rr cr
         (tr ++ [EvAllocPercpu (PAddr a)])).
Proof.
  intros Hok a. unfold alloc_percpu.
  eapply bind_done; [reflexivity|]. cbv beta zeta. rewrite Hok.
  reflexivity.
Qed.

(** Device initialisation in full, when the allocation succeeds, a
    catalog is selected and no online core is registered yet. *)
Lemma devices_init_run pf rows g h reg dr irq rr cr tr :
  alloc_percpu_ok pf = true →
  catalog (cpuidle_state_table g) = Some rows →
  (∀ j, j ∈ online_cpus pf → j ∉ reg) →
  let a := fresh (dom h) in
  init_cpus_post pf a rows (online_cpus pf) ∅ (with_devices (PAddr a) g)
    (<[a := Live ∅]> h) reg dr irq rr cr
    (intel_idle_cpuidle_devices_init pf (World g h reg dr irq rr cr tr)).
Proof.
  intros Hok Hcat Hfree a. unfold intel_idle_cpuidle_devices_init.
  eapply bind_post; [apply (alloc_percpu_run pf), Hok|]. cbv beta.
  eapply bind_post; [apply modify_drv_run|]. cbv beta. fold a.
  apply init_cpus_run.
  - reflexivity.
  - exact Hcat.
  - apply lookup_insert_eq.
  - intros j d Hj. rewrite lookup_empty in Hj. discriminate Hj.
  - intros j Hj. unfold dev_of. rewrite lookup_empty. cbn.
    split; [discriminate|]. intros Hreg. destruct (Hfree j Hj Hreg).
  - auto.
Qed.

(** C3: when registering the device of some online core fails, device
    initialisation returns [-EIO] with the per-cpu block, which holds
    every core's record, freed and with no online core left registered:
    the registry is what it was before the call. *)
Theorem devices_init_all_or_nothing (pf : platform) (w : world) :
  alloc_percpu_ok pf = true →
  cpuidle_state_table (drv w) ≠ NoTable →
  (∀ j, j ∈ online_cpus pf → j ∉ cpuidle_registered (krn w)) →
  Exists (λ j, register_device_result pf j ≠ 0) (online_cpus pf) →
  ∃ w' a,
    intel_idle_cpuidle_devices_init pf w = Done (- EIO) w'
    ∧ intel_idle_cpuidle_devices (drv w') = PAddr a
    ∧ heap (krn w') !! a = Some Freed
    ∧ (∀ j, j ∈ online_cpus pf → j ∉ cpuidle_registered (krn w'))
    ∧ cpuidle_registered (krn w') = cpuidle_registered (krn w).
Proof.
  intros Hok Htable Hfree Hfail.
  destruct (catalog (cpuidle_state_table (drv w))) as [rows|] eqn:Hcat;
    [|by destruct (cpuidle_state_table (drv w))].
  destruct w as [g [h reg dr irq rr cr tr]].
  cbn [drv krn heap cpuidle_registered] in *.
  destruct (devices_init_run pf rows g h reg dr irq rr cr tr Hok Hcat Hfree)
    as (r & h' & reg' & tr' & Hrun
        & [(_ & Hall & _)|(-> & _ & Hfreed & _ & Hreg)]).
  - exfalso. apply Exists_exists in Hfail as (j & Hj & Hne).
    rewrite Forall_forall in Hall. exact (Hne (Hall j Hj)).
  - eexists _, _. split; [exact Hrun|]. split; [reflexivity|].
    split; [exact Hfreed|]. split.
    + intros j Hj Hin. apply Hreg in Hin as [_ Hn]. exact (Hn Hj).
    + apply set_eq. intros x. rewrite Hreg. split; [tauto|].
      intros Hx. split; [exact Hx|]. intros Hxo. exact (Hfree x Hxo Hx).
Qed.

Lemma devices_init_all_or_nothing_witness :
  ∃ w' a,
    intel_idle_cpuidle_devices_init four_cores_one_failing westmere_world
    = Done (- EIO) w'
    ∧ intel_idle_cpuidle_devices (drv w') = PAddr a
    ∧ heap (krn w') !! a = Some Freed
    ∧ (∀ j, j ∈ online_cpus four_cores_one_failing →
            j ∉ cpuidle_registered (krn w'))
    ∧ cpuidle_registered (krn w') = cpuidle_registered (krn westmere_world).
Proof.
  apply (devices_init_all_or_nothing four_cores_one_failing westmere_world).
  - reflexivity.
  - discriminate.
  - intros j _. apply not_elem_of_empty.
  - apply Exists_exists. exists 2%nat. split; [|discriminate].
    apply list_elem_of_further, list_elem_of_further, list_elem_of_here.
Defined.

(** C6: in every device that device initialisation builds, the rows
    copied into [states] from slot 1 on are catalog rows at strictly
    increasing depths. *)
Theorem devices_init_depth_monotonic (pf : platform) (w w' : world)
    (rows : list cpuidle_state) :
  catalog (cpuidle_state_table (drv w)) = Some rows →
  (∀ j, j ∈ online_cpus pf → j ∉ cpuidle_registered (krn w)) →
  intel_idle_cpuidle_devices_init pf w = Done 0 w' →
  ∃ a devs,
    intel_idle_cpuidle_devices (drv w') = PAddr a
    ∧ heap (krn w') !! a = Some (Live devs)
    ∧ ∀ i, i ∈ online_cpus pf →
        cpu (dev_of devs i) = i
        ∧ ∃ idxs, StronglySorted Z.lt idxs
            ∧ Forall (λ idx, idx ∈ cstate_range) idxs
            ∧ rows_copied rows (dev_of devs i) idxs.
Proof.
  intros Hcat Hfree Hrun.
  destruct (alloc_percpu_ok pf) eqn:Hok.
  2: { exfalso. revert Hrun.
       unfold intel_idle_cpuidle_devices_init, alloc_percpu.
       unfold mbind, M_bind, get_krn. rewrite Hok. discriminate. }
  destruct w as [g [h reg dr irq rr cr tr]].
  cbn [drv krn heap cpuidle_registered] in *.
  destruct (devices_init_run pf rows g h reg dr irq rr cr tr Hok Hcat Hfree)
    as (r & h' & reg' & tr' & Hrun'
        & [(_ & _ & devs' & -> & _ & _ & _ & Hbuilt & _)|(-> & _)]).
  - pose proof (eq_trans (eq_sym Hrun') Hrun) as E. injection E as _ <-.
    eexists _, devs'. split; [reflexivity|].
    split; [apply lookup_insert_eq|].
    intros i Hi. destruct (Hbuilt i Hi) as (_ & Hcpu & Hidx).
    split; [exact Hcpu|exact Hidx].
  - pose proof (eq_trans (eq_sym Hrun') Hrun) as E. discriminate E.
Qed.

Lemma devices_init_depth_monotonic_witness :
  let w' := world_of (intel_idle_cpuidle_devices_init four_cores
                        westmere_world) in
  ∃ a devs,
    intel_idle_cpuidle_devices (drv w') = PAddr a
    ∧ heap (krn w') !! a = Some (Live devs)
    ∧ ∀ i, i ∈ online_cpus four_cores →
        cpu (dev_of devs i) = i
        ∧ ∃ idxs, StronglySorted Z.lt idxs
            ∧ Forall (λ idx, idx ∈ cstate_range) idxs
            ∧ rows_copied nehalem_cstates (dev_of devs i) idxs.
Proof.
  intros w'.
  apply (devices_init_depth_monotonic four_cores westmere_world w'
           nehalem_cstates).
  - reflexivity.
  - intros j _. apply not_elem_of_empty.
  - vm_compute. reflexivity.
Defined.

Lemma bind_crash {A B} (m : M A) (k : A → M B) w f w1 :
  m w = Crash f w1 → (m ≫= k) w = Crash f w1.
Proof. intros H. unfold mbind, M_bind. rewrite H. reflexivity. Qed.

(** A second teardown finds the block it is pointed at already freed. *)
Lemma devices_uninit_stale pf g a h reg dr irq rr cr tr :
  intel_idle_cpuidle_devices g = PAddr a →
  h !! a = Some Freed →
  ∃ f w', intel_idle_cpuidle_devices_uninit pf (World g h reg dr irq rr cr tr)
          = Crash f w'.
Proof.
  intros Hptr Hfreed. unfold intel_idle_cpuidle_devices_uninit.
  destruct (online_cpus pf) as [|i l].
  - exists DoubleFree. eexists. cbn [for_each].
    eapply bind_done; [reflexivity|]. cbv beta.
    eapply bind_done; [apply get_drv_run|]. cbv beta. rewrite Hptr.
    unfold free_percpu.
    eapply bind_done; [apply emit_run|]. cbv beta.
    unfold mbind, M_bind, get_krn, World. cbn. rewrite Hfreed. reflexivity.
  - exists UseAfterFree. eexists. cbn [for_each].
    do 2 eapply bind_crash.
    eapply bind_done; [apply get_drv_run|]. cbv beta. rewrite Hptr.
    unfold cpuidle_unregister_device.
    eapply bind_done; [apply emit_run|]. cbv beta.
    eapply bind_crash.
    unfold load_dev, mbind, M_bind, get_krn, World. cbn. rewrite Hfreed.
    reflexivity.
Qed.

(** C5, as the code has it: called on installed devices, teardown
    returns with the block freed and no online core registered; it keeps
    the pointer to the freed block, so calling it again right away is an
    invalid access instead of a no-op. *)
Theorem devices_uninit_once (pf : platform) (w : world) (a : nat)
    (devs : gmap nat cpuidle_device) :
  intel_idle_cpuidle_devices (drv w) = PAddr a →
  heap (krn w) !! a = Some (Live devs) →
  devices_consistent (online_cpus pf) devs (cpuidle_registered (krn w)) →
  ∃ w',
    intel_idle_cpuidle_devices_uninit pf w = Done tt w'
    ∧ drv w' = drv w
    ∧ heap (krn w') !! a = Some Freed
    ∧ (∀ j, j ∈ online_cpus pf → j ∉ cpuidle_registered (krn w'))
    ∧ (∀ x, x ∈ cpuidle_registered (krn w') → x ∈ cpuidle_registered (krn w))
    ∧ ∃ f w'', intel_idle_cpuidle_devices_uninit pf w' = Crash f w''.
Proof.
  intros Hptr Hlive Hcons.
  destruct w as [g [h reg dr irq rr cr tr]].
  cbn [drv krn heap cpuidle_registered] in *.
  destruct (devices_uninit_run pf a g h devs reg dr irq rr cr tr Hptr Hlive)
    as (h' & reg' & tr' & Hrun & Hfreed & _ & Hreg).
  { intros j Hj. apply (Hcons j Hj). }
  eexists. split; [exact Hrun|]. split; [reflexivity|].
  split; [exact Hfreed|]. split; [|split].
  - intros j Hj Hin. apply Hreg in Hin as [Hin Hn]. apply Hn.
    split; [exact Hj|]. apply (Hcons j Hj), Hin.
  - intros x Hx. apply Hreg in Hx as [Hx _]. exact Hx.
  - apply (devices_uninit_stale pf g a h' reg' dr irq rr cr tr' Hptr Hfreed).
Qed.

Lemma devices_uninit_once_witness :
  ∃ w',
    intel_idle_cpuidle_devices_uninit one_core installed_world = Done tt w'
    ∧ drv w' = drv installed_world
    ∧ heap (krn w') !! 0%nat = Some Freed
    ∧ (∀ j, j ∈ online_cpus one_core → j ∉ cpuidle_registered (krn w'))
    ∧ (∀ x, x ∈ cpuidle_registered (krn w') →
            x ∈ cpuidle_registered (krn installed_world))
    ∧ ∃ f w'', intel_idle_cpuidle_devices_uninit one_core w' = Crash f w''.
Proof.
  apply (devices_uninit_once one_core installed_world 0 installed_devs).
  - vm_compute. reflexivity.
  - vm_compute. reflexivity.
  - intros j Hj. apply list_elem_of_singleton in Hj as ->.
    split; intros _; vm_compute; reflexivity.
Defined.

(** C5 as stated fails: after a successful start on one core a first
    teardown returns, and a second one in a row reads the freed block;
    and teardown with no devices installed goes through a null pointer. *)
Lemma devices_uninit_twice_crashes :
  ∃ w1 w2 w3 w4,
    intel_idle_init one_core initial_world = Done 0 w1
    ∧ intel_idle_cpuidle_devices_uninit one_core w1 = Done tt w2
    ∧ intel_idle_cpuidle_devices_uninit one_core w2 = Crash UseAfterFree w3
    ∧ intel_idle_cpuidle_devices_uninit one_core initial_world
      = Crash NullDeref w4.
Proof.
  eexists _, _, _, _.
  split; [vm_compute; reflexivity|].
  split; [vm_compute; reflexivity|].
  split; vm_compute; reflexivity.
Qed.

(** * Further properties of intel_idle *)

(** Discharge [supported] on a concrete machine. *)
Ltac supported_machine :=
  unfold supported, admitted; simpl; repeat split;
  first [discriminate | lia | reflexivity].

(** Read the facts about a finished probe off its result. *)
Ltac probe_facts :=
  simpl;
  split; [first [left; reflexivity | right; left; reflexivity
                | right; right; reflexivity]|];
  do 3 (split; [reflexivity|]);
  split; [first [intros _; reflexivity | intros H; contradiction]|];
  split; [first [intros H; exfalso; apply H; reflexivity
                | intros _; split; reflexivity]|];
  first [intros H; discriminate H | intros _; split; discriminate].

(** The probe on any world: it returns, and touches the kernel only by
    appending to the trace. *)
Lemma intel_idle_probe_run pf g h reg dr irq rr cr tr :
  ∃ r g' tr',
    intel_idle_probe pf (World g h reg dr irq rr cr tr)
    = Done r (World g' h reg dr irq rr cr tr')
    ∧ (r = 0 ∨ r = - EPERM ∨ r = - ENODEV)
    ∧ max_cstate g' = max_cstate g
    ∧ power_policy g' = power_policy g
    ∧ intel_idle_cpuidle_devices g' = intel_idle_cpuidle_devices g
    ∧ (substates g ≠ 0 → substates g' = substates g)
    ∧ (r ≠ 0 → cpuidle_state_table g' = cpuidle_state_table g
               ∧ choose_substate g' = choose_substate g)
    ∧ (r = 0 → cpuidle_state_table g' ≠ NoTable
               ∧ choose_substate g' ≠ NoPolicy).
Proof.
  unfold intel_idle_probe, World. mrun.
  destruct (max_cstate g =? 0);
    [eexists _, _, _; split; [reflexivity|]; probe_facts|].
  destruct (negb _);
    [eexists _, _, _; split; [reflexivity|]; probe_facts|].
  destruct (negb _);
    [eexists _, _, _; split; [reflexivity|]; probe_facts|].
  destruct (_ <? _);
    [eexists _, _, _; split; [reflexivity|]; probe_facts|].
  unfold cpuid. mrun.
  destruct (cpuid_regs pf CPUID_MWAIT_LEAF) as [[[eax ebx] ecx] edx].
  destruct (_ || _);
    [eexists _, _, _; split; [reflexivity|]; probe_facts|].
  destruct (Z.eqb_spec (substates g) 0) as [Hs|Hs];
    destruct (has_arat (boot_cpu_data pf)); simpl;
    (destruct (negb _);
      [eexists _, _, _; split; [reflexivity|]; probe_facts|]);
    (destruct (is_nehalem _); simpl;
      [eexists _, _, _; split; [reflexivity|]; probe_facts|]);
    (destruct (is_westmere _); simpl;
      [eexists _, _, _; split; [reflexivity|]; probe_facts|]);
    (destruct (is_atom _); simpl;
      eexists _, _, _; (split; [reflexivity|]); probe_facts).
Qed.

(** X1: whatever the machine, the probe returns 0, -EPERM or -ENODEV; it
    never writes [max_cstate], [power_policy] or the device pointer, keeps
    a [substates] value supplied beforehand, leaves the per-cpu storage
    and the registry alone, and selects a catalog and a policy exactly
    when it succeeds. *)
Theorem intel_idle_probe_frame (pf : platform) (w : world) :
  ∃ r w',
    intel_idle_probe pf w = Done r w'
    ∧ (r = 0 ∨ r = - EPERM ∨ r = - ENODEV)
    ∧ max_cstate (drv w') = max_cstate (drv w)
    ∧ power_policy (drv w') = power_policy (drv w)
    ∧ intel_idle_cpuidle_devices (drv w') = intel_idle_cpuidle_devices (drv w)
    ∧ (substates (drv w) ≠ 0 → substates (drv w') = substates (drv w))
    ∧ heap (krn w') = heap (krn w)
    ∧ cpuidle_registered (krn w') = cpuidle_registered (krn w)
    ∧ driver_registered (krn w') = driver_registered (krn w)
    ∧ (r ≠ 0 →
       cpuidle_state_table (drv w') = cpuidle_state_table (drv w)
       ∧ choose_substate (drv w') = choose_substate (drv w))
    ∧ (r = 0 →
       cpuidle_state_table (drv w') ≠ NoTable
       ∧ choose_substate (drv w') ≠ NoPolicy).
Proof.
  destruct w as [g [h reg dr irq rr cr tr]].
  destruct (intel_idle_probe_run pf g h reg dr irq rr cr tr)
    as (r & g' & tr' & Hrun & Hr & Hmax & Hpp & Hdev & Hsub & Hfail & Hok).
  exists r, (World g' h reg dr irq rr cr tr').
  split; [exact Hrun|]. cbn. auto 12.
Qed.

Lemma known_model_split m :
  known_model m = false →
  is_nehalem m || is_westmere m = false ∧ is_atom m = false.
Proof. unfold known_model. intros H. by apply orb_false_iff in H. Qed.

(** X2: the probe succeeds exactly on an admitted family-6 processor of one
    of the eight known models. *)
Theorem intel_idle_probe_success_iff (pf : platform) (w : world) :
  (∃ w', intel_idle_probe pf w = Done 0 w')
  ↔ admitted pf w
    ∧ x86 (boot_cpu_data pf) = 6
    ∧ known_model (x86_model (boot_cpu_data pf)) = true.
Proof.
  set (c := boot_cpu_data pf). split.
  - intros [w' Hrun].
    assert (Hadm : admitted pf w).
    { unfold admitted. fold c.
      destruct (Z.eq_dec (max_cstate (drv w)) 0) as [E|Hmax].
      { rewrite (intel_idle_probe_disabled pf w E) in Hrun. discriminate Hrun. }
      destruct (Z.eq_dec (x86_vendor c) X86_VENDOR_INTEL) as [Hv|E].
      2: { rewrite (intel_idle_probe_other_vendor pf w Hmax E) in Hrun.
           discriminate Hrun. }
      destruct (has_mwait c) eqn:Hm.
      2: { rewrite (intel_idle_probe_no_mwait pf w Hmax Hv Hm) in Hrun.
           discriminate Hrun. }
      destruct (Z_lt_le_dec (cpuid_level c) CPUID_MWAIT_LEAF) as [E|Hl].
      { rewrite (intel_idle_probe_no_leaf pf w Hmax Hv Hm E) in Hrun.
        discriminate Hrun. }
      destruct (Z.eq_dec (Z.land (cpuid5_ecx pf)
                            CPUID5_ECX_EXTENSIONS_SUPPORTED) 0) as [E|He1].
      { rewrite (intel_idle_probe_no_extensions pf w Hmax Hv Hm Hl
                   (or_introl E)) in Hrun. discriminate Hrun. }
      destruct (Z.eq_dec (Z.land (cpuid5_ecx pf)
                            CPUID5_ECX_INTERRUPT_BREAK) 0) as [E|He2].
      { rewrite (intel_idle_probe_no_extensions pf w Hmax Hv Hm Hl
                   (or_intror E)) in Hrun. discriminate Hrun. }
      done. }
    split; [exact Hadm|].
    destruct (intel_idle_probe_admitted pf w Hadm) as (k1 & _ & _ & E).
    rewrite E in Hrun. clear E. cbv zeta in Hrun. fold c in Hrun.
    destruct (Z.eqb_spec (x86 c) 6) as [Hfam|Hfam]; [|discriminate Hrun].
    split; [exact Hfam|]. cbn [negb] in Hrun.
    destruct (known_model (x86_model c)) eqn:Hk; [reflexivity|].
    apply known_model_split in Hk as [Hnw Hat]. rewrite Hnw, Hat in Hrun.
    discriminate Hrun.
  - intros (Hadm & Hfam & Hk).
    destruct (intel_idle_probe_admitted pf w Hadm) as (k1 & _ & _ & ->).
    cbv zeta. fold c. rewrite Hfam. cbn [Z.eqb Pos.eqb negb].
    unfold known_model in Hk.
    destruct (is_nehalem (x86_model c)); cbn [orb].
    { eexists. reflexivity. }
    destruct (is_westmere (x86_model c)); cbn [orb].
    { eexists. reflexivity. }
    cbn [orb] in Hk. rewrite Hk. eexists. reflexivity.
Qed.

(** The Tunable policy with [power_policy] in range, as one value. *)
Lemma choose_tunable_substate_value (w : world) (cstate : Z) :
  let pp := power_policy (drv w) in
  let c := substate_count (drv w) cstate in
  0 ≤ pp ≤ 15 →
  choose_tunable_substate cstate w
  = Done (if c <=? 1 then 0 else (pp + (pp + 1) * (c - 1)) / 16) w.
Proof.
  intros pp c Hpp.
  pose proof (substate_count_range (drv w) cstate) as Hc. fold c in Hc.
  pose proof (clamp_power_policy_id w Hpp) as Hw.
  unfold clamp_power_policy in Hw. fold pp in Hw.
  unfold choose_tunable_substate. mrun. fold pp.
  change (Z.land (Z.shiftr (substates (drv w)) (Z.land cstate 7 * 4))
            MWAIT_SUBSTATE_MASK) with c.
  rewrite Hw.
  destruct (Z.leb_spec c 1); [reflexivity|].
  rewrite (land_0xF_id pp Hpp).
  rewrite (tunable_formula_unwrapped pp c) by lia. reflexivity.
Qed.

(** X3: at [power_policy] 0 the Tunable policy picks the shallowest
    substate, at 15 the deepest one the hardware lists for the depth. *)
Theorem choose_tunable_substate_extremes (w : world) (cstate : Z) :
  let c := substate_count (drv w) cstate in
  (power_policy (drv w) = 0 →
   choose_tunable_substate cstate w = Done 0 w)
  ∧ (power_policy (drv w) = 15 → 1 ≤ c →
     choose_tunable_substate cstate w = Done (c - 1) w).
Proof.
  intros c. pose proof (substate_count_range (drv w) cstate) as Hc. fold c in Hc.
  split.
  - intros Hpp.
    rewrite choose_tunable_substate_value by (rewrite Hpp; lia).
    fold c. rewrite Hpp. destruct (Z.leb_spec c 1); [reflexivity|].
    f_equal. apply Z.div_small. lia.
  - intros Hpp Hc1.
    rewrite choose_tunable_substate_value by (rewrite Hpp; lia).
    fold c. rewrite Hpp. destruct (Z.leb_spec c 1); [f_equal; lia|].
    f_equal.
    replace (15 + (15 + 1) * (c - 1)) with (15 + (c - 1) * 16) by lia.
    rewrite Z.div_add by lia. reflexivity.
Qed.

Lemma choose_tunable_substate_extremes_witness :
  choose_tunable_substate 1 (with_policy_value 0 westmere_world)
  = Done 0 (with_policy_value 0 westmere_world)
  ∧ choose_tunable_substate 1 (with_policy_value 15 westmere_world)
    = Done 1 (with_policy_value 15 westmere_world).
Proof.
  split.
  - apply (choose_tunable_substate_extremes
             (with_policy_value 0 westmere_world) 1). reflexivity.
  - apply (proj2 (choose_tunable_substate_extremes
                    (with_policy_value 15 westmere_world) 1)).
    + reflexivity.
    + vm_compute. discriminate.
Defined.

(** X4: a larger [power_policy] never selects a shallower substate. *)
Theorem choose_tunable_substate_monotone (w1 w2 : world) (cstate : Z) :
  substates (drv w1) = substates (drv w2) →
  0 ≤ power_policy (drv w1) →
  power_policy (drv w1) ≤ power_policy (drv w2) →
  power_policy (drv w2) ≤ 15 →
  ∃ r1 r2,
    choose_tunable_substate cstate w1 = Done r1 w1
    ∧ choose_tunable_substate cstate w2 = Done r2 w2
    ∧ r1 ≤ r2.
Proof.
  intros Hsub H0 Hle H15.
  rewrite !choose_tunable_substate_value by lia.
  unfold substate_count. rewrite Hsub.
  fold (substate_count (drv w2) cstate).
  pose proof (substate_count_range (drv w2) cstate) as Hc.
  set (c := substate_count (drv w2) cstate) in *.
  eexists _, _. split; [reflexivity|]. split; [reflexivity|].
  destruct (Z.leb_spec c 1); [lia|].
  apply Z.div_le_mono; [lia|]. nia.
Qed.

Lemma choose_tunable_substate_monotone_witness :
  ∃ r1 r2,
    choose_tunable_substate 1 (with_policy_value 3 westmere_world)
    = Done r1 (with_policy_value 3 westmere_world)
    ∧ choose_tunable_substate 1 (with_policy_value 12 westmere_world)
      = Done r2 (with_policy_value 12 westmere_world)
    ∧ r1 ≤ r2.
Proof.
  apply choose_tunable_substate_monotone; simpl; first [reflexivity | lia].
Defined.

(** X5: for every value of [power_policy], depth and [substates] the
    Tunable policy returns a substate below 15 and below the count the
    hardware lists for the depth; the depth is taken modulo 8. *)
Theorem choose_tunable_substate_total (w : world) (cstate k : Z) :
  let c := substate_count (drv w) cstate in
  ∃ r,
    choose_tunable_substate cstate w = Done r (clamp_power_policy w)
    ∧ choose_tunable_substate (cstate + 8 * k) w
      = Done r (clamp_power_policy w)
    ∧ 0 ≤ r ≤ 14
    ∧ r ≤ Z.max 0 (c - 1).
Proof.
  intros c.
  pose proof (substate_count_range (drv w) cstate) as Hc. fold c in Hc.
  pose proof (land_0xF_range (power_policy (drv w))) as Hpp.
  assert (Hk : Z.land (cstate + 8 * k) 7 = Z.land cstate 7).
  { change 7 with (Z.ones 3). rewrite !Z.land_ones by lia.
    change (2 ^ 3) with 8. rewrite (Z.mul_comm 8 k). apply Z_mod_plus_full. }
  unfold choose_tunable_substate. mrun. rewrite Hk.
  change (Z.land (Z.shiftr (substates (drv w)) (Z.land cstate 7 * 4))
            MWAIT_SUBSTATE_MASK) with c.
  fold (clamp_power_policy w).
  destruct (Z.leb_spec c 1).
  - exists 0. split; [reflexivity|]. split; [reflexivity|]. lia.
  - eexists. split; [reflexivity|]. split; [reflexivity|].
    rewrite tunable_formula_unwrapped by lia.
    pose proof (tunable_formula_range (Z.land (power_policy (drv w)) 15) c
                  Hpp ltac:(lia)). lia.
Qed.

(** A machine the driver supports. *)
Lemma intel_idle_probe_supported (pf : platform) (w : world) :
  supported pf w → ∃ w', intel_idle_probe pf w = Done 0 w'.
Proof.
  set (c := boot_cpu_data pf). intros (Hadm & Hfam & Hk).
  destruct (intel_idle_probe_admitted pf w Hadm) as (k1 & _ & _ & ->).
  cbv zeta. fold c in Hfam, Hk |- *. rewrite Hfam. cbn [Z.eqb Pos.eqb negb].
  unfold known_model in Hk.
  destruct (is_nehalem (x86_model c)); cbn [orb].
  { eexists. reflexivity. }
  destruct (is_westmere (x86_model c)); cbn [orb].
  { eexists. reflexivity. }
  cbn [orb] in Hk. rewrite Hk. eexists. reflexivity.
Qed.

Lemma intel_idle_probe_supported_run pf g h reg dr irq rr cr tr :
  supported pf (World g h reg dr irq rr cr tr) →
  ∃ g' tr' rows,
    intel_idle_probe pf (World g h reg dr irq rr cr tr)
    = Done 0 (World g' h reg dr irq rr cr tr')
    ∧ catalog (cpuidle_state_table g') = Some rows
    ∧ choose_substate g' ≠ NoPolicy
    ∧ intel_idle_cpuidle_devices g' = intel_idle_cpuidle_devices g.
Proof.
  intros Hsup. destruct (intel_idle_probe_supported pf _ Hsup) as [w' Hok].
  destruct (intel_idle_probe_run pf g h reg dr irq rr cr tr)
    as (r & g' & tr' & Hrun & _ & _ & _ & Hdev & _ & _ & Hsel).
  rewrite Hrun in Hok. injection Hok as -> _.
  destruct (Hsel eq_refl) as [Htab Hpol].
  destruct (catalog (cpuidle_state_table g')) as [rows|] eqn:Hcat;
    [|by destruct (cpuidle_state_table g')].
  exists g', tr', rows. done.
Qed.

Lemma cpuidle_register_driver_run pf g h reg dr irq rr cr tr :
  let r := register_driver_result pf in
  cpuidle_register_driver pf (World g h reg dr irq rr cr tr)
  = Done r (World g h reg (if r =? 0 then true else dr) irq rr cr
              (tr ++ [EvRegisterDriver r])).
Proof.
  intros r. unfold cpuidle_register_driver. fold r.
  destruct (r =? 0); reflexivity.
Qed.

Lemma cpuidle_unregister_driver_run g h reg dr irq rr cr tr :
  cpuidle_unregister_driver (World g h reg dr irq rr cr tr)
  = Done tt (World g h reg false irq rr cr (tr ++ [EvUnregisterDriver])).
Proof. reflexivity. Qed.

(** [intel_idle_init] up to the call of device initialisation, on a
    supported machine whose driver registration is accepted. *)
Lemma intel_idle_init_reaches_devices pf g h reg dr irq rr cr tr :
  supported pf (World g h reg dr irq rr cr tr) →
  register_driver_result pf = 0 →
  ∃ g' tr' rows,
    catalog (cpuidle_state_table g') = Some rows
    ∧ choose_substate g' ≠ NoPolicy
    ∧ ∀ o,
        (retval ← intel_idle_cpuidle_devices_init pf;
         if negb (retval =? 0) then cpuidle_unregister_driver;; mret retval
         else mret 0) (World g' h reg true irq rr cr tr') = o →
        intel_idle_init pf (World g h reg dr irq rr cr tr) = o.
Proof.
  intros Hsup Hdrv.
  destruct (intel_idle_probe_supported_run pf g h reg dr irq rr cr tr Hsup)
    as (g' & tr' & rows & Hprobe & Hcat & Hpol & _).
  exists g', (tr' ++ [EvRegisterDriver 0]), rows.
  split; [exact Hcat|]. split; [exact Hpol|].
  intros o Ho. unfold intel_idle_init.
  eapply bind_done; [exact Hprobe|]. cbv beta. cbn [Z.eqb negb].
  eapply bind_done; [apply cpuidle_register_driver_run|]. cbv beta zeta.
  rewrite Hdrv. cbn [Z.eqb negb]. exact Ho.
Qed.

(** X6: on a supported machine where the framework accepts the driver and
    every core's device, [intel_idle_init] returns 0 with the driver
    registered and every online core registered with its own device. *)
Theorem intel_idle_init_success (pf : platform) (w : world) :
  supported pf w →
  register_driver_result pf = 0 →
  alloc_percpu_ok pf = true →
  (∀ j, j ∈ online_cpus pf → j ∉ cpuidle_registered (krn w)) →
  Forall (λ j, register_device_result pf j = 0) (online_cpus pf) →
  ∃ w' a devs,
    intel_idle_init pf w = Done 0 w'
    ∧ driver_registered (krn w') = true
    ∧ intel_idle_cpuidle_devices (drv w') = PAddr a
    ∧ heap (krn w') !! a = Some (Live devs)
    ∧ cpuidle_registered (krn w')
      = list_to_set (online_cpus pf) ∪ cpuidle_registered (krn w)
    ∧ (∀ i, i ∈ online_cpus pf →
          registered (dev_of devs i) = true ∧ cpu (dev_of devs i) = i)
    ∧ cpuidle_state_table (drv w') ≠ NoTable
    ∧ choose_substate (drv w') ≠ NoPolicy.
Proof.
  intros Hsup Hdrv Hok Hfree Hall.
  destruct w as [g [h reg dr irq rr cr tr]].
  cbn [drv krn heap cpuidle_registered] in *.
  destruct (intel_idle_init_reaches_devices pf g h reg dr irq rr cr tr
              Hsup Hdrv) as (g' & tr' & rows & Hcat & Hpol & Hinit).
  destruct (devices_init_run pf rows g' h reg true irq rr cr tr' Hok Hcat
              Hfree)
    as (r & h' & reg' & tr'' & Hrun
        & [(-> & _ & devs' & -> & _ & _ & -> & Hbuilt & _)
          |(-> & Hex & _)]).
  - eexists _, _, devs'. split.
    { apply Hinit. eapply bind_done; [exact Hrun|]. reflexivity. }
    cbn. split; [reflexivity|]. split; [reflexivity|].
    split; [apply lookup_insert_eq|]. split; [reflexivity|].
    split.
    + intros i Hi. destruct (Hbuilt i Hi) as (? & ? & _). done.
    + split; [|exact Hpol]. by destruct (cpuidle_state_table g').
  - exfalso. apply Exists_exists in Hex as (j & Hj & Hne).
    rewrite Forall_forall in Hall. exact (Hne (Hall j Hj)).
Qed.

Lemma intel_idle_init_success_witness :
  ∃ w' a devs,
    intel_idle_init four_cores initial_world = Done 0 w'
    ∧ driver_registered (krn w') = true
    ∧ intel_idle_cpuidle_devices (drv w') = PAddr a
    ∧ heap (krn w') !! a = Some (Live devs)
    ∧ cpuidle_registered (krn w')
      = list_to_set (online_cpus four_cores)
        ∪ cpuidle_registered (krn initial_world)
    ∧ (∀ i, i ∈ online_cpus four_cores →
          registered (dev_of devs i) = true ∧ cpu (dev_of devs i) = i)
    ∧ cpuidle_state_table (drv w') ≠ NoTable
    ∧ choose_substate (drv w') ≠ NoPolicy.
Proof.
  apply (intel_idle_init_success four_cores initial_world).
  - supported_machine.
  - reflexivity.
  - reflexivity.
  - intros j _. apply not_elem_of_empty.
  - apply Forall_forall. intros j _. reflexivity.
Defined.

(** X7: when the registration of some core's device fails,
    [intel_idle_init] returns [-EIO] with the driver unregistered again,
    the registry as before the call and the device block freed. *)
Theorem intel_idle_init_unwinds (pf : platform) (w : world) :
  supported pf w →
  register_driver_result pf = 0 →
  alloc_percpu_ok pf = true →
  (∀ j, j ∈ online_cpus pf → j ∉ cpuidle_registered (krn w)) →
  Exists (λ j, register_device_result pf j ≠ 0) (online_cpus pf) →
  ∃ w' a,
    intel_idle_init pf w = Done (- EIO) w'
    ∧ driver_registered (krn w') = false
    ∧ cpuidle_registered (krn w') = cpuidle_registered (krn w)
    ∧ intel_idle_cpuidle_devices (drv w') = PAddr a
    ∧ heap (krn w') !! a = Some Freed.
Proof.
  intros Hsup Hdrv Hok Hfree Hfail.
  destruct w as [g [h reg dr irq rr cr tr]].
  cbn [drv krn heap cpuidle_registered] in *.
  destruct (intel_idle_init_reaches_devices pf g h reg dr irq rr cr tr
              Hsup Hdrv) as (g' & tr' & rows & Hcat & Hpol & Hinit).
  destruct (devices_init_run pf rows g' h reg true irq rr cr tr' Hok Hcat
              Hfree)
    as (r & h' & reg' & tr'' & Hrun
        & [(_ & Hall & _)|(-> & _ & Hfreed & _ & Hreg)]).
  - exfalso. apply Exists_exists in Hfail as (j & Hj & Hne).
    rewrite Forall_forall in Hall. exact (Hne (Hall j Hj)).
  - eexists _, _. split.
    { apply Hinit. eapply bind_done; [exact Hrun|]. cbv beta.
      cbn [EIO Z.opp Z.eqb negb].
      eapply bind_done; [apply cpuidle_unregister_driver_run|]. reflexivity. }
    cbn. split; [reflexivity|]. split; [|split; [reflexivity|exact Hfreed]].
    apply set_eq. intros x. rewrite Hreg. split; [tauto|].
    intros Hx. split; [exact Hx|]. intros Hxo. exact (Hfree x Hxo Hx).
Qed.

Lemma intel_idle_init_unwinds_witness :
  ∃ w' a,
    intel_idle_init four_cores_one_failing initial_world = Done (- EIO) w'
    ∧ driver_registered (krn w') = false
    ∧ cpuidle_registered (krn w') = cpuidle_registered (krn initial_world)
    ∧ intel_idle_cpuidle_devices (drv w') = PAddr a
    ∧ heap (krn w') !! a = Some Freed.
Proof.
  apply (intel_idle_init_unwinds four_cores_one_failing initial_world).
  - supported_machine.
  - reflexivity.
  - reflexivity.
  - intros j _. apply not_elem_of_empty.
  - apply Exists_exists. exists 2%nat. split; [|discriminate].
    apply list_elem_of_further, list_elem_of_further, list_elem_of_here.
Defined.

Lemma devices_init_no_memory_run pf g h reg dr irq rr cr tr :
  alloc_percpu_ok pf = false →
  intel_idle_cpuidle_devices_init pf (World g h reg dr irq rr cr tr)
  = Done (- ENOMEM)
      (World (with_devices PNull g) h reg dr irq rr cr
         (tr ++ [EvAllocPercpu PNull])).
Proof.
  intros Hno.
  unfold intel_idle_cpuidle_devices_init, alloc_percpu, mbind, M_bind,
    get_krn, World.
  cbn. rewrite Hno. reflexivity.
Qed.

(** X8: when the per-cpu allocation fails, [intel_idle_init] returns
    [-ENOMEM] with the driver unregistered again, the device pointer null
    and no device registered or allocated. *)
Theorem intel_idle_init_no_memory (pf : platform) (w : world) :
  supported pf w →
  register_driver_result pf = 0 →
  alloc_percpu_ok pf = false →
  ∃ w',
    intel_idle_init pf w = Done (- ENOMEM) w'
    ∧ driver_registered (krn w') = false
    ∧ intel_idle_cpuidle_devices (drv w') = PNull
    ∧ heap (krn w') = heap (krn w)
    ∧ cpuidle_registered (krn w') = cpuidle_registered (krn w).
Proof.
  intros Hsup Hdrv Hno.
  destruct w as [g [h reg dr irq rr cr tr]].
  cbn [drv krn heap cpuidle_registered] in *.
  destruct (intel_idle_init_reaches_devices pf g h reg dr irq rr cr tr
              Hsup Hdrv) as (g' & tr' & rows & Hcat & Hpol & Hinit).
  eexists. split.
  { apply Hinit.
    eapply bind_done; [apply devices_init_no_memory_run, Hno|].
    cbv beta. cbn [ENOMEM Z.opp Z.eqb negb].
    eapply bind_done; [apply cpuidle_unregister_driver_run|]. reflexivity. }
  cbn. done.
Qed.

Lemma intel_idle_init_no_memory_witness :
  ∃ w',
    intel_idle_init (without_memory four_cores) initial_world
    = Done (- ENOMEM) w'
    ∧ driver_registered (krn w') = false
    ∧ intel_idle_cpuidle_devices (drv w') = PNull
    ∧ heap (krn w') = heap (krn initial_world)
    ∧ cpuidle_registered (krn w') = cpuidle_registered (krn initial_world).
Proof.
  apply (intel_idle_init_no_memory (without_memory four_cores) initial_world).
  - supported_machine.
  - reflexivity.
  - reflexivity.
Defined.

(** X9: when the framework already has a driver, [intel_idle_init] returns
    the framework's error after the probe and allocates and registers
    nothing. *)
Theorem intel_idle_init_yields (pf : platform) (w : world) :
  supported pf w →
  register_driver_result pf ≠ 0 →
  ∃ w',
    intel_idle_init pf w = Done (register_driver_result pf) w'
    ∧ driver_registered (krn w') = driver_registered (krn w)
    ∧ intel_idle_cpuidle_devices (drv w')
      = intel_idle_cpuidle_devices (drv w)
    ∧ heap (krn w') = heap (krn w)
    ∧ cpuidle_registered (krn w') = cpuidle_registered (krn w).
Proof.
  intros Hsup Hdrv.
  destruct w as [g [h reg dr irq rr cr tr]].
  cbn [drv krn heap cpuidle_registered driver_registered] in *.
  destruct (intel_idle_probe_supported_run pf g h reg dr irq rr cr tr Hsup)
    as (g' & tr' & rows & Hprobe & _ & _ & Hptr).
  apply Z.eqb_neq in Hdrv.
  eexists. split.
  { unfold intel_idle_init.
    eapply bind_done; [exact Hprobe|]. cbv beta. cbn [Z.eqb negb].
    eapply bind_done; [apply cpuidle_register_driver_run|]. cbv beta zeta.
    rewrite Hdrv. cbn [negb].
    eapply bind_done; [apply emit_run|]. reflexivity. }
  cbn. done.
Qed.

Lemma intel_idle_init_yields_witness :
  ∃ w',
    intel_idle_init (with_driver_result (- 16) four_cores) initial_world
    = Done (- 16) w'
    ∧ driver_registered (krn w') = driver_registered (krn initial_world)
    ∧ intel_idle_cpuidle_devices (drv w')
      = intel_idle_cpuidle_devices (drv initial_world)
    ∧ heap (krn w') = heap (krn initial_world)
    ∧ cpuidle_registered (krn w') = cpuidle_registered (krn initial_world).
Proof.
  apply (intel_idle_init_yields (with_driver_result (- 16) four_cores)
           initial_world).
  - supported_machine.
  - discriminate.
Defined.

(** X10: a successful [intel_idle_init] followed by [intel_idle_exit]
    returns with the driver unregistered, the registry as before the
    start and the device block freed. *)
Theorem intel_idle_init_exit (pf : platform) (w : world) :
  supported pf w →
  register_driver_result pf = 0 →
  alloc_percpu_ok pf = true →
  (∀ j, j ∈ online_cpus pf → j ∉ cpuidle_registered (krn w)) →
  Forall (λ j, register_device_result pf j = 0) (online_cpus pf) →
  ∃ w' a,
    (intel_idle_init pf;; intel_idle_exit pf) w = Done tt w'
    ∧ driver_registered (krn w') = false
    ∧ cpuidle_registered (krn w') = cpuidle_registered (krn w)
    ∧ intel_idle_cpuidle_devices (drv w') = PAddr a
    ∧ heap (krn w') !! a = Some Freed.
Proof.
  intros Hsup Hdrv Hok Hfree Hall.
  destruct w as [g [h reg dr irq rr cr tr]].
  cbn [drv krn heap cpuidle_registered] in *.
  destruct (intel_idle_init_reaches_devices pf g h reg dr irq rr cr tr
              Hsup Hdrv) as (g' & tr' & rows & Hcat & Hpol & Hinit).
  destruct (devices_init_run pf rows g' h reg true irq rr cr tr' Hok Hcat
              Hfree)
    as (r & h' & reg' & tr'' & Hrun
        & [(-> & _ & devs' & -> & _ & Hcons & -> & _ & _)
          |(-> & Hex & _)]).
  2: { exfalso. apply Exists_exists in Hex as (j & Hj & Hne).
       rewrite Forall_forall in Hall. exact (Hne (Hall j Hj)). }
  set (a := fresh (dom h)) in *.
  destruct (devices_uninit_run pf a (with_devices (PAddr a) g')
              (<[a := Live devs']> (<[a := Live ∅]> h)) devs'
              (list_to_set (online_cpus pf) ∪ reg) true irq rr cr tr''
              eq_refl)
    as (h' & reg' & tr3 & Huninit & Hfreed & _ & Hreg).
  { apply lookup_insert_eq. }
  { intros j Hj. apply (Hcons j Hj). }
  eexists _, a. split.
  { eapply bind_done.
    { apply Hinit. eapply bind_done; [exact Hrun|]. reflexivity. }
    cbv beta. unfold intel_idle_exit.
    eapply bind_done; [exact Huninit|]. cbv beta.
    apply cpuidle_unregister_driver_run. }
  cbn. split; [reflexivity|]. split; [|split; [reflexivity|exact Hfreed]].
  apply set_eq. intros x. rewrite Hreg, elem_of_union, elem_of_list_to_set.
  split.
  - intros [[Hx|Hx] Hn]; [|exact Hx]. exfalso. apply Hn.
    split; [exact Hx|]. apply (Hcons x Hx).
    apply elem_of_union. left. by apply elem_of_list_to_set.
  - intros Hx. split; [by right|]. intros [Hxo _]. exact (Hfree x Hxo Hx).
Qed.

Lemma intel_idle_init_exit_witness :
  ∃ w' a,
    (intel_idle_init four_cores;; intel_idle_exit four_cores) initial_world
    = Done tt w'
    ∧ driver_registered (krn w') = false
    ∧ cpuidle_registered (krn w') = cpuidle_registered (krn initial_world)
    ∧ intel_idle_cpuidle_devices (drv w') = PAddr a
    ∧ heap (krn w') !! a = Some Freed.
Proof.
  apply (intel_idle_init_exit four_cores initial_world).
  - supported_machine.
  - reflexivity.
  - reflexivity.
  - intros j _. apply not_elem_of_empty.
  - apply Forall_forall. intros j _. reflexivity.
Defined.

(** A call through [choose_substate] with a policy selected: the substate
    is below 15 and [power_policy] is at most clamped. *)
Lemma call_choose_substate_bounded (cstate : Z) g h reg dr irq rr cr tr :
  choose_substate g ≠ NoPolicy →
  ∃ sub pp,
    call_choose_substate cstate (World g h reg dr irq rr cr tr)
    = Done sub (World (with_power_policy pp g) h reg dr irq rr cr tr)
    ∧ 0 ≤ sub ≤ 14
    ∧ (pp = power_policy g ∨ pp = Z.land (power_policy g) 0xF).
Proof.
  intros Hpol. unfold call_choose_substate.
  destruct (choose_substate g) eqn:Epol; [done| |].
  - unfold choose_tunable_substate.
    pose proof (land_0xF_range
                  (Z.shiftr (substates g) (Z.land cstate 7 * 4))) as Hc.
    pose proof (land_0xF_range (power_policy g)) as Hpp.
    destruct (Z.land (Z.shiftr (substates g) (Z.land cstate 7 * 4))
                MWAIT_SUBSTATE_MASK <=? 1) eqn:Hle.
    + exists 0, (Z.land (power_policy g) 0xF). split; [|lia].
      eapply bind_done; [apply get_drv_run|]. cbv beta. rewrite Epol.
      eapply bind_done; [apply get_drv_run|]. cbv beta zeta.
      eapply bind_done; [apply modify_drv_run|]. cbv beta.
      rewrite Hle. reflexivity.
    + apply Z.leb_gt in Hle. unfold MWAIT_SUBSTATE_MASK in *.
      eexists _, (Z.land (power_policy g) 0xF). split; [|split; [|by right]].
      * eapply bind_done; [apply get_drv_run|]. cbv beta. rewrite Epol.
        eapply bind_done; [apply get_drv_run|]. cbv beta zeta.
        eapply bind_done; [apply modify_drv_run|]. cbv beta.
        unfold MWAIT_SUBSTATE_MASK.
        rewrite (proj2 (Z.leb_gt _ _) Hle). reflexivity.
      * rewrite tunable_formula_unwrapped by lia.
        pose proof (tunable_formula_range (Z.land (power_policy g) 15)
                      (Z.land (Z.shiftr (substates g) (Z.land cstate 7 * 4))
                         15) Hpp ltac:(lia)). lia.
  - exists 0, (power_policy g). split; [|split; [lia|by left]].
    eapply bind_done; [apply get_drv_run|]. cbv beta. rewrite Epol.
    destruct g; reflexivity.
Qed.

(** One call of [intel_idle] with a policy selected: the answer of the
    policy, the world the call ends in and the hint it waits with. *)
Lemma intel_idle_runs_policy pf state g h reg dr irq rr cr tr :
  choose_substate g ≠ NoPolicy →
  let unreliable :=
    Z.land (lapic_timer_reliable_states g)
      (Z.shiftl 1 (idle_cstate state)) =? 0 in
  let b1 := need_resched_sample pf rr in
  let b2 := need_resched_sample pf (S rr) in
  let t0 := ktime_sample pf cr in
  let t1 := ktime_sample pf (S cr) in
  ∃ sub pp,
    call_choose_substate (s32 (idle_cstate state))
      (World g h reg dr irq rr cr tr)
    = Done sub (World (with_power_policy pp g) h reg dr irq rr cr tr)
    ∧ 0 ≤ sub ≤ 14
    ∧ (pp = power_policy g ∨ pp = Z.land (power_policy g) 0xF)
    ∧ intel_idle pf state (World g h reg dr irq rr cr tr)
      = Done (s32 (ktime_to_us (ktime_sub t1 t0)))
          (World (with_power_policy pp g) h reg dr true
             (if b1 then S rr else S (S rr)) (S (S cr))
             (tr ++ idle_entry_events pf unreliable t0
                      (u64 (u64 (driver_data state) + sub))
                 ++ idle_wait_events b1 b2
                      (u64 (u64 (driver_data state) + sub))
                 ++ idle_exit_events pf unreliable t1)).
Proof.
  intros Hpol. cbv zeta.
  destruct (call_choose_substate_bounded (s32 (idle_cstate state))
              g h reg dr irq rr cr tr Hpol)
    as (sub & pp & Hsub & Hrange & Hpp).
  exists sub, pp. split; [exact Hsub|]. split; [exact Hrange|].
  split; [exact Hpp|].
  unfold idle_entry_events, idle_wait_events, idle_exit_events.
  destruct (Z.land (lapic_timer_reliable_states g)
              (Z.shiftl 1 (idle_cstate state)) =? 0) eqn:Hu,
    (built_as_module pf) eqn:Hm,
    (need_resched_sample pf rr) eqn:H1,
    (need_resched_sample pf (S rr)) eqn:H2.
  all: etrans;
    [unfold intel_idle; cbv zeta; fold (idle_cstate state);
     eapply bind_done; [exact Hsub|]; cbv beta; run|].
  all: cbn [app]; rewrite <- ?app_assoc; reflexivity.
Qed.

(** One call of [intel_idle] with a policy selected: the world it ends in
    and the hint it waits with. *)
Lemma intel_idle_runs_full pf state g h reg dr irq rr cr tr :
  choose_substate g ≠ NoPolicy →
  let unreliable :=
    Z.land (lapic_timer_reliable_states g)
      (Z.shiftl 1 (idle_cstate state)) =? 0 in
  let b1 := need_resched_sample pf rr in
  let b2 := need_resched_sample pf (S rr) in
  let t0 := ktime_sample pf cr in
  let t1 := ktime_sample pf (S cr) in
  ∃ sub pp,
    0 ≤ sub ≤ 14
    ∧ (pp = power_policy g ∨ pp = Z.land (power_policy g) 0xF)
    ∧ intel_idle pf state (World g h reg dr irq rr cr tr)
      = Done (s32 (ktime_to_us (ktime_sub t1 t0)))
          (World (with_power_policy pp g) h reg dr true
             (if b1 then S rr else S (S rr)) (S (S cr))
             (tr ++ idle_entry_events pf unreliable t0
                      (u64 (u64 (driver_data state) + sub))
                 ++ idle_wait_events b1 b2
                      (u64 (u64 (driver_data state) + sub))
                 ++ idle_exit_events pf unreliable t1)).
Proof.
  intros Hpol. cbv zeta.
  destruct (intel_idle_runs_policy pf state g h reg dr irq rr cr tr Hpol)
    as (sub & pp & _ & Hrange & Hpp & Hrun).
  exists sub, pp. done.
Qed.

(** X11: [intel_idle] writes none of the driver's statics except
    [power_policy], which at most loses its high bits; in particular the
    reliable-timer mask, the catalog and the policy are as the probe left
    them. It leaves the per-cpu storage and the registry alone and reads
    the clock exactly twice. *)
Theorem intel_idle_frame (pf : platform) (state : cpuidle_state) (w : world) :
  choose_substate (drv w) ≠ NoPolicy →
  ∃ r w',
    intel_idle pf state w = Done r w'
    ∧ lapic_timer_reliable_states (drv w')
      = lapic_timer_reliable_states (drv w)
    ∧ substates (drv w') = substates (drv w)
    ∧ max_cstate (drv w') = max_cstate (drv w)
    ∧ cpuidle_state_table (drv w') = cpuidle_state_table (drv w)
    ∧ choose_substate (drv w') = choose_substate (drv w)
    ∧ intel_idle_cpuidle_devices (drv w')
      = intel_idle_cpuidle_devices (drv w)
    ∧ (power_policy (drv w') = power_policy (drv w)
       ∨ power_policy (drv w') = Z.land (power_policy (drv w)) 0xF)
    ∧ heap (krn w') = heap (krn w)
    ∧ cpuidle_registered (krn w') = cpuidle_registered (krn w)
    ∧ driver_registered (krn w') = driver_registered (krn w)
    ∧ clock_reads (krn w') = S (S (clock_reads (krn w))).
Proof.
  intros Hpol. destruct w as [g [h reg dr irq rr cr tr]].
  cbn [drv krn] in Hpol.
  destruct (intel_idle_runs_full pf state g h reg dr irq rr cr tr Hpol)
    as (sub & pp & _ & Hpp & Hrun).
  eexists _, _. split; [exact Hrun|]. cbn. auto 12.
Qed.

Lemma intel_idle_frame_witness :
  ∃ r w',
    intel_idle four_cores (nehalem_row 2) westmere_world = Done r w'
    ∧ lapic_timer_reliable_states (drv w')
      = lapic_timer_reliable_states (drv westmere_world)
    ∧ substates (drv w') = substates (drv westmere_world)
    ∧ max_cstate (drv w') = max_cstate (drv westmere_world)
    ∧ cpuidle_state_table (drv w') = cpuidle_state_table (drv westmere_world)
    ∧ choose_substate (drv w') = choose_substate (drv westmere_world)
    ∧ intel_idle_cpuidle_devices (drv w')
      = intel_idle_cpuidle_devices (drv westmere_world)
    ∧ (power_policy (drv w') = power_policy (drv westmere_world)
       ∨ power_policy (drv w')
         = Z.land (power_policy (drv westmere_world)) 0xF)
    ∧ heap (krn w') = heap (krn westmere_world)
    ∧ cpuidle_registered (krn w') = cpuidle_registered (krn westmere_world)
    ∧ driver_registered (krn w') = driver_registered (krn westmere_world)
    ∧ clock_reads (krn w') = S (S (clock_reads (krn westmere_world))).
Proof.
  apply (intel_idle_frame four_cores (nehalem_row 2) westmere_world).
  discriminate.
Defined.

(** X12: [intel_idle] hands the tick to the broadcast timer exactly when the
    mask has no bit for the row's depth, and then hands it back: the
    notification to enter comes right after interrupts are disabled, the
    one to exit right after they are enabled again, and there is no other
    notification. *)
Theorem intel_idle_broadcast_paired (pf : platform) (state : cpuidle_state)
    (w : world) :
  choose_substate (drv w) ≠ NoPolicy →
  let unreliable :=
    Z.land (lapic_timer_reliable_states (drv w))
      (Z.shiftl 1 (idle_cstate state)) =? 0 in
  let c := smp_processor_id pf in
  ∃ r w' mid,
    intel_idle pf state w = Done r w'
    ∧ trace (krn w')
      = trace (krn w)
        ++ EvIrqDisable :: (if unreliable then [EvBroadcastEnter c] else [])
        ++ mid
        ++ EvIrqEnable :: (if unreliable then [EvBroadcastExit c] else [])
    ∧ ∀ e, e ∈ mid →
        e ≠ EvIrqDisable ∧ e ≠ EvIrqEnable
        ∧ (∀ c', e ≠ EvBroadcastEnter c') ∧ (∀ c', e ≠ EvBroadcastExit c').
Proof.
  intros Hpol unreliable c. destruct w as [g [h reg dr irq rr cr tr]].
  cbn [drv krn trace] in *.
  destruct (intel_idle_runs_full pf state g h reg dr irq rr cr tr Hpol)
    as (sub & pp & _ & _ & Hrun).
  cbv zeta in Hrun. fold unreliable in Hrun.
  unfold idle_entry_events, idle_wait_events, idle_exit_events in Hrun.
  fold c in Hrun.
  eexists _, _,
    ([EvKtimeGet (ktime_sample pf cr); EvStopCriticalTimings]
     ++ (if built_as_module pf then []
         else [EvTracePowerStart
                 (Z.shiftr (u64 (u64 (driver_data state) + sub)) 4 + 1)])
     ++ idle_wait_events (need_resched_sample pf rr)
          (need_resched_sample pf (S rr))
          (u64 (u64 (driver_data state) + sub))
     ++ [EvStartCriticalTimings; EvKtimeGet (ktime_sample pf (S cr))]).
  split; [exact Hrun|]. split.
  - cbn [trace krn World]. f_equal. unfold idle_wait_events.
    destruct unreliable, (built_as_module pf); cbn [app];
      rewrite <- ?app_assoc; cbn [app]; reflexivity.
  - intros e He.
    unfold idle_wait_events in He.
    destruct (built_as_module pf), (need_resched_sample pf rr),
      (need_resched_sample pf (S rr)); cbn [app] in He;
      repeat (apply elem_of_cons in He as [->|He]; [by repeat split|]);
      by apply elem_of_nil in He.
Qed.

Lemma intel_idle_broadcast_paired_witness :
  ∃ r w' mid,
    intel_idle four_cores (nehalem_row 2) nehalem_world = Done r w'
    ∧ trace (krn w')
      = trace (krn nehalem_world)
        ++ EvIrqDisable :: [EvBroadcastEnter 0%nat]
        ++ mid
        ++ EvIrqEnable :: [EvBroadcastExit 0%nat]
    ∧ ∀ e, e ∈ mid →
        e ≠ EvIrqDisable ∧ e ≠ EvIrqEnable
        ∧ (∀ c', e ≠ EvBroadcastEnter c') ∧ (∀ c', e ≠ EvBroadcastExit c').
Proof.
  apply (intel_idle_broadcast_paired four_cores (nehalem_row 2)
           nehalem_world).
  discriminate.
Defined.

Lemma idle_cstate_range (state : cpuidle_state) :
  1 ≤ idle_cstate state ≤ 16.
Proof.
  unfold idle_cstate, MWAIT_CSTATE_MASK.
  pose proof (land_0xF_range
                (Z.shiftr (u64 (driver_data state)) MWAIT_SUBSTATE_SIZE)) as H.
  rewrite u32_small; [lia|].
  destruct two_pow_values as [_ ->]. lia.
Qed.

Lemma all_ones_bit (c : Z) :
  0 ≤ c < 32 → Z.land 0xFFFFFFFF (Z.shiftl 1 c) ≠ 0.
Proof.
  intros Hc. rewrite Z.shiftl_1_l, Z.land_comm.
  change 0xFFFFFFFF with (Z.ones 32). rewrite Z.land_ones by lia.
  assert (0 < 2 ^ c < 2 ^ 32).
  { split; [apply Z.pow_pos_nonneg; lia|apply Z.pow_lt_mono_r; lia]. }
  rewrite Z.mod_small; lia.
Qed.

(** X13: with the all-ones mask the probe sets for an always-reliable timer,
    [intel_idle] never notifies the broadcast timer, whatever row it is
    given. *)
Theorem intel_idle_always_reliable (pf : platform) (state : cpuidle_state)
    (w : world) :
  choose_substate (drv w) ≠ NoPolicy →
  lapic_timer_reliable_states (drv w) = 0xFFFFFFFF →
  ∃ r w' evs,
    intel_idle pf state w = Done r w'
    ∧ trace (krn w') = trace (krn w) ++ evs
    ∧ ∀ c, (EvBroadcastEnter c ∉ evs) ∧ (EvBroadcastExit c ∉ evs).
Proof.
  intros Hpol Hmask. destruct w as [g [h reg dr irq rr cr tr]].
  cbn [drv krn trace] in *.
  destruct (intel_idle_runs_full pf state g h reg dr irq rr cr tr Hpol)
    as (sub & pp & _ & _ & Hrun).
  cbv zeta in Hrun. rewrite Hmask in Hrun.
  pose proof (idle_cstate_range state) as Hc.
  rewrite (proj2 (Z.eqb_neq _ _) (all_ones_bit (idle_cstate state) ltac:(lia))) in Hrun.
  eexists _, _, _. split; [exact Hrun|]. split; [reflexivity|].
  unfold idle_entry_events, idle_wait_events, idle_exit_events.
  intros c.
  destruct (built_as_module pf), (need_resched_sample pf rr),
    (need_resched_sample pf (S rr)); cbn [app];
    split; intros He;
    repeat (apply elem_of_cons in He as [He|He]; [discriminate He|]);
    by apply elem_of_nil in He.
Qed.

Lemma intel_idle_always_reliable_witness :
  ∃ r w' evs,
    intel_idle four_cores (nehalem_row 3) westmere_world = Done r w'
    ∧ trace (krn w') = trace (krn westmere_world) ++ evs
    ∧ ∀ c, (EvBroadcastEnter c ∉ evs) ∧ (EvBroadcastExit c ∉ evs).
Proof.
  apply (intel_idle_always_reliable four_cores (nehalem_row 3)
           westmere_world).
  - discriminate.
  - reflexivity.
Defined.

(** X14: the hint [intel_idle] waits with is the row's [driver_data]
    plus the substate that the call through [choose_substate] answers for
    the row's depth, and [ecx] is 1: for a row whose [driver_data] has its
    low four bits clear, those bits of the hint are that substate and the
    depth field of the hint is the row's.  When both readings of the
    reschedule flag are clear, the wait with this hint is issued. *)
Theorem intel_idle_mwait_hint (pf : platform) (state : cpuidle_state)
    (w : world) :
  choose_substate (drv w) ≠ NoPolicy →
  0 ≤ driver_data state < 2 ^ 32 →
  Z.land (driver_data state) 0xF = 0 →
  ∃ sub w0 r w' evs,
    call_choose_substate (s32 (idle_cstate state)) w = Done sub w0
    ∧ intel_idle pf state w = Done r w'
    ∧ trace (krn w') = trace (krn w) ++ evs
    ∧ (∀ eax ecx, EvMwait eax ecx ∈ evs →
         ecx = 1
         ∧ eax = driver_data state + sub
         ∧ Z.shiftr eax 4 = Z.shiftr (driver_data state) 4
         ∧ Z.land eax 0xF = sub
         ∧ 0 ≤ Z.land eax 0xF ≤ 14)
    ∧ (need_resched_sample pf (resched_reads (krn w)) = false →
       need_resched_sample pf (S (resched_reads (krn w))) = false →
       EvMwait (driver_data state + sub) 1 ∈ evs).
Proof.
  intros Hpol Hdata Hlow. destruct w as [g [h reg dr irq rr cr tr]].
  cbn [drv krn trace resched_reads] in *.
  destruct (intel_idle_runs_policy pf state g h reg dr irq rr cr tr Hpol)
    as (sub & pp & Hcall & Hsub & _ & Hrun).
  cbv zeta in Hrun.
  assert (E32 : 2 ^ 32 = 4294967296) by reflexivity.
  assert (E64 : 2 ^ 64 = 18446744073709551616) by reflexivity.
  rewrite E32 in Hdata.
  assert (Hhint : u64 (u64 (driver_data state) + sub)
                  = driver_data state + sub).
  { unfold u64. rewrite E64.
    rewrite (Z.mod_small (driver_data state)) by lia.
    apply Z.mod_small. lia. }
  rewrite Hhint in Hrun.
  eexists sub, _, _, _, _. split; [exact Hcall|]. split; [exact Hrun|].
  split; [reflexivity|]. split.
  - intros eax ecx Hin.
    apply elem_of_app in Hin as [Hin|Hin];
      [exfalso; exact (mwait_not_in_entry _ _ _ _ _ _ Hin)|].
    apply elem_of_app in Hin as [Hin|Hin];
      [|exfalso; exact (mwait_not_in_exit _ _ _ _ _ Hin)].
    apply mwait_in_wait in Hin as (_ & _ & -> & ->).
    split; [reflexivity|]. split; [reflexivity|].
    assert (Hd : driver_data state mod 16 = 0).
    { change 0xF with (Z.ones 4) in Hlow.
      rewrite Z.land_ones in Hlow by lia. exact Hlow. }
    rewrite !Z.shiftr_div_pow2 by lia. change (2 ^ 4) with 16.
    change (Z.land (driver_data state + sub) 15)
      with (Z.land (driver_data state + sub) (Z.ones 4)).
    rewrite Z.land_ones by lia. change (2 ^ 4) with 16.
    pose proof (Z.div_mod (driver_data state) 16 ltac:(lia)) as Hq.
    rewrite Hd in Hq.
    set (q := driver_data state / 16) in *.
    replace (driver_data state + sub) with (sub + q * 16) by lia.
    rewrite Z.div_add, Z_mod_plus_full by lia.
    rewrite Z.div_small, Z.mod_small by lia. lia.
  - intros H1 H2. rewrite H1, H2.
    apply elem_of_app. right. apply elem_of_app. left.
    unfold idle_wait_events. cbn [app].
    repeat first [apply list_elem_of_here | apply list_elem_of_further].
Qed.

Lemma intel_idle_mwait_hint_witness :
  ∃ sub w0 r w' evs,
    call_choose_substate (s32 (idle_cstate (nehalem_row 2))) westmere_world
    = Done sub w0
    ∧ intel_idle four_cores (nehalem_row 2) westmere_world = Done r w'
    ∧ trace (krn w') = trace (krn westmere_world) ++ evs
    ∧ (∀ eax ecx, EvMwait eax ecx ∈ evs →
         ecx = 1
         ∧ eax = driver_data (nehalem_row 2) + sub
         ∧ Z.shiftr eax 4 = Z.shiftr (driver_data (nehalem_row 2)) 4
         ∧ Z.land eax 0xF = sub
         ∧ 0 ≤ Z.land eax 0xF ≤ 14)
    ∧ (need_resched_sample four_cores
         (resched_reads (krn westmere_world)) = false →
       need_resched_sample four_cores
         (S (resched_reads (krn westmere_world))) = false →
       EvMwait (driver_data (nehalem_row 2) + sub) 1 ∈ evs).
Proof.
  apply (intel_idle_mwait_hint four_cores (nehalem_row 2) westmere_world).
  - discriminate.
  - vm_compute. split; [discriminate|reflexivity].
  - reflexivity.
Defined.

(** X15: in both catalogs every enabled row sits at a depth from 1 to 7,
    has a name, the TIME_VALID flag and a [driver_data] with clear low
    bits, and [intel_idle] derives from it the very depth it sits at: the
    mask bit and the substate count consulted when idling are those of
    the depth the row was registered for. *)
Theorem catalog_rows_consistent (t : table_ptr) (rows : list cpuidle_state)
    (idx : nat) (row : cpuidle_state) :
  catalog t = Some rows →
  rows !! idx = Some row →
  enter row ≠ None →
  idle_cstate row = Z.of_nat idx
  ∧ (1 ≤ idx ≤ 7)%nat
  ∧ name row ≠ ""
  ∧ flags row = CPUIDLE_FLAG_TIME_VALID
  ∧ 0 ≤ driver_data row < 2 ^ 32
  ∧ Z.land (driver_data row) 0xF = 0.
Proof.
  intros Hcat Hrow Henter.
  destruct t; [discriminate Hcat| |]; injection Hcat as <-.
  all: do 8 (destruct idx as [|idx];
             [injection Hrow as <-;
              first [by destruct Henter
                    | by (split; [reflexivity|]; split; [lia|];
                          split; [discriminate|]; done)]|]).
  all: discriminate Hrow.
Qed.

Lemma catalog_rows_consistent_witness :
  idle_cstate (nehalem_row 3) = 3
  ∧ (1 ≤ 3 ≤ 7)%nat
  ∧ name (nehalem_row 3) ≠ ""
  ∧ flags (nehalem_row 3) = CPUIDLE_FLAG_TIME_VALID
  ∧ 0 ≤ driver_data (nehalem_row 3) < 2 ^ 32
  ∧ Z.land (driver_data (nehalem_row 3)) 0xF = 0.
Proof.
  apply (catalog_rows_consistent NehalemTable nehalem_cstates 3
           (nehalem_row 3)).
  - reflexivity.
  - reflexivity.
  - discriminate.
Defined.

(** The value [intel_idle] returns for a clock difference [d] in
    nanoseconds that fits 32 bits of microseconds. *)
Lemma residency_value (d : Z) :
  0 ≤ d < 2 ^ 32 * 1000 →
  s32 (ktime_to_us (s64 d))
  = if d / 1000 <? 2 ^ 31 then d / 1000 else d / 1000 - 2 ^ 32.
Proof.
  assert (E31 : 2 ^ 31 = 2147483648) by reflexivity.
  assert (E32 : 2 ^ 32 = 4294967296) by reflexivity.
  assert (E63 : 2 ^ 63 = 9223372036854775808) by reflexivity.
  assert (E64 : 2 ^ 64 = 18446744073709551616) by reflexivity.
  rewrite E32. intros Hd.
  assert (Hs : s64 d = d).
  { unfold s64. rewrite E63, E64. rewrite Z.mod_small by lia. lia. }
  rewrite Hs. unfold ktime_to_us.
  assert (Hq : 0 ≤ d / 1000 < 4294967296).
  { split; [apply Z.div_pos; lia|]. apply Z.div_lt_upper_bound; lia. }
  set (q := d / 1000) in *. unfold s32. rewrite E31, E32.
  destruct (Z.ltb_spec q 2147483648).
  - rewrite Z.mod_small by lia. lia.
  - replace (q + 2147483648) with (q - 2147483648 + 1 * 4294967296) by lia.
    rewrite Z_mod_plus_full, Z.mod_small by lia. lia.
Qed.

(** X23: [intel_idle] returns the time between its two clock readings in
    whole microseconds as long as that is below 2^31; from 2^31
    microseconds on (about 36 minutes) the [int] it returns has wrapped
    and is negative. *)
Theorem intel_idle_residency (pf : platform) (state : cpuidle_state)
    (w : world) :
  choose_substate (drv w) ≠ NoPolicy →
  let t0 := ktime_sample pf (clock_reads (krn w)) in
  let t1 := ktime_sample pf (S (clock_reads (krn w))) in
  0 ≤ t1 - t0 < 2 ^ 32 * 1000 →
  ∃ r w',
    intel_idle pf state w = Done r w'
    ∧ (t1 - t0 < 2 ^ 31 * 1000 → r = (t1 - t0) / 1000 ∧ 0 ≤ r)
    ∧ (2 ^ 31 * 1000 ≤ t1 - t0 → r = (t1 - t0) / 1000 - 2 ^ 32 ∧ r < 0).
Proof.
  intros Hpol t0 t1 Hd. destruct w as [g [h reg dr irq rr cr tr]].
  cbn [drv krn clock_reads] in *.
  destruct (intel_idle_runs_full pf state g h reg dr irq rr cr tr Hpol)
    as (sub & pp & _ & _ & Hrun).
  cbv zeta in Hrun. fold t0 t1 in Hrun. unfold ktime_sub in Hrun.
  rewrite (residency_value (t1 - t0) Hd) in Hrun.
  eexists _, _. split; [exact Hrun|].
  assert (E31 : 2 ^ 31 = 2147483648) by reflexivity.
  assert (E32 : 2 ^ 32 = 4294967296) by reflexivity.
  rewrite E31, E32 in *.
  assert (Hq : 0 ≤ (t1 - t0) / 1000 < 4294967296).
  { split; [apply Z.div_pos; lia|]. apply Z.div_lt_upper_bound; lia. }
  split.
  - intros Hlt.
    assert ((t1 - t0) / 1000 < 2147483648)
      by (apply Z.div_lt_upper_bound; lia).
    destruct (Z.ltb_spec ((t1 - t0) / 1000) 2147483648); lia.
  - intros Hge.
    assert (2147483648 ≤ (t1 - t0) / 1000)
      by (apply Z.div_le_lower_bound; lia).
    destruct (Z.ltb_spec ((t1 - t0) / 1000) 2147483648); lia.
Qed.

Lemma intel_idle_residency_witness :
  ∃ r w',
    intel_idle long_sleep (nehalem_row 3) westmere_world = Done r w'
    ∧ (ktime_sample long_sleep 1 - ktime_sample long_sleep 0
       < 2 ^ 31 * 1000 →
       r = (ktime_sample long_sleep 1 - ktime_sample long_sleep 0) / 1000
       ∧ 0 ≤ r)
    ∧ (2 ^ 31 * 1000
       ≤ ktime_sample long_sleep 1 - ktime_sample long_sleep 0 →
       r = (ktime_sample long_sleep 1 - ktime_sample long_sleep 0) / 1000
           - 2 ^ 32
       ∧ r < 0).
Proof.
  apply (intel_idle_residency long_sleep (nehalem_row 3) westmere_world).
  - discriminate.
  - vm_compute. split; [discriminate|reflexivity].
Defined.

Lemma states_filled_exact_nothing rows a i devs d g h reg dr irq rr cr tr :
  h !! a = Some (Live devs) → devs !! i = Some d →
  length (states d) = CPUIDLE_STATE_MAX →
  states_filled_exact rows [] a i devs d g h reg dr irq rr cr
    (Done tt (World g h reg dr irq rr cr tr)).
Proof.
  intros Hlive Hdev Hlen. exists d, tr.
  rewrite (heap_insert_live_id h a devs i d Hlive Hdev).
  split; [reflexivity|]. split; [reflexivity|]. split; [reflexivity|].
  split; [assumption|]. split; [cbn [length]; lia|].
  split; [intros; reflexivity|]. intros k idx Hk. discriminate Hk.
Qed.

Lemma filter_usable_beyond g rows cstates :
  Forall (λ c, max_cstate g < c) cstates →
  List.filter (usable g rows) cstates = [].
Proof.
  induction 1 as [|c l Hc _ IH]; [reflexivity|].
  cbn [List.filter]. unfold usable at 1.
  rewrite (proj2 (Z.leb_gt _ _) Hc). exact IH.
Qed.

(** The inner loop copies exactly the usable depths, in order. *)
Lemma fill_states_exact pf a i rows :
  ∀ cstates g h devs d reg dr irq rr cr tr,
  catalog (cpuidle_state_table g) = Some rows →
  h !! a = Some (Live devs) → devs !! i = Some d →
  length (states d) = CPUIDLE_STATE_MAX →
  (state_count d + length cstates ≤ CPUIDLE_STATE_MAX)%nat →
  Forall (λ c, (Z.to_nat c < length rows)%nat) cstates →
  StronglySorted Z.lt cstates →
  states_filled_exact rows (List.filter (usable g rows) cstates)
    a i devs d g h reg dr irq rr cr
    (fill_states pf (PAddr a) i cstates (World g h reg dr irq rr cr tr)).
Proof.
  induction cstates as [|c rest IH];
    intros g h devs d reg dr irq rr cr tr Hcat Hlive Hdev Hlen Hcount
      Hrows Hsorted.
  - cbn [fill_states List.filter]. by apply states_filled_exact_nothing.
  - cbn [fill_states].
    apply Forall_cons in Hrows as [Hc Hrows].
    apply StronglySorted_inv in Hsorted as [Hsorted Hlt].
    cbn [length] in Hcount.
    eapply bind_post; [apply get_drv_run|]. cbv beta zeta.
    destruct (max_cstate g <? c) eqn:Hmax.
    { apply Z.ltb_lt in Hmax.
      rewrite filter_usable_beyond.
      - unfold printk. rewrite emit_run. by apply states_filled_exact_nothing.
      - constructor; [exact Hmax|].
        eapply Forall_impl; [exact Hlt|]. intros x Hx. cbv beta in Hx. lia. }
    apply Z.ltb_ge in Hmax.
    destruct (lookup_lt_is_Some_2 rows (Z.to_nat c) Hc) as [row Hrow].
    cbn [List.filter]. unfold usable at 1.
    rewrite (proj2 (Z.leb_le _ _) Hmax), Hrow. cbn [andb].
    destruct (Z.land _ MWAIT_SUBSTATE_MASK =? 0) eqn:Hsub; cbn [negb andb].
    { apply IH; auto with lia. }
    eapply bind_post; [eapply table_row_run; eassumption|]. cbv beta.
    destruct (enter row) eqn:Henter.
    2: { rewrite bool_decide_eq_false_2 by (intros H; by apply H).
         destruct (bool_decide (name row = "")).
         - eapply bind_post; [apply emit_run|]. apply IH; auto with lia.
         - eapply bind_post; [apply when_false_run|]. apply IH; auto with lia. }
    rewrite bool_decide_eq_true_2 by discriminate.
    set (d1 := with_states (<[state_count d := row]> (states d)) d).
    set (d2 := with_state_count (state_count d + 1)%nat d1).
    set (devs1 := <[i := d1]> devs).
    set (h1 := <[a := Live devs1]> h).
    set (devs2 := <[i := d2]> devs1).
    set (h2 := <[a := Live devs2]> h1).
    assert (Hlive1 : h1 !! a = Some (Live devs1)) by apply lookup_insert_eq.
    assert (Hlive2 : h2 !! a = Some (Live devs2)) by apply lookup_insert_eq.
    assert (Hdev2 : devs2 !! i = Some d2) by apply lookup_insert_eq.
    assert (Hih : ∀ tr1,
      states_filled_exact rows (List.filter (usable g rows) rest)
        a i devs2 d2 g h2 reg dr irq rr cr
        (fill_states pf (PAddr a) i rest (World g h2 reg dr irq rr cr tr1))).
    { intros tr1. apply IH; auto.
      - subst d2 d1. cbn. rewrite length_insert. exact Hlen.
      - subst d2 d1. cbn. lia. }
    destruct ((2 <? c) && negb (has_nonstop_tsc (boot_cpu_data pf)));
      [eapply bind_post; [apply emit_run|]
      |eapply bind_post; [apply when_false_run|]]; cbv beta.
    all: eapply bind_post; [apply load_dev_run, Hlive|]; cbv beta.
    all: rewrite (dev_of_lookup devs i d Hdev).
    all: rewrite bool_decide_eq_true_2
           by (unfold CPUIDLE_STATE_MAX in *; lia).
    all: eapply bind_post; [apply store_dev_run, Hlive|]; cbv beta.
    all: eapply bind_post; [apply load_dev_run, Hlive1|]; cbv beta.
    all: rewrite (dev_of_lookup devs1 i d1) by apply lookup_insert_eq.
    all: eapply bind_post; [apply store_dev_run, Hlive1|]; cbv beta.
    all: fold d2; fold devs2; fold h2.
    all: match goal with
         | |- states_filled_exact _ _ _ _ _ _ _ _ _ _ _ _ _
                (fill_states _ _ _ _ (World _ _ _ _ _ _ _ ?t)) =>
           destruct (Hih t)
             as (d' & tr' & Hrun & Hr & Hcpu & Hl & Hsc & Hpre & Hcp)
         end.
    all: exists d', tr'.
    all: split;
      [etrans; [exact Hrun|]; subst h2 h1 devs2 devs1;
       rewrite !insert_insert_eq; reflexivity|].
    all: subst d2 d1; cbn in Hr, Hcpu, Hsc, Hpre, Hcp.
    all: split; [exact Hr|]; split; [exact Hcpu|]; split; [exact Hl|].
    all: split; [cbn [length]; lia|].
    all: split;
      [intros m Hm; rewrite Hpre by lia; apply list_lookup_insert_ne; lia|].
    all: intros [|k] idx Hk;
      [injection Hk as <-; exists row;
       split; [exact Hrow|]; split; [congruence|];
       rewrite Nat.add_0_r, Hpre by lia;
       apply list_lookup_insert_eq; unfold CPUIDLE_STATE_MAX in *; lia
      |destruct (Hcp k idx Hk) as (row' & ? & ? & Hst);
       exists row'; split; [assumption|]; split; [assumption|];
       rewrite <- Hst; f_equal; lia].
Qed.

Lemma dev_of_placeholder devs i :
  block_placeholders devs → states (dev_of devs i) !! 0%nat = Some empty_state.
Proof.
  intros Hp. unfold dev_of. destruct (devs !! i) as [d|] eqn:Hd.
  - exact (Hp i d Hd).
  - reflexivity.
Qed.

Lemma block_placeholders_insert devs i d :
  block_placeholders devs → states d !! 0%nat = Some empty_state →
  block_placeholders (<[i := d]> devs).
Proof.
  intros Hp Hd j d' Hj. destruct (decide (i = j)) as [->|Hne].
  - rewrite lookup_insert_eq in Hj. by injection Hj as <-.
  - rewrite lookup_insert_ne in Hj by done. exact (Hp j d' Hj).
Qed.

(** The outer loop when every registration succeeds: each core it visits
    ends with a device holding exactly the usable rows. *)
Lemma init_cpus_exact pf a rows :
  ∀ cpus g h devs reg dr irq rr cr tr,
  intel_idle_cpuidle_devices g = PAddr a →
  catalog (cpuidle_state_table g) = Some rows →
  h !! a = Some (Live devs) →
  block_wf devs → block_placeholders devs →
  Forall (λ j, register_device_result pf j = 0) cpus →
  ∃ devs' reg' tr',
    init_cpus pf cpus (World g h reg dr irq rr cr tr)
    = Done 0 (World g (<[a := Live devs']> h) reg' dr irq rr cr tr')
    ∧ block_wf devs' ∧ block_placeholders devs'
    ∧ (∀ j, j ∈ cpus → device_exact g rows (dev_of devs' j) j)
    ∧ (∀ j, j ∉ cpus → devs' !! j = devs !! j).
Proof.
  induction cpus as [|i rest IH];
    intros g h devs reg dr irq rr cr tr Hptr Hcat Hlive Hwf Hph Hall.
  - exists devs, reg, tr. split; [by rewrite insert_id|].
    split; [exact Hwf|]. split; [exact Hph|].
    split; [intros j Hj; by apply elem_of_nil in Hj|done].
  - apply Forall_cons in Hall as [Hres Hall].
    set (d0 := dev_of devs i).
    set (dA := with_state_count 1 d0).
    destruct (fill_states_exact pf a i rows cstate_range g
                (<[a := Live (<[i := dA]> devs)]> h) (<[i := dA]> devs) dA
                reg dr irq rr cr tr Hcat)
      as (d' & tr1 & Hfill & Hr & Hcpu & Hl & Hsc & Hpre & Hcp).
    { apply lookup_insert_eq. }
    { apply lookup_insert_eq. }
    { apply (dev_of_length devs i Hwf). }
    { rewrite cstate_range_values. cbn. unfold CPUIDLE_STATE_MAX. lia. }
    { apply cstate_range_in_catalog, (catalog_length _ _ Hcat). }
    { apply cstate_range_sorted. }
    rewrite !insert_insert_eq in Hfill.
    fold (usable_cstates g rows) in Hsc, Hcp.
    set (dD := with_registered true (with_cpu i d')).
    assert (Hph' : states d' !! 0%nat = Some empty_state).
    { rewrite Hpre by (cbn; lia). apply (dev_of_placeholder devs i Hph). }
    destruct (IH g (<[a := Live (<[i := dD]> devs)]> h) (<[i := dD]> devs)
                ({[i]} ∪ reg) dr irq rr cr (tr1 ++ [EvRegisterDevice i 0])
                Hptr Hcat)
      as (devs' & reg' & tr' & Hrun & Hwf' & Hph'' & Hbuilt & Hsame).
    { apply lookup_insert_eq. }
    { apply block_wf_insert; [exact Hwf|]. exact Hl. }
    { apply block_placeholders_insert; [exact Hph|]. exact Hph'. }
    { exact Hall. }
    rewrite insert_insert_eq in Hrun.
    exists devs', reg', tr'. split.
    { cbn [init_cpus].
      eapply bind_done; [apply get_drv_run|]. cbv beta zeta. rewrite Hptr.
      eapply bind_done; [apply load_dev_run, Hlive|]. cbv beta.
      eapply bind_done; [apply store_dev_run, Hlive|]. cbv beta.
      eapply bind_done; [exact Hfill|]. cbv beta.
      eapply bind_done; [apply load_dev_run, lookup_insert_eq|]. cbv beta.
      rewrite dev_of_insert_eq.
      eapply bind_done; [apply store_dev_run, lookup_insert_eq|]. cbv beta.
      rewrite !insert_insert_eq.
      eapply bind_done;
        [apply (cpuidle_register_device_run g reg dr irq rr cr a
                  (<[i := with_cpu i d']> devs) pf), lookup_insert_eq|].
      cbv beta zeta. rewrite dev_of_insert_eq.
      change (cpu (with_cpu i d')) with i. rewrite Hres. cbn [Z.eqb negb].
      rewrite !insert_insert_eq. exact Hrun. }
    split; [exact Hwf'|]. split; [exact Hph''|]. split.
    + intros j Hj. destruct (decide (j ∈ rest)) as [Hjr|Hjr];
        [by apply Hbuilt|].
      apply elem_of_cons in Hj as [->|Hj]; [|done].
      unfold dev_of. rewrite (Hsame i Hjr), lookup_insert_eq.
      cbn [default from_option id].
      split; [reflexivity|]. split; [reflexivity|].
      split; [exact Hph'|]. split; [exact Hsc|exact Hcp].
    + intros j Hj. apply not_elem_of_cons in Hj as [Hne Hjr].
      rewrite (Hsame j Hjr). by rewrite lookup_insert_ne.
Qed.

(** Device initialisation when every registration succeeds, with the
    contents of each device. *)
Lemma devices_init_exact_run (pf : platform) (w : world)
    (rows : list cpuidle_state) :
  alloc_percpu_ok pf = true →
  catalog (cpuidle_state_table (drv w)) = Some rows →
  Forall (λ j, register_device_result pf j = 0) (online_cpus pf) →
  ∃ w' a devs,
    intel_idle_cpuidle_devices_init pf w = Done 0 w'
    ∧ intel_idle_cpuidle_devices (drv w') = PAddr a
    ∧ heap (krn w') !! a = Some (Live devs)
    ∧ ∀ i, i ∈ online_cpus pf →
        device_exact (drv w) rows (dev_of devs i) i.
Proof.
  intros Hok Hcat Hall. destruct w as [g [h reg dr irq rr cr tr]].
  cbn [drv krn] in *.
  set (a := fresh (dom h)).
  destruct (init_cpus_exact pf a rows (online_cpus pf)
              (with_devices (PAddr a) g) (<[a := Live ∅]> h) ∅ reg dr irq
              rr cr (tr ++ [EvAllocPercpu (PAddr a)]) eq_refl Hcat)
    as (devs' & reg' & tr' & Hrun & _ & _ & Hbuilt & _).
  { apply lookup_insert_eq. }
  { intros j d Hj. rewrite lookup_empty in Hj. discriminate Hj. }
  { intros j d Hj. rewrite lookup_empty in Hj. discriminate Hj. }
  { exact Hall. }
  rewrite insert_insert_eq in Hrun.
  eexists _, a, devs'. split.
  { unfold intel_idle_cpuidle_devices_init.
    eapply bind_done; [apply (alloc_percpu_run pf), Hok|]. cbv beta.
    eapply bind_done; [apply modify_drv_run|]. cbv beta. exact Hrun. }
  split; [reflexivity|]. split; [apply lookup_insert_eq|].
  intros i Hi. apply (Hbuilt i Hi).
Qed.

Lemma usable_cstates_none g rows :
  max_cstate g < 1 → usable_cstates g rows = [].
Proof.
  intros Hmax. unfold usable_cstates. apply filter_usable_beyond.
  rewrite cstate_range_values. repeat (constructor; [lia|]). constructor.
Qed.

Lemma usable_cstates_spec g rows c :
  c ∈ usable_cstates g rows ↔ c ∈ cstate_range ∧ usable g rows c = true.
Proof.
  unfold usable_cstates. rewrite !list_elem_of_In. apply filter_In.
Qed.

Lemma filter_sorted (f : Z → bool) (l : list Z) :
  StronglySorted Z.lt l → StronglySorted Z.lt (List.filter f l).
Proof.
  induction 1 as [|a l Hs IH Hall]; simpl; [constructor|].
  destruct (f a); [|exact IH]. constructor; [exact IH|].
  apply Forall_forall. intros x Hx. apply list_elem_of_In, filter_In in Hx.
  rewrite Forall_forall in Hall. apply Hall, list_elem_of_In, Hx.
Qed.

Lemma cstate_range_bounds (c : Z) : c ∈ cstate_range ↔ 1 ≤ c ≤ 7.
Proof.
  rewrite cstate_range_values. split.
  - intros H. repeat (apply elem_of_cons in H as [->|H]; [lia|]).
    by apply elem_of_nil in H.
  - intros H.
    assert (c = 1 ∨ c = 2 ∨ c = 3 ∨ c = 4 ∨ c = 5 ∨ c = 6 ∨ c = 7)
      as [->|[->|[->|[->|[->|[->| ->]]]]]] by lia;
      repeat first [apply list_elem_of_here | apply list_elem_of_further].
Qed.

Lemma usable_true (g : globals) (rows : list cpuidle_state) (c : Z) :
  usable g rows c = true
  ↔ c ≤ max_cstate g
    ∧ Z.land (Z.shiftr (substates g) (c * 4)) MWAIT_SUBSTATE_MASK ≠ 0
    ∧ ∃ row, rows !! Z.to_nat c = Some row ∧ enter row ≠ None.
Proof.
  unfold usable. rewrite !andb_true_iff, Z.leb_le, negb_true_iff, Z.eqb_neq.
  destruct (rows !! Z.to_nat c) as [row|].
  - rewrite bool_decide_eq_true. split.
    + intros [[H1 H2] H3]. eauto.
    + intros (H1 & H2 & row' & E & H3). injection E as ->. done.
  - split; [intros [_ H]; discriminate H|].
    intros (_ & _ & row & E & _). discriminate E.
Qed.

(** X16: after a successful device initialisation every online core's
    device holds, after the zeroed placeholder in slot 0, exactly the
    catalog rows of the usable depths - from 1 to 7, within [max_cstate],
    listed by the hardware in [substates], enabled in the catalog - in
    ascending order, and [state_count] is one more than their number. *)
Theorem devices_init_states_exact (pf : platform) (w : world)
    (rows : list cpuidle_state) :
  alloc_percpu_ok pf = true →
  catalog (cpuidle_state_table (drv w)) = Some rows →
  Forall (λ j, register_device_result pf j = 0) (online_cpus pf) →
  ∃ w' a devs idxs,
    intel_idle_cpuidle_devices_init pf w = Done 0 w'
    ∧ intel_idle_cpuidle_devices (drv w') = PAddr a
    ∧ heap (krn w') !! a = Some (Live devs)
    ∧ StronglySorted Z.lt idxs
    ∧ (∀ c, c ∈ idxs ↔
         1 ≤ c ≤ 7 ∧ c ≤ max_cstate (drv w)
         ∧ Z.land (Z.shiftr (substates (drv w)) (c * 4)) MWAIT_SUBSTATE_MASK
           ≠ 0
         ∧ ∃ row, rows !! Z.to_nat c = Some row ∧ enter row ≠ None)
    ∧ ∀ i, i ∈ online_cpus pf →
        registered (dev_of devs i) = true
        ∧ cpu (dev_of devs i) = i
        ∧ states (dev_of devs i) !! 0%nat = Some empty_state
        ∧ rows_copied rows (dev_of devs i) idxs.
Proof.
  intros Hok Hcat Hall.
  destruct (devices_init_exact_run pf w rows Hok Hcat Hall)
    as (w' & a & devs & Hrun & Hptr & Hlive & Hdev).
  exists w', a, devs, (usable_cstates (drv w) rows).
  split; [exact Hrun|]. split; [exact Hptr|]. split; [exact Hlive|].
  split; [apply filter_sorted, cstate_range_sorted|].
  split; [|exact Hdev].
  intros c. rewrite usable_cstates_spec, cstate_range_bounds, usable_true.
  tauto.
Qed.

Lemma devices_init_states_exact_witness :
  ∃ w' a devs idxs,
    intel_idle_cpuidle_devices_init four_cores westmere_world = Done 0 w'
    ∧ intel_idle_cpuidle_devices (drv w') = PAddr a
    ∧ heap (krn w') !! a = Some (Live devs)
    ∧ StronglySorted Z.lt idxs
    ∧ (∀ c, c ∈ idxs ↔
         1 ≤ c ≤ 7 ∧ c ≤ max_cstate (drv westmere_world)
         ∧ Z.land (Z.shiftr (substates (drv westmere_world)) (c * 4))
             MWAIT_SUBSTATE_MASK ≠ 0
         ∧ ∃ row, nehalem_cstates !! Z.to_nat c = Some row
                  ∧ enter row ≠ None)
    ∧ ∀ i, i ∈ online_cpus four_cores →
        registered (dev_of devs i) = true
        ∧ cpu (dev_of devs i) = i
        ∧ states (dev_of devs i) !! 0%nat = Some empty_state
        ∧ rows_copied nehalem_cstates (dev_of devs i) idxs.
Proof.
  apply (devices_init_states_exact four_cores westmere_world nehalem_cstates).
  - reflexivity.
  - reflexivity.
  - apply Forall_forall. intros j _. reflexivity.
Defined.

(** X17: with a negative [max_cstate] no depth is usable: device
    initialisation still succeeds and registers every online core, each
    with a device whose only state is the placeholder. *)
Theorem devices_init_negative_max_cstate (pf : platform) (w : world)
    (rows : list cpuidle_state) :
  max_cstate (drv w) < 0 →
  alloc_percpu_ok pf = true →
  catalog (cpuidle_state_table (drv w)) = Some rows →
  Forall (λ j, register_device_result pf j = 0) (online_cpus pf) →
  ∃ w' a devs,
    intel_idle_cpuidle_devices_init pf w = Done 0 w'
    ∧ heap (krn w') !! a = Some (Live devs)
    ∧ ∀ i, i ∈ online_cpus pf →
        registered (dev_of devs i) = true
        ∧ state_count (dev_of devs i) = 1%nat
        ∧ states (dev_of devs i) !! 0%nat = Some empty_state.
Proof.
  intros Hneg Hok Hcat Hall.
  destruct (devices_init_exact_run pf w rows Hok Hcat Hall)
    as (w' & a & devs & Hrun & _ & Hlive & Hdev).
  exists w', a, devs. split; [exact Hrun|]. split; [exact Hlive|].
  intros i Hi. destruct (Hdev i Hi) as (Hreg & _ & Hslot & Hcount & _).
  rewrite usable_cstates_none in Hcount by lia. done.
Qed.

Lemma devices_init_negative_max_cstate_witness :
  ∃ w' a devs,
    intel_idle_cpuidle_devices_init four_cores negative_depth_world
    = Done 0 w'
    ∧ heap (krn w') !! a = Some (Live devs)
    ∧ ∀ i, i ∈ online_cpus four_cores →
        registered (dev_of devs i) = true
        ∧ state_count (dev_of devs i) = 1%nat
        ∧ states (dev_of devs i) !! 0%nat = Some empty_state.
Proof.
  apply (devices_init_negative_max_cstate four_cores negative_depth_world
           nehalem_cstates).
  - simpl. lia.
  - reflexivity.
  - reflexivity.
  - apply Forall_forall. intros j _. reflexivity.
Defined.

(** * Properties of kgdb *)

Lemma write_reg_Some (i : nat) (v : Z) (g : list Z) :
  (i < length g)%nat → write_reg i v g = Some (<[i := v]> g).
Proof. intros H. unfold write_reg. by rewrite decide_True. Qed.

Lemma zero_regs_spec (count : nat) :
  ∀ (from : nat) (g : list Z),
  (from + count ≤ length g)%nat →
  ∃ g', zero_regs from count g = Some g'
    ∧ length g' = length g
    ∧ ∀ i, g' !! i
           = if decide (from ≤ i < from + count)%nat then Some 0
             else g !! i.
Proof.
  induction count as [|count IH]; intros from g Hlen.
  - exists g. split; [reflexivity|]. split; [reflexivity|].
    intros i. rewrite decide_False by lia. reflexivity.
  - cbn [zero_regs]. rewrite write_reg_Some by lia. cbn.
    destruct (IH (S from) (<[from := 0]> g)) as (g' & Hrun & Hl & Hlook).
    { rewrite length_insert. lia. }
    exists g'. split; [exact Hrun|]. rewrite length_insert in Hl.
    split; [exact Hl|]. intros i. rewrite Hlook.
    destruct (decide (i = from)) as [->|Hne].
    + rewrite decide_False, decide_True by lia.
      apply list_lookup_insert_eq. lia.
    + rewrite list_lookup_insert_ne by done.
      destruct (decide (S from ≤ i < S from + count)%nat);
        [rewrite decide_True by lia|rewrite decide_False by lia]; reflexivity.
Qed.

Lemma write_regs_spec (lay : gdb_layout) (l : list (gdb_reg * Z)) :
  ∀ (g : list Z),
  (∀ r, (gdb_index lay r < length g)%nat) →
  ∃ g', write_regs lay l g = Some g'
    ∧ length g' = length g
    ∧ (∀ i, (∀ r v, (r, v) ∈ l → gdb_index lay r ≠ i) → g' !! i = g !! i)
    ∧ (NoDup l.*1 →
       (∀ r r', gdb_index lay r = gdb_index lay r' → r = r') →
       ∀ r v, (r, v) ∈ l → g' !! gdb_index lay r = Some v).
Proof.
  induction l as [|[r0 v0] l IH]; intros g Hidx.
  - exists g. split; [reflexivity|]. split; [reflexivity|].
    split; [reflexivity|]. intros _ _ r v Hin. by apply elem_of_nil in Hin.
  - cbn [write_regs]. rewrite write_reg_Some by apply Hidx. cbn.
    destruct (IH (<[gdb_index lay r0 := v0]> g)) as (g' & Hrun & Hl & Ho & Hw).
    { intros r. rewrite length_insert. apply Hidx. }
    exists g'. split; [exact Hrun|]. rewrite length_insert in Hl.
    split; [exact Hl|]. split.
    + intros i Hi. rewrite Ho.
      * apply list_lookup_insert_ne. apply (Hi r0 v0), list_elem_of_here.
      * intros r v Hin. apply (Hi r v). by apply list_elem_of_further.
    + intros Hnd Hinj r v Hin. cbn in Hnd. apply NoDup_cons in Hnd as [Hr0 Hnd].
      apply elem_of_cons in Hin as [E|Hin].
      * injection E as -> ->. rewrite Ho.
        -- apply list_lookup_insert_eq, Hidx.
        -- intros r v Hin E. apply Hinj in E as ->. apply Hr0.
           apply list_elem_of_fmap. by exists (r0, v).
      * by apply Hw.
Qed.

Lemma reg_values_names (regs : pt_regs) : NoDup (reg_values regs).*1.
Proof. apply (bool_decide_unpack _). by vm_compute. Qed.

Lemma reg_values_complete (regs : pt_regs) (r : gdb_reg) :
  (r, kernel_reg regs r) ∈ reg_values regs.
Proof.
  destruct r; cbn;
    repeat first [apply list_elem_of_here | apply list_elem_of_further].
Qed.

(** Discharge [layout_ok] on a concrete layout. *)
Ltac layout_checked :=
  split; [intros [] []; simpl; intros E; first [reflexivity | discriminate E]
         |split; [intros []; simpl; lia | simpl; lia]].

(** Zeroing the first [n] slots and then storing a register set. *)
Lemma zero_then_write_spec (lay : gdb_layout) (n : nat) (g : list Z)
    (regs : pt_regs) :
  layout_ok lay → length g = GDB_MAX_REGS lay → (n ≤ GDB_MAX_REGS lay)%nat →
  ∃ g',
    (g0 ← zero_regs 0 n g; write_regs lay (reg_values regs) g0) = Some g'
    ∧ length g' = length g
    ∧ (∀ r, g' !! gdb_index lay r = Some (kernel_reg regs r))
    ∧ (∀ i, (∀ r, gdb_index lay r ≠ i) →
            g' !! i = if decide (i < n)%nat then Some 0 else g !! i).
Proof.
  intros (Hinj & Hidx & _) Hlen Hn.
  destruct (zero_regs_spec n 0 g) as (g0 & Hz & Hl0 & Hlook0); [lia|].
  destruct (write_regs_spec lay (reg_values regs) g0)
    as (g' & Hw & Hl & Hother & Hnamed).
  { intros r. rewrite Hl0, Hlen. apply Hidx. }
  exists g'. split; [rewrite Hz; exact Hw|]. split; [congruence|]. split.
  - intros r. apply (Hnamed (reg_values_names regs) Hinj).
    apply reg_values_complete.
  - intros i Hi. rewrite Hother by (intros r v _; apply Hi).
    rewrite Hlook0. destruct (decide (i < n)%nat);
      [rewrite decide_True by lia|rewrite decide_False by lia]; reflexivity.
Qed.

Lemma gdb_regs_to_pt_regs_named (lay : gdb_layout) (g : list Z)
    (f : gdb_reg → Z) (regs : pt_regs) :
  (∀ r, g !! gdb_index lay r = Some (f r)) →
  gdb_regs_to_pt_regs lay g regs
  = Some {| ARM_r0 := f _R0; ARM_r1 := f _R1; ARM_r2 := f _R2;
            ARM_r3 := f _R3; ARM_r4 := f _R4; ARM_r5 := f _R5;
            ARM_r6 := f _R6; ARM_r7 := f _R7; ARM_r8 := f _R8;
            ARM_r9 := f _R9; ARM_r10 := f _R10; ARM_fp := f _FP;
            ARM_ip := f _IP; ARM_sp := f _SPT; ARM_lr := f _LR;
            ARM_pc := f _PC; ARM_cpsr := f _CPSR;
            ARM_ORIG_r0 := ARM_ORIG_r0 regs |}.
Proof.
  intros H. unfold gdb_regs_to_pt_regs. rewrite !H. reflexivity.
Qed.

(** X18: copying kernel registers into the debugger's buffer and back gives
    the same seventeen registers; [ARM_ORIG_r0], which has no slot, is
    that of the registers written to. *)
Theorem pt_regs_round_trip (lay : gdb_layout) (gdb_regs : list Z)
    (kernel_regs target : pt_regs) :
  layout_ok lay →
  length gdb_regs = GDB_MAX_REGS lay →
  ∃ g',
    pt_regs_to_gdb_regs lay gdb_regs kernel_regs = Some g'
    ∧ length g' = length gdb_regs
    ∧ gdb_regs_to_pt_regs lay g' target
      = Some (with_ORIG_r0 (ARM_ORIG_r0 target) kernel_regs)
    ∧ gdb_regs_to_pt_regs lay g' kernel_regs = Some kernel_regs.
Proof.
  intros Hlay Hlen.
  destruct (zero_then_write_spec lay (GDB_MAX_REGS lay) gdb_regs kernel_regs
              Hlay Hlen (le_n _)) as (g' & Hrun & Hl & Hnamed & _).
  exists g'. split; [exact Hrun|]. split; [exact Hl|].
  rewrite !(gdb_regs_to_pt_regs_named lay g' (kernel_reg kernel_regs))
    by exact Hnamed.
  split; [reflexivity|]. by destruct kernel_regs.
Qed.

Lemma pt_regs_round_trip_witness :
  ∃ g',
    pt_regs_to_gdb_regs arm_layout stale_buffer sample_regs = Some g'
    ∧ length g' = length stale_buffer
    ∧ gdb_regs_to_pt_regs arm_layout g' (with_ARM_pc 0 sample_regs)
      = Some (with_ORIG_r0 (ARM_ORIG_r0 (with_ARM_pc 0 sample_regs))
                sample_regs)
    ∧ gdb_regs_to_pt_regs arm_layout g' sample_regs = Some sample_regs.
Proof.
  apply (pt_regs_round_trip arm_layout stale_buffer sample_regs
           (with_ARM_pc 0 sample_regs)).
  - layout_checked.
  - reflexivity.
Defined.

(** X19: the other way round only the seventeen named slots survive: after
    loading the kernel registers from a buffer and storing them again,
    each named slot holds what it held and every other slot of the buffer
    is zero. *)
Theorem gdb_regs_round_trip (lay : gdb_layout) (gdb_regs buffer : list Z)
    (kernel_regs : pt_regs) :
  layout_ok lay →
  length gdb_regs = GDB_MAX_REGS lay →
  length buffer = GDB_MAX_REGS lay →
  ∃ regs g',
    gdb_regs_to_pt_regs lay gdb_regs kernel_regs = Some regs
    ∧ pt_regs_to_gdb_regs lay buffer regs = Some g'
    ∧ (∀ r, g' !! gdb_index lay r = gdb_regs !! gdb_index lay r)
    ∧ (∀ i, (i < GDB_MAX_REGS lay)%nat → (∀ r, gdb_index lay r ≠ i) →
            g' !! i = Some 0).
Proof.
  intros Hlay Hlen Hbuf.
  assert (Hf : ∀ r, gdb_regs !! gdb_index lay r
                    = Some (default 0 (gdb_regs !! gdb_index lay r))).
  { intros r. destruct Hlay as (_ & Hidx & _).
    destruct (lookup_lt_is_Some_2 gdb_regs (gdb_index lay r)) as [v Hv].
    - rewrite Hlen. apply Hidx.
    - by rewrite Hv. }
  eexists. destruct (zero_then_write_spec lay (GDB_MAX_REGS lay) buffer
              {| ARM_r0 := default 0 (gdb_regs !! gdb_index lay _R0);
                 ARM_r1 := default 0 (gdb_regs !! gdb_index lay _R1);
                 ARM_r2 := default 0 (gdb_regs !! gdb_index lay _R2);
                 ARM_r3 := default 0 (gdb_regs !! gdb_index lay _R3);
                 ARM_r4 := default 0 (gdb_regs !! gdb_index lay _R4);
                 ARM_r5 := default 0 (gdb_regs !! gdb_index lay _R5);
                 ARM_r6 := default 0 (gdb_regs !! gdb_index lay _R6);
                 ARM_r7 := default 0 (gdb_regs !! gdb_index lay _R7);
                 ARM_r8 := default 0 (gdb_regs !! gdb_index lay _R8);
                 ARM_r9 := default 0 (gdb_regs !! gdb_index lay _R9);
                 ARM_r10 := default 0 (gdb_regs !! gdb_index lay _R10);
                 ARM_fp := default 0 (gdb_regs !! gdb_index lay _FP);
                 ARM_ip := default 0 (gdb_regs !! gdb_index lay _IP);
                 ARM_sp := default 0 (gdb_regs !! gdb_index lay _SPT);
                 ARM_lr := default 0 (gdb_regs !! gdb_index lay _LR);
                 ARM_pc := default 0 (gdb_regs !! gdb_index lay _PC);
                 ARM_cpsr := default 0 (gdb_regs !! gdb_index lay _CPSR);
                 ARM_ORIG_r0 := ARM_ORIG_r0 kernel_regs |}
              Hlay Hbuf (le_n _)) as (g' & Hrun & _ & Hnamed & Hother).
  exists g'. split; [apply (gdb_regs_to_pt_regs_named lay gdb_regs _ _ Hf)|].
  split; [exact Hrun|]. split.
  - intros r. rewrite Hnamed, (Hf r). by destruct r.
  - intros i Hi Hno. rewrite (Hother i Hno). by rewrite decide_True.
Qed.

Lemma gdb_regs_round_trip_witness :
  ∃ regs g',
    gdb_regs_to_pt_regs arm_layout stale_buffer sample_regs = Some regs
    ∧ pt_regs_to_gdb_regs arm_layout stale_buffer regs = Some g'
    ∧ (∀ r, g' !! gdb_index arm_layout r
            = stale_buffer !! gdb_index arm_layout r)
    ∧ (∀ i, (i < GDB_MAX_REGS arm_layout)%nat →
            (∀ r, gdb_index arm_layout r ≠ i) → g' !! i = Some 0).
Proof.
  apply (gdb_regs_round_trip arm_layout stale_buffer stale_buffer
           sample_regs).
  - layout_checked.
  - reflexivity.
  - reflexivity.
Defined.

(** X20: for a sleeping thread only the first [DBG_MAX_REG_NUM] slots are
    cleared: the named slots hold the thread's registers, the other slots
    below [DBG_MAX_REG_NUM] are zero, and the other slots from there on
    keep what the buffer held before; a null task leaves the buffer as it
    is. *)
Theorem sleeping_thread_to_gdb_regs_slots (lay : gdb_layout)
    (gdb_regs : list Z) (thread_regs : pt_regs) :
  layout_ok lay →
  length gdb_regs = GDB_MAX_REGS lay →
  sleeping_thread_to_gdb_regs lay gdb_regs None = Some gdb_regs
  ∧ ∃ g',
      sleeping_thread_to_gdb_regs lay gdb_regs (Some thread_regs) = Some g'
      ∧ length g' = length gdb_regs
      ∧ (∀ r, g' !! gdb_index lay r = Some (kernel_reg thread_regs r))
      ∧ (∀ i, (∀ r, gdb_index lay r ≠ i) →
              g' !! i
              = if decide (i < DBG_MAX_REG_NUM lay)%nat then Some 0
                else gdb_regs !! i).
Proof.
  intros Hlay Hlen. split; [reflexivity|].
  apply (zero_then_write_spec lay (DBG_MAX_REG_NUM lay) gdb_regs thread_regs
           Hlay Hlen).
  apply Hlay.
Qed.

Lemma sleeping_thread_to_gdb_regs_slots_witness :
  sleeping_thread_to_gdb_regs arm_layout stale_buffer None
  = Some stale_buffer
  ∧ ∃ g',
      sleeping_thread_to_gdb_regs arm_layout stale_buffer (Some sample_regs)
      = Some g'
      ∧ length g' = length stale_buffer
      ∧ (∀ r, g' !! gdb_index arm_layout r = Some (kernel_reg sample_regs r))
      ∧ (∀ i, (∀ r, gdb_index arm_layout r ≠ i) →
              g' !! i
              = if decide (i < DBG_MAX_REG_NUM arm_layout)%nat then Some 0
                else stale_buffer !! i).
Proof.
  apply (sleeping_thread_to_gdb_regs_slots arm_layout stale_buffer
           sample_regs).
  - layout_checked.
  - reflexivity.
Defined.

Lemma with_ARM_pc_same (regs : pt_regs) : with_ARM_pc (ARM_pc regs) regs = regs.
Proof. by destruct regs. Qed.

(** The handler on a resume packet that carries no address. *)
Lemma kgdb_arch_handle_exception_resume (hex2long : list Z → Z * Z)
    (buf : list Z) (st : kgdb_state) :
  hd 0 buf ∈ [68; 107; 99] → (hex2long (tl buf)).1 = 0 →
  kgdb_arch_handle_exception hex2long buf st
  = (0, {| compiled_break := 0;
           linux_regs :=
             if compiled_break st =? 1
             then with_ARM_pc (u32 (ARM_pc (linux_regs st) + 4)) (linux_regs st)
             else linux_regs st |}).
Proof.
  intros Hc Hd. unfold kgdb_arch_handle_exception.
  destruct (hex2long (tl buf)) as [digits addr]. simpl in Hd. subst digits.
  assert ((hd 0 buf =? 68) || (hd 0 buf =? 107) || (hd 0 buf =? 99) = true)
    as ->; [|reflexivity].
  rewrite !elem_of_cons in Hc.
  destruct Hc as [-> | [-> | [-> | Hc]]]; try reflexivity.
  by apply elem_of_nil in Hc.
Qed.

(** X21: the handler answers 0 exactly to the packets D, k and c; to any
    other packet it answers -1 and changes nothing. When it answers 0 the
    flag [compiled_break] is clear afterwards, no register but the program
    counter has changed, and the program counter fits 32 bits if it did
    before. *)
Theorem kgdb_arch_handle_exception_frame (hex2long : list Z → Z * Z)
    (remcom_in_buffer : list Z) (st : kgdb_state) :
  let r := (kgdb_arch_handle_exception hex2long remcom_in_buffer st).1 in
  let st' := (kgdb_arch_handle_exception hex2long remcom_in_buffer st).2 in
  (r = 0 ↔ hd 0 remcom_in_buffer ∈ [68; 107; 99])
  ∧ (r ≠ 0 → r = -1 ∧ st' = st)
  ∧ (r = 0 →
     compiled_break st' = 0
     ∧ with_ARM_pc (ARM_pc (linux_regs st)) (linux_regs st') = linux_regs st
     ∧ (0 ≤ ARM_pc (linux_regs st) < 2 ^ 32 →
        0 ≤ ARM_pc (linux_regs st') < 2 ^ 32)).
Proof.
  unfold kgdb_arch_handle_exception.
  destruct (hex2long (tl remcom_in_buffer)) as [digits addr].
  rewrite !elem_of_cons, elem_of_nil.
  destruct (hd 0 remcom_in_buffer =? 68) eqn:HD;
    [|destruct (hd 0 remcom_in_buffer =? 107) eqn:Hk;
      [|destruct (hd 0 remcom_in_buffer =? 99) eqn:Hcc]]; simpl.
  4: { split; [|split]; [|done|done]. split; [done|]. lia. }
  all: split; [split; [lia|done]|]; split; [done|]; intros _;
    (split; [reflexivity|]);
    destruct (digits =? 0); simpl;
      [destruct (compiled_break st =? 1)|]; simpl;
      (split; [apply with_ARM_pc_same || by destruct (linux_regs st)|]);
      intros Hpc; try exact Hpc; unfold u32; apply Z.mod_pos_bound; lia.
Qed.

(** X22: a compiled breakpoint is stepped over once. When the debugger
    answers a compiled breakpoint with a resume packet without address, the
    program counter has moved on by four (modulo 2^32) and the flag is
    clear, whatever the flag was before; a further resume packet without
    address then changes nothing. An ordinary breakpoint does not touch the
    flag: resumed the same way it moves the program counter exactly when
    the flag was still 1 on entry. *)
Theorem kgdb_compiled_break_skipped_once (hex2long : list Z → Z * Z)
    (buf buf' : list Z) (st : kgdb_state) :
  hd 0 buf ∈ [68; 107; 99] → (hex2long (tl buf)).1 = 0 →
  hd 0 buf' ∈ [68; 107; 99] → (hex2long (tl buf')).1 = 0 →
  let resume b s := (kgdb_arch_handle_exception hex2long b s).2 in
  let skipped :=
    {| compiled_break := 0;
       linux_regs :=
         with_ARM_pc (u32 (ARM_pc (linux_regs st) + 4)) (linux_regs st) |} in
  kgdb_compiled_brk_fn (resume buf) st = (0, skipped)
  ∧ kgdb_brk_fn (resume buf') skipped = (0, skipped)
  ∧ kgdb_brk_fn (resume buf) st
    = (0, if compiled_break st =? 1 then skipped
          else {| compiled_break := 0; linux_regs := linux_regs st |}).
Proof.
  intros Hc Hd Hc' Hd' resume skipped.
  unfold kgdb_compiled_brk_fn, kgdb_brk_fn, resume.
  rewrite !kgdb_arch_handle_exception_resume by assumption. simpl.
  split; [reflexivity|]. split; [reflexivity|].
  by destruct (compiled_break st =? 1).
Qed.

Lemma kgdb_compiled_break_skipped_once_witness :
  let resume b s := (kgdb_arch_handle_exception no_address b s).2 in
  let skipped :=
    {| compiled_break := 0;
       linux_regs := with_ARM_pc 0xC0008004 sample_regs |} in
  kgdb_compiled_brk_fn (resume [99]) at_breakpoint = (0, skipped)
  ∧ kgdb_brk_fn (resume [107]) skipped = (0, skipped)
  ∧ kgdb_brk_fn (resume [99]) at_breakpoint = (0, at_breakpoint).
Proof.
  apply (kgdb_compiled_break_skipped_once no_address [99] [107]
           at_breakpoint).
  - apply list_elem_of_further, list_elem_of_further, list_elem_of_here.
  - reflexivity.
  - apply list_elem_of_further, list_elem_of_here.
  - reflexivity.
Defined.
